(** * Beam search decoding: a shallow embedding of [beam_search.py] and of the
    parts of [decode_eval.py] that call it or work on words and names
    alone (sentences, the texts for ROUGE, the name of the decode
    directory).

    The development follows the Python sources function by function.  Python
    integers are [Z]; Python lists are [list]; the sets of token ids are
    [gset Z]; a raised exception is a value of [result].  Floating-point
    arithmetic is kept behind the interface [PyNum], so that every theorem
    about the shape of a computation holds for whatever the arithmetic
    rounds to; two instances are given, exact rationals and IEEE binary64. *)

From Stdlib Require Import ZArith QArith Ascii.
From Stdlib Require Import Floats Numbers.Cyclic.Int63.Uint63.
From Equations Require Import Equations.
From stdpp Require Import gmap strings list sorting pretty.

Close Scope Q_scope.
Open Scope Z_scope.

(** ** Exceptions *)

Inductive exn : Type :=
| IndexError
| ValueError
| TypeError
| AttributeError
| ZeroDivisionError.

Inductive result (A : Type) : Type :=
| Ok (a : A)
| Raise (e : exn).

Arguments Ok {A} a.
Arguments Raise {A} e.

Definition bind {A B : Type} (m : result A) (k : A → result B) : result B :=
  match m with
  | Ok a => k a
  | Raise e => Raise e
  end.

Notation "'let*' x ':=' m 'in' k" := (bind m (λ x, k))
  (at level 10, x pattern, m at level 100, k at level 200).

Fixpoint foldM {A S : Type} (f : S → A → result S) (s : S) (l : list A) : result S :=
  match l with
  | [] => Ok s
  | x :: l' => let* s' := f s x in foldM f s' l'
  end.

Fixpoint mapM_r {A B : Type} (f : A → result B) (l : list A) : result (list B) :=
  match l with
  | [] => Ok []
  | x :: l' => let* y := f x in let* ys := mapM_r f l' in Ok (y :: ys)
  end.

(** ** Python sequences *)

Definition py_len {A : Type} (l : list A) : Z := Z.of_nat (length l).

(** [l[i]], with Python's negative indices. *)
Definition py_index {A : Type} (l : list A) (i : Z) : result A :=
  let k := if bool_decide (i < 0) then i + py_len l else i in
  if bool_decide (0 ≤ k) then
    match l !! Z.to_nat k with
    | Some x => Ok x
    | None => Raise IndexError
    end
  else Raise IndexError.

(** A bound of a slice, clipped the way Python clips it. *)
Definition slice_bound (len i : Z) : Z :=
  if bool_decide (i < 0) then Z.max 0 (len + i) else Z.min len i.

(** [l[start:stop]]. *)
Definition py_slice {A : Type} (l : list A) (start stop : Z) : list A :=
  let s := slice_bound (py_len l) start in
  let e := slice_bound (py_len l) stop in
  take (Z.to_nat (e - s)) (drop (Z.to_nat s) l).

(** [range(a, b)]. *)
Definition py_range (a b : Z) : list Z := seqZ a (b - a).

(** [enumerate(l)]. *)
Definition enumerate {A : Type} (l : list A) : list (Z * A) :=
  zip (seqZ 0 (py_len l)) l.

(** [a[i] = x] on a one-dimensional numpy array, for [i] not negative. *)
Definition np_setitem {A : Type} (a : list A) (i : Z) (x : A) : result (list A) :=
  if bool_decide (0 ≤ i < py_len a) then Ok (<[Z.to_nat i := x]> a)
  else Raise IndexError.

(** ** Numbers

    The numbers the scoring code computes with: Python floats, numpy scalars
    and the integers promoted to them.  [of_Z] is the promotion of an integer,
    [of_Q] a decimal literal, [flt] the comparison [<] that [sorted] uses.
    No law is assumed: an operation is whatever the arithmetic makes of it,
    rounding, infinities and NaN included, and none of them raises (numpy
    only warns on a division by zero).

    The operations [fadd] to [fmin] are those of double precision, the
    precision of a Python float and of a [float64] array.  A number that
    is stored into a [float32] array is rounded to single precision, by
    [f32]; the sum, difference, product or quotient of two single
    precision numbers in single precision is the double precision result
    rounded by [f32].  The reductions of numpy are operations of their
    own, since the order in which they add is numpy's and not that of a
    loop from left to right: [add_reduce] is [a.sum()] on a [float64]
    array, [add_reduce32] the same on a [float32] array, and [ddot] is
    [a.dot(b)] on two [float64] vectors of one length. *)

Class PyNum : Type := {
  num : Type;
  of_Z : Z → num;
  of_Q : Q → num;
  fadd : num → num → num;
  fsub : num → num → num;
  fmul : num → num → num;
  fdiv : num → num → num;
  fmin : num → num → num;
  flt : num → num → bool;
  f32 : num → num;
  add_reduce : list num → num;
  add_reduce32 : list num → num;
  ddot : list num → list num → num;
}.

(** A numpy vector: an attention distribution or a coverage vector. *)
Abbreviation vec := (list num) (only parsing).

(** Exact rational arithmetic: nothing is rounded and the order of the
    additions does not matter.  ([Qdiv] by zero is zero there, where the
    floats have an infinity or a NaN.) *)
Definition Qlt_bool (a b : Q) : bool := negb (Qle_bool b a).

Definition rational : PyNum := {|
  num := Q;
  of_Z := inject_Z;
  of_Q := λ q, q;
  fadd := Qplus;
  fsub := Qminus;
  fmul := Qmult;
  fdiv := Qdiv;
  fmin := λ a b, if Qle_bool a b then a else b;
  flt := Qlt_bool;
  f32 := λ x, x;
  add_reduce := foldl Qplus (inject_Z 0);
  add_reduce32 := foldl Qplus (inject_Z 0);
  ddot := λ a b, foldl Qplus (inject_Z 0) (zip_with Qmult a b);
|}.

(** IEEE 754 binary64, the kernel's floats. *)
Definition float_of_Z (z : Z) : float :=
  if bool_decide (z < 0) then PrimFloat.opp (PrimFloat.of_uint63 (Uint63.of_Z (- z)))
  else PrimFloat.of_uint63 (Uint63.of_Z z).

(** [np.minimum] on two floats: a NaN on either side comes out. *)
Definition float_min (a b : float) : float :=
  if negb (PrimFloat.eqb a a) then a
  else if negb (PrimFloat.eqb b b) then b
  else if PrimFloat.ltb b a then b else a.

(** The nearest single precision number (ties to even), as a double:
    the rounding of IEEE 754 binary32, with 24 bits of precision and the
    infinities beyond the exponent 128. *)
Definition float_to_single (x : float) : float :=
  match Prim2SF x with
  | S754_finite s m e => SF2Prim (binary_round 24 128 s m e)
  | _ => x
  end.

Definition single_add (a b : float) : float := float_to_single (PrimFloat.add a b).

(** *** The pairwise summation of numpy

    The loop of [add.reduce] over a contiguous array (numpy 1.9 and
    later): fewer than 8 items are added from left to right, starting from
    zero; up to 128 items are added into 8 partial sums, which are added
    in pairs before the items left over are added one by one; more items
    are split into two halves, the first a multiple of 8 long. *)

Section Pairwise.
Context {T : Type} (add : T → T → T) (zero : T).

(** [blocks] times: the next 8 items of [a] are added to the 8 sums [r]. *)
Fixpoint add_blocks (r a : list T) (blocks : nat) : list T :=
  match blocks with
  | O => r
  | S blocks' => add_blocks (zip_with add r (take 8 a)) (drop 8 a) blocks'
  end.

Definition add_lanes (r : list T) : T :=
  match r with
  | [r0; r1; r2; r3; r4; r5; r6; r7] =>
    add (add (add r0 r1) (add r2 r3)) (add (add r4 r5) (add r6 r7))
  | _ => zero
  end.

Definition pairwise_block (a : list T) : T :=
  let n := length a in
  if (n <? 8)%nat then foldl add zero a
  else
    let r := add_blocks (take 8 a) (drop 8 a) (n / 8 - 1) in
    foldl add (add_lanes r) (drop (n - n mod 8) a).

(** The recursion on the two halves.  Either half is shorter than the
    array, so the recursion is less than [length a] calls deep, the depth
    that [pairwise_sum] allows for; [pairwise_sum_unfold] below is the
    equation of the source. *)
Fixpoint pairwise_rec (depth : nat) (a : list T) : T :=
  match depth with
  | O => pairwise_block a
  | S depth' =>
    if (length a <=? 128)%nat then pairwise_block a
    else
      let n2 := (length a / 2 - (length a / 2) mod 8)%nat in
      add (pairwise_rec depth' (take n2 a)) (pairwise_rec depth' (drop n2 a))
  end.

Definition pairwise_sum (a : list T) : T := pairwise_rec (length a) a.

(** The reduction starts from the zero of [add] and adds the pairwise sum
    of the whole array to it. *)
Definition np_add_reduce (a : list T) : T := add zero (pairwise_sum a).

End Pairwise.

(** [ddot] adds the products from left to right, as the loop of numpy
    and the reference BLAS do; an optimized BLAS may add the products of
    a long vector in another order. *)
Definition binary64 : PyNum := {|
  num := float;
  of_Z := float_of_Z;
  of_Q := λ q, PrimFloat.div (float_of_Z (Qnum q)) (float_of_Z (Z.pos (Qden q)));
  fadd := PrimFloat.add;
  fsub := PrimFloat.sub;
  fmul := PrimFloat.mul;
  fdiv := PrimFloat.div;
  fmin := float_min;
  flt := PrimFloat.ltb;
  f32 := float_to_single;
  add_reduce := np_add_reduce PrimFloat.add 0%float;
  add_reduce32 := np_add_reduce single_add 0%float;
  ddot := λ a b, foldl PrimFloat.add 0%float (zip_with PrimFloat.mul a b);
|}.

Definition is_nan (x : float) : bool := negb (PrimFloat.eqb x x).

(** The constants of [data.py], which is not part of the sources at hand. *)
Record Data : Type := {
  N_FREE_TOKENS : Z;
  START_DECODING : string;
  STOP_DECODING : string;
}.

(** [tf.app.flags.FLAGS], as far as beam search reads it. *)
Record Flags : Type := {
  beam_size : Z;
  max_dec_steps : Z;
  min_dec_steps : Z;
  smart_decode : bool;
}.

(** ** The class [Hypothesis]

    [Hypothesis] is a reserved word of Rocq: the record is [Hyp]. *)

Section Scoring.
Context `{PyNum} {State : Type}.

Record Hyp : Type := {
  tokens : list Z;
  log_probs : list num;
  state : State;
  attn_dists : list vec;
  p_gens : list (option num);
  coverage : option vec;
}.

(** [Hypothesis.__init__] stores its six arguments and checks nothing. *)
Definition __init__ (tokens : list Z) (log_probs : list num) (state : State)
    (attn_dists : list vec) (p_gens : list (option num)) (coverage : option vec)
    : result Hyp :=
  Ok {| tokens := tokens; log_probs := log_probs; state := state;
        attn_dists := attn_dists; p_gens := p_gens; coverage := coverage |}.

(** [Hypothesis.extend], on values: the lists are built by [+], which
    allocates (the module [Store] below has the version on the heap). *)
Definition extend (self : Hyp) (token : Z) (log_prob : num) (state : State)
    (attn_dist : vec) (p_gen : option num) (coverage : option vec) : Hyp :=
  {| tokens := tokens self ++ [token];
     log_probs := log_probs self ++ [log_prob];
     state := state;
     attn_dists := attn_dists self ++ [attn_dist];
     p_gens := p_gens self ++ [p_gen];
     coverage := coverage |}.

Definition latest_token (self : Hyp) : result Z :=
  py_index (tokens self) (-1).

(** Python's [sum]: a left fold that starts from the integer 0. *)
Definition py_sum (l : list num) : num := foldl fadd (of_Z 0) l.

(** [x / n] for a float [x] and a Python integer [n]: Python raises on a
    zero [n].  (A numpy scalar [x] would only warn; none of the divisions
    below has a divisor that can be zero when it is reached.) *)
Definition py_div (x : num) (n : Z) : result num :=
  if bool_decide (n = 0) then Raise ZeroDivisionError else Ok (fdiv x (of_Z n)).

(** *** numpy, on one-dimensional arrays *)

Definition np_zeros (n : nat) : vec := replicate n (of_Z 0).

(** [a.sum()] on a [float64] array, and on a [float32] array. *)
Definition np_sum (a : vec) : num := add_reduce a.

Definition np_sum32 (a : vec) : num := add_reduce32 a.

Definition np_mean (a : vec) : num := fdiv (np_sum a) (of_Z (py_len a)).

(** [a /= s] on a [float32] array and a [float32] scalar: every element
    divided in single precision, no exception on a zero [s]. *)
Definition np_idiv32 (a : vec) (s : num) : vec := (λ x, f32 (fdiv x s)) <$> a.

(** [a.dot(b)], the elements of a [float32] array being taken up to
    double precision as they are. *)
Definition np_dot (a b : vec) : result num :=
  if bool_decide (length a = length b) then Ok (ddot a b)
  else Raise ValueError.

(** [np.minimum(a, b)], a vector of length one being broadcast. *)
Definition np_minimum (a b : vec) : result vec :=
  if bool_decide (length a = length b) then Ok (zip_with fmin a b)
  else match a, b with
       | [x], _ => Ok (fmin x <$> b)
       | _, [y] => Ok ((λ x, fmin x y) <$> a)
       | _, _ => Raise ValueError
       end.

(** [c += a]: the result keeps the shape of [c]. *)
Definition np_iadd (c a : vec) : result vec :=
  if bool_decide (length a = length c) then Ok (zip_with fadd c a)
  else match a with
       | [x] => Ok ((λ y, fadd y x) <$> c)
       | _ => Raise ValueError
       end.

Section WithData.
Context (data : Data).

Definition _has_unknown_token (self : Hyp) (stop_token_id : Z) : result bool :=
  if existsb (λ token, bool_decide (token < N_FREE_TOKENS data)) (py_slice (tokens self) 1 (-1))
  then Ok true
  else
    let* latest := latest_token self in
    if bool_decide (latest < N_FREE_TOKENS data) && negb (bool_decide (latest = stop_token_id))
    then Ok true
    else Ok false.

Definition avg_log_prob (self : Hyp) (stop_token_id : Z) : result num :=
  let* unknown := _has_unknown_token self stop_token_id in
  if unknown then Ok (of_Z (- 10 ^ 6))
  else py_div (py_sum (log_probs self)) (py_len (tokens self)).

(** The inner loop of [_smart_avg_log_prob], at [j]: the quotient is a
    Python float, and it is stored into the [float32] array of the weights. *)
Definition window_step (stopword_ids : gset Z) (toks : list Z) (i : Z)
    (sentence_start_weights : vec) (j : Z) : result vec :=
  let* tj := py_index toks j in
  if bool_decide (tj ∈ stopword_ids) then Ok sentence_start_weights
  else
    let* w := py_div (of_Z 1) (j - i + 5) in
    np_setitem sentence_start_weights j (f32 w).

(** The outer loop of [_smart_avg_log_prob], at [(i, token)]. *)
Definition smart_step (start_sent_ids stopword_ids pronoun_ids : gset Z) (toks : list Z)
    (st : vec * vec) (it : Z * Z) : result (vec * vec) :=
  let '(sentence_start_weights, log_probs) := st in
  let '(i, token) := it in
  let* sentence_start_weights :=
    if bool_decide (token ∈ start_sent_ids)
    then foldM (window_step stopword_ids toks i) sentence_start_weights
           (py_range (i + 1) (Z.min (py_len toks) (i + 5)))
    else Ok sentence_start_weights in
  let* log_probs :=
    if bool_decide (token ∈ pronoun_ids)
    then let* x := py_index log_probs i in np_setitem log_probs i (fsub x (of_Q (8 # 10)))
    else Ok log_probs in
  Ok (sentence_start_weights, log_probs).

Definition _smart_avg_log_prob (self : Hyp) (start_sent_ids stopword_ids pronoun_ids : gset Z)
    : result num :=
  let sentence_start_weights := np_zeros (length (tokens self)) in
  let log_probs := log_probs self in
  let* (sentence_start_weights, log_probs) :=
    foldM (smart_step start_sent_ids stopword_ids pronoun_ids (tokens self))
      (sentence_start_weights, log_probs) (enumerate (tokens self)) in
  let sentence_start_weights :=
    np_idiv32 sentence_start_weights (np_sum32 sentence_start_weights) in
  let* sentence_start_log_probs := np_dot sentence_start_weights log_probs in
  Ok (fadd (fmul (of_Q (75 # 100)) (np_mean log_probs))
           (fmul (of_Q (25 # 100)) sentence_start_log_probs)).

Definition cov_step (st : vec * list num) (a : vec) : result (vec * list num) :=
  let '(coverage, covlosses) := st in
  let* m := np_minimum a coverage in
  let covloss := np_sum m in
  let* coverage := np_iadd coverage a in
  Ok (coverage, covlosses ++ [covloss]).

Definition cov_loss (self : Hyp) : result num :=
  let* a0 := py_index (attn_dists self) 0 in
  let coverage := np_zeros (length a0) in
  let* (_, covlosses) := foldM cov_step (coverage, []) (attn_dists self) in
  py_div (py_sum covlosses) (py_len covlosses).

(** The loop of [repeated_n_gram_loss] over the remaining indices [idxs]. *)
Fixpoint n_gram_scan (toks : list Z) (disallowed_n : Z) (seen_n_grams : gset (list Z))
    (idxs : list Z) : num :=
  match idxs with
  | [] => of_Z 0
  | i :: idxs' =>
    let n_gram := py_slice toks i (i + disallowed_n) in
    if bool_decide (n_gram ∈ seen_n_grams) then of_Z (10 ^ 6)
    else n_gram_scan toks disallowed_n ({[n_gram]} ∪ seen_n_grams) idxs'
  end.

(** A property: it is read without arguments, so [disallowed_n] is 3. *)
Definition repeated_n_gram_loss (self : Hyp) : num :=
  let disallowed_n := 3 in
  n_gram_scan (tokens self) disallowed_n ∅ (py_range 0 (py_len (tokens self) - disallowed_n + 1)).

Definition score (self : Hyp) (stop_token_id : Z)
    (start_sent_ids stopword_ids pronoun_ids : gset Z) : result num :=
  let* unknown := _has_unknown_token self stop_token_id in
  if unknown then Ok (of_Z (- 10 ^ 6))
  else
    let* avg_log_prob := _smart_avg_log_prob self start_sent_ids stopword_ids pronoun_ids in
    let rep := repeated_n_gram_loss self in
    let* cov := cov_loss self in
    Ok (fsub (fsub avg_log_prob rep) cov).

(** *** [sorted(hyps, key=score_func, reverse=True)]

    The keys are computed first, once per element and in order; the sort
    compares keys with [<] alone and keeps elements that compare equal in
    their original order, also under [reverse=True].  It is modelled by the
    insertion sort with that property.

    The insertion sort returns the list of Python's sort on two kinds of
    input: the keys on which [<] is a strict weak order, where every
    stable sort returns the same list, and the inputs in which no key is
    below the next one, which both return as they are (after the reversal
    of [reverse=True] such an input is a single run for Python's sort).
    The scores can be NaN, and [<] is no strict weak order on keys with a
    NaN among them; on such an input of the other kind the list of Python
    depends on the runs and merges of its sort, which are not modelled,
    and what is proved of [sort_hyps] there uses one fact only, that the
    result is a rearrangement of the input. *)

Fixpoint insert_desc {A : Type} (kx : num) (x : A) (l : list (num * A)) : list (num * A) :=
  match l with
  | [] => [(kx, x)]
  | (ky, y) :: l' =>
    if flt kx ky then (ky, y) :: insert_desc kx x l' else (kx, x) :: (ky, y) :: l'
  end.

Definition sort_desc {A : Type} (l : list (num * A)) : list (num * A) :=
  foldr (λ kx acc, insert_desc kx.1 kx.2 acc) [] l.

Definition py_sorted_reverse {A : Type} (key : A → result num) (l : list A) : result (list A) :=
  let* keys := mapM_r key l in
  Ok ((sort_desc (zip keys l)).*2).

Section WithFlags.
Context (FLAGS : Flags).

Definition score_func (stop_token_id : Z) (start_sent_ids stopword_ids pronoun_ids : gset Z)
    : Hyp → result num :=
  if smart_decode FLAGS
  then λ h, score h stop_token_id start_sent_ids stopword_ids pronoun_ids
  else λ h, avg_log_prob h stop_token_id.

Definition sort_hyps (hyps : list Hyp) (stop_token_id : Z)
    (start_sent_ids stopword_ids pronoun_ids : gset Z) : result (list Hyp) :=
  py_sorted_reverse (score_func stop_token_id start_sent_ids stopword_ids pronoun_ids) hyps.

(** *** The collaborators of [run_beam_search] *)

Context {Enc : Type}.

Record Vocab : Type := {
  word2id : string → Z;
}.

Record Batch : Type := {
  article_id_to_word_ids : list (gmap Z Z);
  enc_batch_shape1 : nat;
}.

(** What [model.decode_onestep] returns; a two-dimensional array is the
    list of its rows. *)
Record DecodeOut : Type := {
  topk_ids : list (list Z);
  topk_log_probs : list (list num);
  new_states : list State;
  out_attn_dists : list vec;
  out_p_gens : list (option num);
  new_coverage : list (option vec);
}.

(** The model, with the session [sess] it runs in. *)
Record Model : Type := {
  run_encoder : Batch → result (Enc * State);
  decode_onestep :
    Batch → list Z → Enc → list State → list (option vec) → result DecodeOut;
}.

Context (model : Model) (vocab : Vocab) (batch : Batch).

(** [a[i, j]]. *)
Definition np_index2 {A : Type} (a : list (list A)) (i j : Z) : result A :=
  let* row := py_index a i in py_index row j.

(** The body of [for i in xrange(num_orig_hyps)]: the children of [hyps[i]]. *)
Definition expand (hyps : list Hyp) (out : DecodeOut) (i : Z) : result (list Hyp) :=
  let* h := py_index hyps i in
  let* new_state := py_index (new_states out) i in
  let* attn_dist := py_index (out_attn_dists out) i in
  let* p_gen := py_index (out_p_gens out) i in
  let* new_coverage_i := py_index (new_coverage out) i in
  mapM_r (λ j,
    let* token := np_index2 (topk_ids out) i j in
    let* log_prob := np_index2 (topk_log_probs out) i j in
    Ok (extend h token log_prob new_state attn_dist p_gen new_coverage_i))
    (py_range 0 (beam_size FLAGS * 2)).

(** The loop over the ranked children, with its [break]. *)
Fixpoint collect (steps : Z) (ranked : list Hyp) (hyps results : list Hyp)
    : result (list Hyp * list Hyp) :=
  match ranked with
  | [] => Ok (hyps, results)
  | h :: ranked' =>
    let* latest := latest_token h in
    let '(hyps, results) :=
      if bool_decide (latest = word2id vocab (STOP_DECODING data)) then
        if bool_decide (min_dec_steps FLAGS ≤ steps) then (hyps, results ++ [h])
        else (hyps, results)
      else if bool_decide (N_FREE_TOKENS data ≤ latest) then (hyps ++ [h], results)
      else (hyps, results) in
    if bool_decide (py_len hyps = beam_size FLAGS)
       || bool_decide (py_len results = 4 * beam_size FLAGS)
    then Ok (hyps, results)
    else collect steps ranked' hyps results
  end.

(** One iteration of the [while] loop. *)
Definition search_step (enc_states : Enc) (stop_token_id : Z)
    (start_sent_ids stopword_ids pronoun_ids : gset Z)
    (steps : Z) (hyps results : list Hyp) : result (list Hyp * list Hyp) :=
  let* latest_tokens := mapM_r latest_token hyps in
  let* latest_tokens :=
    mapM_r (λ t, let* d := py_index (article_id_to_word_ids batch) 0 in
                 Ok (default t (d !! t))) latest_tokens in
  let states := state <$> hyps in
  let prev_coverage := coverage <$> hyps in
  let* out := decode_onestep model batch latest_tokens enc_states states prev_coverage in
  let num_orig_hyps := if bool_decide (steps = 0) then 1 else py_len hyps in
  let* children := mapM_r (expand hyps out) (py_range 0 num_orig_hyps) in
  let all_hyps := concat children in
  let* ranked := sort_hyps all_hyps stop_token_id start_sent_ids stopword_ids pronoun_ids in
  collect steps ranked [] results.

(** [while steps < FLAGS.max_dec_steps and len(results) < 4 * FLAGS.beam_size],
    [remaining] being the number of steps left below [max_dec_steps]. *)
Fixpoint search_loop (enc_states : Enc) (stop_token_id : Z)
    (start_sent_ids stopword_ids pronoun_ids : gset Z)
    (remaining : nat) (steps : Z) (hyps results : list Hyp)
    : result (list Hyp * list Hyp) :=
  match remaining with
  | O => Ok (hyps, results)
  | S remaining' =>
    if bool_decide (py_len results < 4 * beam_size FLAGS) then
      let* (hyps, results) :=
        search_step enc_states stop_token_id start_sent_ids stopword_ids pronoun_ids
          steps hyps results in
      search_loop enc_states stop_token_id start_sent_ids stopword_ids pronoun_ids
        remaining' (steps + 1) hyps results
    else Ok (hyps, results)
  end.

Definition stop_id : Z := word2id vocab (STOP_DECODING data).

Definition start_sent_id_set : gset Z :=
  list_to_set (word2id vocab <$> [START_DECODING data; "."%string]).

Definition stopword_id_set : gset Z :=
  list_to_set (word2id vocab <$>
    ["the"; "a"; "an"; "it"; "its"; "this"; "that"; "these"; "those"]%string).

Definition pronoun_id_set : gset Z :=
  list_to_set (word2id vocab <$> ["he"; "she"; "him"; "her"; "i"; "we"]%string).

Definition initial_hyp (dec_in_state : State) : Hyp :=
  {| tokens := [word2id vocab (START_DECODING data)];
     log_probs := [of_Z 0];
     state := dec_in_state;
     attn_dists := [];
     p_gens := [];
     coverage := Some (np_zeros (enc_batch_shape1 batch)) |}.

(** [run_beam_search] up to the end of its [while] loop: the live
    hypotheses and the results at loop exit. *)
Definition beam_search_loop : result (list Hyp * list Hyp) :=
  let* (enc_states, dec_in_state) := run_encoder model batch in
  let hyps := replicate (Z.to_nat (beam_size FLAGS)) (initial_hyp dec_in_state) in
  let results := [] in
  search_loop enc_states stop_id start_sent_id_set stopword_id_set pronoun_id_set
    (Z.to_nat (max_dec_steps FLAGS)) 0 hyps results.

(** The results that are ranked at the end. *)
Definition final_results (hyps results : list Hyp) : list Hyp :=
  if bool_decide (py_len results = 0) then hyps else results.

Definition run_beam_search : result Hyp :=
  let* (hyps, results) := beam_search_loop in
  let results := final_results hyps results in
  let* hyps_sorted :=
    sort_hyps results stop_id start_sent_id_set stopword_id_set pronoun_id_set in
  py_index hyps_sorted 0.

(** *** The caller, [BeamSearchDecoder.decode]

    [best_hyp, best_score = beam_search.run_beam_search(...)] unpacks what
    the call returns into two names. *)

Inductive pyobject : Type :=
| ObjHypothesis (h : Hyp)
| ObjNum (x : num)
| ObjPair (a b : pyobject).

(** [a, b = o]: a pair is taken apart; an instance of [Hypothesis] and a
    number are not iterable. *)
Definition unpack_pair (o : pyobject) : result (pyobject * pyobject) :=
  match o with
  | ObjPair a b => Ok (a, b)
  | ObjHypothesis _ | ObjNum _ => Raise TypeError
  end.

End WithFlags.
End WithData.
End Scoring.

(** ** [Hypothesis.extend] on the heap

    Python lists, numpy arrays and instances are objects on a heap and are
    held by reference.  This is [extend] as the interpreter runs it: every
    [self.xs + [x]] allocates two lists, and the call of [Hypothesis]
    allocates the instance. *)

Module Store.
Section Heap.
Context `{PyNum} {State : Type}.

Inductive value : Type :=
| VInt (z : Z)
| VNum (x : num)
| VNone
| VState (s : State)
| VRef (l : positive).

Inductive object : Type :=
| OList (items : list value)
| OArray (a : list num)
| OHypothesis (tokens log_probs state attn_dists p_gens coverage : value).

Definition alloc (σ : gmap positive object) (o : object) : gmap positive object * value :=
  let l := fresh (dom σ) in (<[l := o]> σ, VRef l).

(** [self.<attribute>], for the attributes an instance of [Hypothesis] has. *)
Definition getattr (σ : gmap positive object) (self : value)
    (attribute : value * value * value * value * value * value → value) : result value :=
  match self with
  | VRef l =>
    match σ !! l with
    | Some (OHypothesis tokens log_probs state attn_dists p_gens coverage) =>
      Ok (attribute (tokens, log_probs, state, attn_dists, p_gens, coverage))
    | _ => Raise AttributeError
    end
  | _ => Raise AttributeError
  end.

(** [a + b] on two lists: a new list, the operands left as they are. *)
Definition list_add (σ : gmap positive object) (a b : value)
    : result (gmap positive object * value) :=
  match a, b with
  | VRef la, VRef lb =>
    match σ !! la, σ !! lb with
    | Some (OList xs), Some (OList ys) => Ok (alloc σ (OList (xs ++ ys)))
    | _, _ => Raise TypeError
    end
  | _, _ => Raise TypeError
  end.

(** [self.xs + [x]]. *)
Definition appended (σ : gmap positive object) (self : value)
    (attribute : value * value * value * value * value * value → value) (x : value)
    : result (gmap positive object * value) :=
  let* xs := getattr σ self attribute in
  let '(σ, single) := alloc σ (OList [x]) in
  list_add σ xs single.

(** The six attributes, as selectors for [getattr]. *)
Definition tokens_of : value * value * value * value * value * value → value :=
  λ '(t, _, _, _, _, _), t.
Definition log_probs_of : value * value * value * value * value * value → value :=
  λ '(_, l, _, _, _, _), l.
Definition state_of : value * value * value * value * value * value → value :=
  λ '(_, _, s, _, _, _), s.
Definition attn_dists_of : value * value * value * value * value * value → value :=
  λ '(_, _, _, a, _, _), a.
Definition p_gens_of : value * value * value * value * value * value → value :=
  λ '(_, _, _, _, p, _), p.
Definition coverage_of : value * value * value * value * value * value → value :=
  λ '(_, _, _, _, _, c), c.

Definition extend (σ : gmap positive object)
    (self token log_prob state attn_dist p_gen coverage : value)
    : result (gmap positive object * value) :=
  let* (σ, tokens) := appended σ self tokens_of token in
  let* (σ, log_probs) := appended σ self log_probs_of log_prob in
  let* (σ, attn_dists) := appended σ self attn_dists_of attn_dist in
  let* (σ, p_gens) := appended σ self p_gens_of p_gen in
  Ok (alloc σ (OHypothesis tokens log_probs state attn_dists p_gens coverage)).

(** The items of the list that [v.<attribute>] refers to. *)
Definition items_at (σ : gmap positive object) (v : value)
    (attribute : value * value * value * value * value * value → value)
    : option (list value) :=
  match getattr σ v attribute with
  | Ok (VRef l) => match σ !! l with Some (OList xs) => Some xs | _ => None end
  | _ => None
  end.

(** *** Reading a heap value back as a value of the embedding *)

Definition as_int (v : value) : option Z :=
  match v with VInt z => Some z | _ => None end.

Definition as_num (v : value) : option num :=
  match v with VNum x => Some x | _ => None end.

Definition as_state (v : value) : option State :=
  match v with VState s => Some s | _ => None end.

Definition as_opt_num (v : value) : option (option num) :=
  match v with VNone => Some None | VNum x => Some (Some x) | _ => None end.

Definition array_at (σ : gmap positive object) (v : value) : option (list num) :=
  match v with
  | VRef l => match σ !! l with Some (OArray a) => Some a | _ => None end
  | _ => None
  end.

Definition opt_array_at (σ : gmap positive object) (v : value) : option (option (list num)) :=
  match v with
  | VNone => Some None
  | _ => Some <$> array_at σ v
  end.

Definition list_at {A : Type} (σ : gmap positive object) (item : value → option A) (v : value)
    : option (list A) :=
  match v with
  | VRef l => match σ !! l with Some (OList xs) => mapM item xs | _ => None end
  | _ => None
  end.

Definition hyp_at (σ : gmap positive object) (v : value) : option (@Hyp _ State) :=
  match v with
  | VRef l =>
    match σ !! l with
    | Some (OHypothesis tk lp st ad pg cv) =>
      tokens ← list_at σ as_int tk;
      log_probs ← list_at σ as_num lp;
      state ← as_state st;
      attn_dists ← list_at σ (array_at σ) ad;
      p_gens ← list_at σ as_opt_num pg;
      coverage ← opt_array_at σ cv;
      Some {| tokens := tokens; log_probs := log_probs; state := state;
              attn_dists := attn_dists; p_gens := p_gens; coverage := coverage |}
    | _ => None
    end
  | _ => None
  end.

End Heap.
End Store.

(** ** [decode_eval.py]: [make_html_safe] *)

(** [str.replace], scanning from the left; [skip] characters of a match
    that has been replaced are still to be dropped. *)
Fixpoint replace_from (old new : string) (skip : nat) (s : string) : string :=
  match s with
  | EmptyString => EmptyString
  | String c s' =>
    match skip with
    | S k => replace_from old new k s'
    | O =>
      if String.prefix old s
      then new +:+ replace_from old new (String.length old - 1) s'
      else String c (replace_from old new 0 s')
    end
  end.

(** With an empty [old], [new] goes before every character and at the end. *)
Fixpoint intersperse_str (new s : string) : string :=
  match s with
  | EmptyString => new
  | String c s' => new +:+ String c (intersperse_str new s')
  end.

Definition str_replace (s old new : string) : string :=
  match old with
  | EmptyString => intersperse_str new s
  | _ => replace_from old new 0 s
  end.

(** The two results of [replace] are not bound to anything: strings are
    immutable, and [s] is what is returned. *)
Definition make_html_safe (s : string) : string :=
  let _ := str_replace s "<" "&lt;" in
  let _ := str_replace s ">" "&gt;" in
  s.

(** ** The properties, in the words of the specification *)

Section Specification.
Context `{PyNum} {State : Type} (data : Data).

(** Some interior token, or a final token that is not the stop token, is
    below the free-vocabulary threshold. *)
Definition unknown_token (toks : list Z) (stop_token_id : Z) : Prop :=
  (∃ (i : nat) (t : Z),
      (1 ≤ i)%nat ∧ (i + 1 < length toks)%nat ∧ toks !! i = Some t ∧ t < N_FREE_TOKENS data)
  ∨ (∃ t : Z, last toks = Some t ∧ t < N_FREE_TOKENS data ∧ t ≠ stop_token_id).

(** Some contiguous run of three tokens occurs at two positions. *)
Definition repeated_3_gram (toks : list Z) : Prop :=
  ∃ i j : nat,
    (i < j)%nat ∧ (j + 3 ≤ length toks)%nat ∧ take 3 (drop i toks) = take 3 (drop j toks).

(** The last index below [k] that satisfies [P]. *)
Fixpoint last_such (P : nat → bool) (k : nat) : option nat :=
  match k with
  | O => None
  | S k' => if P k' then Some k' else last_such P k'
  end.

(** Position [i] holds a sentence start and [j] lies in its window,
    [i + 1 ≤ j < i + 5]. *)
Definition in_window (start_sent_ids : gset Z) (toks : list Z) (j i : nat) : bool :=
  match toks !! i with
  | Some t => bool_decide (t ∈ start_sent_ids) && (i <? j)%nat && (j <=? i + 4)%nat
  | None => false
  end.

(** The weight of position [j] when the sentence starts below [k] have
    been seen: nothing for a stopword; otherwise [1 / (j - i + 5)] for the
    last sentence start [i] whose window holds [j], the later windows
    having overwritten the earlier ones; nothing if there is none. *)
Definition weight_upto (start_sent_ids stopword_ids : gset Z) (toks : list Z)
    (k j : nat) : num :=
  match toks !! j with
  | Some tj =>
    if bool_decide (tj ∈ stopword_ids) then of_Z 0
    else match last_such (in_window start_sent_ids toks j) k with
         | Some i => f32 (fdiv (of_Z 1) (of_Z (Z.of_nat j - Z.of_nat i + 5)))
         | None => of_Z 0
         end
  | None => of_Z 0
  end.

Definition sentence_start_weights (start_sent_ids stopword_ids : gset Z) (toks : list Z)
    : list num :=
  weight_upto start_sent_ids stopword_ids toks (length toks) <$> seq 0 (length toks).

(** The weights [W] once the window of the sentence start [k] has been
    written at the positions below [bound]. *)
Definition window_weights (stopword_ids : gset Z) (toks : list Z) (k bound : nat)
    (W : nat → num) (j : nat) : num :=
  match toks !! j with
  | Some tj =>
    if negb (bool_decide (tj ∈ stopword_ids)) && (k <? j)%nat && (j <? bound)%nat
    then f32 (fdiv (of_Z 1) (of_Z (Z.of_nat j - Z.of_nat k + 5)))
    else W j
  | None => W j
  end.

(** The working log-probs: 0.8 off at every pronoun. *)
Definition working_log_probs (pronoun_ids : gset Z) (toks : list Z) (lps : list num)
    : list num :=
  zip_with (λ t x, if bool_decide (t ∈ pronoun_ids) then fsub x (of_Q (8 # 10)) else x)
    toks lps.

(** A weight vector divided by its sum, in single precision. *)
Definition normalized (w : list num) : list num :=
  (λ x, f32 (fdiv x (add_reduce32 w))) <$> w.

Definition dot_product (a b : list num) : num := ddot a b.

Definition mean (a : list num) : num :=
  fdiv (add_reduce a) (of_Z (Z.of_nat (length a))).

(** [0.75 * mean(working) + 0.25 * (normalized weights . working)]. *)
Definition smart_avg (start_sent_ids stopword_ids pronoun_ids : gset Z)
    (toks : list Z) (lps : list num) : num :=
  let working := working_log_probs pronoun_ids toks lps in
  let weights := sentence_start_weights start_sent_ids stopword_ids toks in
  fadd (fmul (of_Q (75 # 100)) (mean working))
       (fmul (of_Q (25 # 100)) (dot_product (normalized weights) working)).


(** What a sort may expect of [<] on the keys [S] it is given: no two of
    them are below each other, and "not below" is transitive among them.
    Floats are so ordered when none of them is a NaN. *)
Definition strict_weak_order_on (S : list num) : Prop :=
  (∀ a b, a ∈ S → b ∈ S → flt a b = true → flt b a = false)
  ∧ (∀ a b c, a ∈ S → b ∈ S → c ∈ S → flt a b = false → flt b c = false → flt a c = false).




End Specification.

Section SearchSpecification.
Context `{PyNum} {State Enc : Type} (data : Data).
Context (model : @Model _ State Enc) (vocab : Vocab) (batch : Batch).

(** The decoder never offers the stop token among its candidates. *)
Definition never_stops : Prop :=
  ∀ latest_tokens enc_states states prev_coverage out,
    decode_onestep model batch latest_tokens enc_states states prev_coverage = Ok out →
    Forall (λ row, word2id vocab (STOP_DECODING data) ∉ row) (topk_ids out).

(** [c] extends one of [hyps] by one of the candidate tokens of [out]. *)
Definition child_of (hyps : list (@Hyp _ State)) (out : @DecodeOut _ State)
    (c : @Hyp _ State) : Prop :=
  ∃ h token row,
    h ∈ hyps ∧ row ∈ topk_ids out ∧ token ∈ row ∧ tokens c = tokens h ++ [token].

(** The latest token of [c] is one the search goes on from: in the free
    vocabulary, and not the stop token. *)
Definition continuing (c : @Hyp _ State) : Prop :=
  ∃ t, last (tokens c) = Some t
       ∧ N_FREE_TOKENS data ≤ t ∧ t ≠ word2id vocab (STOP_DECODING data).

(** The decoder answers every call with one entry per hypothesis, a row
    being [2 * beam_size] candidates that are all continuing tokens. *)
Definition decodes_on (FLAGS : Flags) : Prop :=
  ∀ latest_tokens enc_states states prev_coverage,
    ∃ out,
      decode_onestep model batch latest_tokens enc_states states prev_coverage = Ok out
      ∧ length (topk_ids out) = length latest_tokens
      ∧ length (topk_log_probs out) = length latest_tokens
      ∧ length (new_states out) = length latest_tokens
      ∧ length (out_attn_dists out) = length latest_tokens
      ∧ length (out_p_gens out) = length latest_tokens
      ∧ length (new_coverage out) = length latest_tokens
      ∧ Forall (λ row, py_len row = beam_size FLAGS * 2
                       ∧ Forall (λ t, N_FREE_TOKENS data ≤ t
                                      ∧ t ≠ word2id vocab (STOP_DECODING data)) row)
          (topk_ids out)
      ∧ Forall (λ row, py_len row = beam_size FLAGS * 2) (topk_log_probs out).

End SearchSpecification.

(** ** A decoder to run the search on

    Test doubles for the collaborators: a vocabulary of five words (every
    other word is 1), a batch without in-article ids, and a decoder that
    offers the same two tokens [a] and [b], with log-probabilities -1 and
    -2, whatever the hypothesis. *)

Definition stub_data : Data :=
  {| N_FREE_TOKENS := 5; START_DECODING := "[START]"; STOP_DECODING := "[STOP]" |}.

Definition stub_vocab : Vocab :=
  {| word2id := λ w,
       if String.eqb w "[START]" then 2
       else if String.eqb w "[STOP]" then 3
       else if String.eqb w "." then 4
       else if String.eqb w "the" then 5
       else if String.eqb w "he" then 6
       else 1 |}.

Definition stub_batch : Batch :=
  {| article_id_to_word_ids := [∅]; enc_batch_shape1 := 2 |}.

Definition stub_decode (a b : Z) (latest_tokens : list Z) : @DecodeOut binary64 unit :=
  {| topk_ids := (λ _, [a; b]) <$> latest_tokens;
     topk_log_probs := (λ _, [-1; -2]%float) <$> latest_tokens;
     new_states := (λ _, tt) <$> latest_tokens;
     out_attn_dists := (λ _, [0.5; 0.5]%float) <$> latest_tokens;
     out_p_gens := (λ _, None) <$> latest_tokens;
     new_coverage := (λ _, None) <$> latest_tokens |}.

Definition stub_model (a b : Z) : @Model binary64 unit unit :=
  {| run_encoder := λ _, Ok (tt, tt);
     decode_onestep := λ _ latest_tokens _ _ _, Ok (stub_decode a b latest_tokens) |}.

(** A heap with the hypothesis "[START]" of the first step at 6 (its four
    lists at 1 to 4, its coverage at 5) and an attention distribution at 7. *)
Definition stub_heap : gmap positive (@Store.object binary64 unit) :=
  list_to_map
    [(1%positive, Store.OList [Store.VInt 2]);
     (2%positive, Store.OList [Store.VNum (H := binary64) 0%float]);
     (3%positive, Store.OList []);
     (4%positive, Store.OList []);
     (5%positive, Store.OArray (H := binary64) [0; 0]%float);
     (6%positive, Store.OHypothesis (Store.VRef 1) (Store.VRef 2) (Store.VState tt)
                    (Store.VRef 3) (Store.VRef 4) (Store.VRef 5));
     (7%positive, Store.OArray (H := binary64) [0.5; 0.5]%float)].

(** ** What the search keeps true of its hypotheses *)

Section SearchInvariants.
Context `{PyNum} {State : Type} (data : Data) (FLAGS : Flags) (vocab : Vocab).

(** The sequences of a hypothesis of the search: the tokens begin with the
    start token, every token has a log-probability, and every token but
    the first has an attention distribution and a generation probability. *)
Definition well_formed (h : @Hyp _ State) : Prop :=
  head (tokens h) = Some (word2id vocab (START_DECODING data))
  ∧ length (log_probs h) = length (tokens h)
  ∧ S (length (attn_dists h)) = length (tokens h)
  ∧ S (length (p_gens h)) = length (tokens h).

(** A hypothesis that is extended further after [n] steps. *)
Definition live_after (n : nat) (h : @Hyp _ State) : Prop :=
  well_formed h ∧ length (tokens h) = S n ∧ (n ≠ 0%nat → continuing data vocab h).

(** A finished hypothesis: it ends with the stop token, which it got at a
    step that was not below [min_dec_steps]. *)
Definition finished (h : @Hyp _ State) : Prop :=
  last (tokens h) = Some (word2id vocab (STOP_DECODING data))
  ∧ min_dec_steps FLAGS + 2 ≤ py_len (tokens h).

(** A result that has been collected in the first [n] steps. *)
Definition finished_by (n : nat) (h : @Hyp _ State) : Prop :=
  well_formed h ∧ finished h ∧ (length (tokens h) ≤ S n)%nat.

End SearchInvariants.

(** A model whose decoder fails with [e] at every call. *)
Definition failing_model (e : exn) : @Model binary64 unit unit :=
  {| run_encoder := λ _, Ok (tt, tt);
     decode_onestep := λ _ _ _ _ _, Raise e |}.

(** ** [Hypothesis.avg_top_attn] *)

Section TopAttention.
Context `{PyNum} {State : Type}.

(** Python's [max] of a sequence: an item replaces the largest so far when
    it compares above it; an empty sequence raises. *)
Definition py_max (l : list num) : result num :=
  match l with
  | [] => Raise ValueError
  | x :: l' => Ok (foldl (λ m y, if flt m y then y else m) x l')
  end.

(** The sum is computed before the length is taken. *)
Definition avg_top_attn (self : @Hyp _ State) : result num :=
  let* tops := mapM_r py_max (attn_dists self) in
  py_div (py_sum tops) (py_len (attn_dists self)).

End TopAttention.

Section CoverageSpecification.
Context `{PyNum}.

(** The coverage loss of every step: the attention of a step is compared
    with the coverage before it, the sum of the attention of the steps
    before. *)
Fixpoint coverage_losses (coverage : list num) (attn_dists : list (list num)) : list num :=
  match attn_dists with
  | [] => []
  | a :: attn_dists' =>
    np_sum (zip_with fmin a coverage)
    :: coverage_losses (zip_with fadd coverage a) attn_dists'
  end.

End CoverageSpecification.

(** ** [decode_eval.py]: words, sentences and the files for ROUGE *)

(** [l.index(x)]: the first position of [x], [ValueError] when there is none. *)
Definition list_index {A : Type} `{EqDecision A} (l : list A) (x : A) : result Z :=
  match list_find (λ y, y = x) l with
  | Some (i, _) => Ok (Z.of_nat i)
  | None => Raise ValueError
  end.

(** [sep.join(l)]. *)
Fixpoint str_join (sep : string) (l : list string) : string :=
  match l with
  | [] => EmptyString
  | [x] => x
  | x :: l' => x +:+ sep +:+ str_join sep l'
  end.

(** [s.split(sep)] for a separator of one character: every occurrence
    ends a piece, empty pieces included. *)
Fixpoint str_split (s : string) (sep : Ascii.ascii) : list string :=
  match s with
  | EmptyString => [EmptyString]
  | String c s' =>
    if Ascii.eqb c sep then EmptyString :: str_split s' sep
    else match str_split s' sep with
         | piece :: pieces => String c piece :: pieces
         | [] => [String c EmptyString]
         end
  end.

(** In [decode]: the words of the best hypothesis up to the first
    [STOP], all of them when [index] raises its [ValueError]. *)
Definition remove_stop (data : Data) (decoded_words : list string) : result (list string) :=
  match (let* fst_stop_idx := list_index decoded_words (STOP_DECODING data) in
         Ok (py_slice decoded_words 0 fst_stop_idx)) with
  | Raise ValueError => Ok decoded_words
  | r => r
  end.

(** The loop of [break_into_sentences]; [index] raises nothing but the
    [ValueError] that is caught.  Every turn takes at least one token. *)
Equations? break_loop (tokens sents : list string) : list string by wf (length tokens) lt :=
break_loop [] sents := sents;
break_loop (t :: ts) sents :=
  let tokens := t :: ts in
  let fst_period_idx :=
    match list_index tokens "."%string with
    | Ok i => i
    | Raise _ => py_len tokens
    end in
  let sent := py_slice tokens 0 (fst_period_idx + 1) in
  break_loop (py_slice tokens (fst_period_idx + 1) (py_len tokens))
    (sents ++ [str_join " " sent]).
Proof.
  repeat match goal with x := _ |- _ => subst x end.
  unfold py_slice, slice_bound, py_len, list_index.
  destruct (list_find (λ y, y = "."%string) (t :: ts)) as [[i ?]|];
    repeat case_bool_decide; rewrite length_take, length_drop; simpl length; lia.
Qed.

Definition break_into_sentences (tokens : list string) : list string :=
  break_loop tokens [].

Definition newline : string := String "010"%char EmptyString.

(** What the loop over [enumerate(sents)] writes to a file opened with
    ["w"]: the text so far is the state. *)
Definition write_sentences (sents : list string) : string :=
  foldl (λ f '(idx, sent),
           if bool_decide (idx = py_len sents - 1) then f +:+ sent
           else f +:+ (sent +:+ newline))
    EmptyString (enumerate sents).

(** [write_for_rouge], as the texts of the reference file and of the
    decoded file; the names of the files are not modelled. *)
Definition write_for_rouge (abstract : string) (decoded_words : list string)
    : string * string :=
  let decoded_sents := break_into_sentences decoded_words in
  let reference_sents := break_into_sentences (str_split abstract " "%char) in
  let decoded_sents := make_html_safe <$> decoded_sents in
  let reference_sents := make_html_safe <$> reference_sents in
  (write_sentences reference_sents, write_sentences decoded_sents).

(** [sub in s] on strings. *)
Fixpoint str_contains (sub s : string) : bool :=
  if String.prefix sub s then true
  else match s with
       | EmptyString => false
       | String _ s' => str_contains sub s'
       end.

(** [FLAGS], as far as [get_decode_dir_name] reads it besides the flags
    of the search. *)
Record PathFlags : Type := {
  data_path : string;
  max_enc_steps : Z;
}.

(** ["%i" % n] for an integer. *)
Definition format_i (n : Z) : string := pretty n.

Definition get_decode_dir_name (FLAGS : Flags) (PFLAGS : PathFlags) (ckpt_name : option string)
    : result string :=
  let* dataset :=
    if str_contains "train" (data_path PFLAGS) then Ok "train"%string
    else if str_contains "val" (data_path PFLAGS) then Ok "val"%string
    else if str_contains "test" (data_path PFLAGS) then Ok "test"%string
    else Raise ValueError in
  let dirname :=
    "decode_" +:+ dataset +:+ "_" +:+ format_i (max_enc_steps PFLAGS) +:+ "maxenc_"
    +:+ format_i (beam_size FLAGS) +:+ "beam_" +:+ format_i (min_dec_steps FLAGS) +:+ "mindec_"
    +:+ format_i (max_dec_steps FLAGS) +:+ "maxdec" in
  let dirname :=
    match ckpt_name with
    | Some ckpt_name => dirname +:+ ("_" +:+ ckpt_name)
    | None => dirname
    end in
  Ok dirname.

(** The sentences of a list of tokens: a sentence ends with its first
    ["."], the last one with the tokens. *)
Fixpoint sentences_of (tokens : list string) : list (list string) :=
  match tokens with
  | [] => []
  | t :: rest =>
    if bool_decide (t = "."%string) then [t] :: sentences_of rest
    else match sentences_of rest with
         | [] => [[t]]
         | sent :: sents => (t :: sent) :: sents
         end
  end.

(** [sub] occurs in [s]. *)
Definition occurs_in (sub s : string) : Prop :=
  ∃ pre post, s = pre +:+ sub +:+ post.

(** The characters that ["%i"] prints: the digits and the sign. *)
Definition numeric_char (c : Ascii.ascii) : bool :=
  match Ascii.is_nat c with
  | Some _ => true
  | None => Ascii.eqb c "-"
  end.

Fixpoint numeric (s : string) : bool :=
  match s with
  | EmptyString => true
  | String c s' => numeric_char c && numeric s'
  end.

(** * Theorems *)

(** ** The result monad and Python sequences *)

Lemma bind_Ok {A B : Type} (m : result A) (k : A → result B) (b : B) :
  bind m k = Ok b ↔ ∃ a, m = Ok a ∧ k a = Ok b.
Proof.
  destruct m as [a|e]; simpl; split.
  - intros Hk. by exists a.
  - by intros (a' & [= ->] & Hk).
  - discriminate.
  - by intros (a' & [=] & _).
Qed.

Lemma py_index_Ok {A : Type} (l : list A) (i : nat) (x : A) :
  l !! i = Some x → py_index l (Z.of_nat i) = Ok x.
Proof.
  intros Hl. unfold py_index.
  repeat case_bool_decide; try lia.
  by rewrite Nat2Z.id, Hl.
Qed.

Lemma py_index_inv {A : Type} (l : list A) (i : Z) (x : A) :
  0 ≤ i → py_index l i = Ok x → l !! Z.to_nat i = Some x.
Proof.
  intros Hi. unfold py_index.
  repeat case_bool_decide; try lia.
  by destruct (l !! Z.to_nat i); intros [=]; subst.
Qed.

Lemma py_index_last {A : Type} (l : list A) :
  py_index l (-1) = match last l with Some x => Ok x | None => Raise IndexError end.
Proof.
  unfold py_index, py_len.
  destruct l as [|a l]; repeat case_bool_decide; simpl length in *; try lia; [done|].
  rewrite last_lookup.
  replace (Z.to_nat (-1 + Z.of_nat (S (length l)))) with (pred (length (a :: l)))
    by (simpl; lia).
  by destruct (_ !! _).
Qed.

Lemma py_slice_interior {A : Type} (l : list A) :
  py_slice l 1 (-1) = take (length l - 2) (drop 1 l).
Proof.
  unfold py_slice, slice_bound, py_len.
  repeat case_bool_decide; try lia.
  destruct l as [|a l]; [done|].
  f_equal; [|f_equal]; simpl length; lia.
Qed.

Lemma py_slice_window {A : Type} (l : list A) (i n : nat) :
  (i + n ≤ length l)%nat →
  py_slice l (Z.of_nat i) (Z.of_nat i + Z.of_nat n) = take n (drop i l).
Proof.
  intros Hin. unfold py_slice, slice_bound, py_len.
  repeat case_bool_decide; try lia.
  f_equal; [|f_equal]; lia.
Qed.

(** ** [avg_log_prob] *)

Section AvgLogProb.
Context `{PyNum} {State : Type} (data : Data).
Implicit Types h : @Hyp _ State.

Lemma interior_unknown (toks : list Z) :
  existsb (λ token, bool_decide (token < N_FREE_TOKENS data)) (py_slice toks 1 (-1)) = true
  ↔ ∃ (i : nat) (t : Z),
      (1 ≤ i)%nat ∧ (i + 1 < length toks)%nat ∧ toks !! i = Some t ∧ t < N_FREE_TOKENS data.
Proof.
  rewrite py_slice_interior, existsb_exists. split.
  - intros (t & Hin & Ht). apply bool_decide_eq_true in Ht.
    apply list_elem_of_In, list_elem_of_lookup in Hin as [k Hk].
    apply lookup_take_Some in Hk as [Hk Hlt]. rewrite lookup_drop in Hk.
    exists (1 + k)%nat, t. repeat split; [lia|lia|done|done].
  - intros (i & t & Hi & Hlen & Hl & Ht). exists t. split.
    + apply list_elem_of_In, list_elem_of_lookup. exists (i - 1)%nat.
      apply lookup_take_Some. split; [|lia].
      rewrite lookup_drop. by replace (1 + (i - 1))%nat with i by lia.
    + by apply bool_decide_eq_true.
Qed.

Lemma has_unknown_token_true h stop_token_id :
  unknown_token data (tokens h) stop_token_id → _has_unknown_token data h stop_token_id = Ok true.
Proof.
  intros Hu. unfold _has_unknown_token.
  destruct (existsb _ _) eqn:Hex; [done|].
  destruct Hu as [Hint|(t & Hlast & Ht & Hne)].
  - apply interior_unknown in Hint. congruence.
  - unfold latest_token. rewrite py_index_last, Hlast. simpl.
    rewrite bool_decide_eq_true_2 by done.
    by rewrite bool_decide_eq_false_2 by done.
Qed.

Lemma has_unknown_token_false h stop_token_id :
  tokens h ≠ [] → ¬ unknown_token data (tokens h) stop_token_id →
  _has_unknown_token data h stop_token_id = Ok false.
Proof.
  intros Hne Hu. unfold _has_unknown_token.
  destruct (existsb _ _) eqn:Hex.
  { destruct Hu. left. by apply interior_unknown. }
  unfold latest_token. rewrite py_index_last.
  destruct (last (tokens h)) as [t|] eqn:Hlast.
  - simpl. case_bool_decide as Ht; [|done].
    case_bool_decide as Hs; [done|].
    destruct Hu. right. by exists t.
  - by apply last_None in Hlast.
Qed.

(** C5.  For a hypothesis with at least its start token, [avg_log_prob]
    returns the sentinel -10^6 when some interior token, or a final token
    other than the stop token, is below [N_FREE_TOKENS], and otherwise
    the sum of the log-probabilities divided by the number of tokens. *)
Theorem avg_log_prob_spec h stop_token_id :
  tokens h ≠ [] →
  (unknown_token data (tokens h) stop_token_id →
     avg_log_prob data h stop_token_id = Ok (of_Z (- 10 ^ 6)))
  ∧ (¬ unknown_token data (tokens h) stop_token_id →
     avg_log_prob data h stop_token_id
     = Ok (fdiv (py_sum (log_probs h)) (of_Z (Z.of_nat (length (tokens h)))))).
Proof.
  intros Hne. split; intros Hu; unfold avg_log_prob.
  - by rewrite has_unknown_token_true.
  - rewrite has_unknown_token_false by done. simpl.
    unfold py_div, py_len. rewrite bool_decide_eq_false_2; [done|].
    destruct (tokens h); [done|simpl; lia].
Qed.

End AvgLogProb.

(** The spec's example: threshold 5, tokens [0, 2, 7, 8]; and a hypothesis
    that ends in the stop token 3, which is averaged. *)
Lemma avg_log_prob_spec_witness :
  let data := {| N_FREE_TOKENS := 5; START_DECODING := "[START]"; STOP_DECODING := "[STOP]" |} in
  let mk := λ toks : list Z,
    {| tokens := toks; log_probs := [0; -1; -1; -2]%Q : list (@num rational); state := tt;
       attn_dists := []; p_gens := []; coverage := None |} in
  avg_log_prob data (mk [0; 2; 7; 8]) 3 = Ok (-1000000)%Q
  ∧ avg_log_prob data (mk [0; 7; 8; 3]) 3 = Ok ((-4) / 4)%Q.
Proof.
  intros data mk. split.
  - apply (avg_log_prob_spec (H := rational) data (mk [0; 2; 7; 8]) 3); [done|].
    left. exists 1%nat, 2. simpl. repeat split; lia.
  - apply (avg_log_prob_spec (H := rational) data (mk [0; 7; 8; 3]) 3); [done|].
    intros [(i & t & Hi & Hlen & Hl & Ht)|(t & Hl & Ht & Hs)]; simpl in *.
    + destruct i as [|[|[|i]]]; simpl in *; try lia; simplify_eq; lia.
    + simplify_eq.
Defined.

(** ** [repeated_n_gram_loss] *)

Section RepeatedNGram.
Context `{PyNum} {State : Type}.
Implicit Types h : @Hyp _ State.

(** The scan from index [k] on, [m] windows being left: either it reports
    no repeat and there is none among the windows below [k + m], or it
    reports one and there is one. *)
Lemma n_gram_scan_spec (toks : list Z) (m k : nat) (seen : gset (list Z)) :
  (k + m + 2 = length toks ∨ (m = 0 ∧ length toks < 3))%nat →
  (∀ g, g ∈ seen ↔ ∃ i : nat, (i < k)%nat ∧ g = take 3 (drop i toks)) →
  (∀ i j : nat, (i < j < k)%nat → take 3 (drop i toks) ≠ take 3 (drop j toks)) →
  (n_gram_scan toks 3 seen (seqZ (Z.of_nat k) (Z.of_nat m)) = of_Z 0
   ∧ ¬ repeated_3_gram toks)
  ∨ (n_gram_scan toks 3 seen (seqZ (Z.of_nat k) (Z.of_nat m)) = of_Z (10 ^ 6)
     ∧ repeated_3_gram toks).
Proof.
  revert k seen. induction m as [|m IH]; intros k seen Hlen Hseen Hnodup.
  - left. split; [done|].
    intros (i & j & Hij & Hj & Heq). destruct Hlen as [Hlen|[_ Hlen]]; [|lia].
    apply (Hnodup i j); [lia|done].
  - destruct Hlen as [Hlen|[? _]]; [|done].
    rewrite seqZ_cons by lia. simpl.
    replace (Z.of_nat k + 3) with (Z.of_nat k + Z.of_nat 3) by lia.
    rewrite py_slice_window by lia.
    case_bool_decide as Hin.
    + right. split; [done|].
      apply Hseen in Hin as (i & Hi & Heq). exists i, k. split; [done|]. split; [lia|done].
    + replace (Z.succ (Z.of_nat k)) with (Z.of_nat (S k)) by lia.
      replace (Z.pred (Z.of_nat (S m))) with (Z.of_nat m) by lia.
      apply IH.
      * left. lia.
      * intros g. rewrite elem_of_union, elem_of_singleton, Hseen. split.
        -- intros [->|(i & Hi & ->)]; [exists k|exists i]; split; try done; lia.
        -- intros (i & Hi & ->). destruct (decide (i = k)) as [->|]; [by left|].
           right. exists i. split; [lia|done].
      * intros i j Hij Heq. destruct (decide (j = k)) as [->|].
        -- apply Hin, Hseen. exists i. split; [lia|done].
        -- apply (Hnodup i j); [lia|done].
Qed.

Lemma repeated_n_gram_loss_cases h :
  (repeated_n_gram_loss h = of_Z 0 ∧ ¬ repeated_3_gram (tokens h))
  ∨ (repeated_n_gram_loss h = of_Z (10 ^ 6) ∧ repeated_3_gram (tokens h)).
Proof.
  unfold repeated_n_gram_loss, py_range, py_len.
  set (toks := tokens h).
  replace (Z.of_nat (length toks) - 3 + 1 - 0) with (Z.of_nat (length toks) - 2) by lia.
  destruct (decide (length toks < 3)%nat) as [Hshort|Hlong].
  - rewrite seqZ_nil by lia. left. split; [done|].
    intros (i & j & Hij & Hj & _). lia.
  - replace (Z.of_nat (length toks) - 2) with (Z.of_nat (length toks - 2)) by lia.
    apply (n_gram_scan_spec toks (length toks - 2) 0 ∅).
    + left. lia.
    + intros g. split; [set_solver|]. intros (i & Hi & _). lia.
    + intros i j Hij. lia.
Qed.

(** C6.  [repeated_n_gram_loss] is 0 when no run of three tokens occurs at
    two positions, and 10^6 when one does; the tokens [1,2,3,4,2,3,4] give
    10^6 and the tokens [1,2,3,4,5,6] give 0. *)
Theorem repeated_n_gram_loss_spec h :
  (¬ repeated_3_gram (tokens h) → repeated_n_gram_loss h = of_Z 0)
  ∧ (repeated_3_gram (tokens h) → repeated_n_gram_loss h = of_Z (10 ^ 6))
  ∧ (tokens h = [1; 2; 3; 4; 2; 3; 4] → repeated_n_gram_loss h = of_Z (10 ^ 6))
  ∧ (tokens h = [1; 2; 3; 4; 5; 6] → repeated_n_gram_loss h = of_Z 0).
Proof.
  repeat split.
  - intros Hno. by destruct (repeated_n_gram_loss_cases h) as [[? ?]|[? ?]].
  - intros Hrep. by destruct (repeated_n_gram_loss_cases h) as [[? ?]|[? ?]].
  - intros Heq. unfold repeated_n_gram_loss. rewrite Heq. by vm_compute.
  - intros Heq. unfold repeated_n_gram_loss. rewrite Heq. by vm_compute.
Qed.

End RepeatedNGram.

Lemma repeated_n_gram_loss_spec_witness :
  let mk := λ toks : list Z,
    {| tokens := toks; log_probs := [] : list (@num binary64); state := tt;
       attn_dists := []; p_gens := []; coverage := None |} in
  repeated_n_gram_loss (mk [1; 2; 3; 4; 2; 3; 4]) = 1000000%float
  ∧ repeated_n_gram_loss (mk [1; 2; 3; 4; 5; 6]) = 0%float
  ∧ repeated_n_gram_loss (mk [7; 7; 7; 7]) = 1000000%float.
Proof.
  intros mk.
  pose proof (repeated_n_gram_loss_spec (H := binary64) (mk [1; 2; 3; 4; 2; 3; 4]))
    as (_ & _ & H1 & _).
  pose proof (repeated_n_gram_loss_spec (H := binary64) (mk [1; 2; 3; 4; 5; 6]))
    as (_ & _ & _ & H2).
  pose proof (repeated_n_gram_loss_spec (H := binary64) (mk [7; 7; 7; 7]))
    as (_ & H3 & _).
  split; [exact (H1 eq_refl)|]. split; [exact (H2 eq_refl)|].
  apply H3. exists 0%nat, 1%nat. simpl. repeat split; lia.
Defined.

(** ** [make_html_safe] *)

(** C10.  [make_html_safe] returns its argument as it is: the strings that
    the two calls of [replace] build are dropped, so an angled bracket
    stays where the escaped text would have the entity. *)
Theorem make_html_safe_identity (s : string) :
  make_html_safe s = s
  ∧ make_html_safe "a<b>c" = "a<b>c"%string
  ∧ str_replace (str_replace "a<b>c" "<" "&lt;") ">" "&gt;" = "a&lt;b&gt;c"%string.
Proof. by repeat split. Qed.

(** ** Construction and [cov_loss] *)

Section Malformed.
Context `{PyNum} {State : Type} (data : Data).
Implicit Types h : @Hyp _ State.

(** C3, as the code has it.  The constructor stores whatever sequences it
    is given, of whatever lengths, and raises nothing; [cov_loss] on a
    hypothesis without attention distributions raises the [IndexError] of
    [self.attn_dists[0]]. *)
Theorem init_stores_any_sequences (toks : list Z) (lps : list num) (st : State)
    (ads : list vec) (pgs : list (option num)) (cov : option vec) :
  __init__ toks lps st ads pgs cov
  = Ok {| tokens := toks; log_probs := lps; state := st; attn_dists := ads;
          p_gens := pgs; coverage := cov |}
  ∧ cov_loss {| tokens := toks; log_probs := lps; state := st; attn_dists := [];
                p_gens := pgs; coverage := cov |} = Raise IndexError.
Proof. done. Qed.

End Malformed.

(** Two tokens with one log-probability and no attention distribution
    break every equation of the length relation, and the constructor
    returns the instance. *)
Lemma init_accepts_mismatched_lengths :
  let toks := [2; 7] : list Z in
  let lps := [0%float] : list (@num binary64) in
  let ads := [[1%float]; [1%float]] : list (list (@num binary64)) in
  length toks ≠ length lps
  ∧ length toks ≠ S (length ads)
  ∧ ∃ h : @Hyp binary64 unit,
      __init__ toks lps tt ads [] None = Ok h ∧ tokens h = toks ∧ log_probs h = lps.
Proof.
  intros toks lps ads. split; [simpl; lia|]. split; [simpl; lia|].
  eexists. by repeat split.
Qed.

(** ** [_smart_avg_log_prob] *)

Lemma foldM_app {A S : Type} (f : S → A → result S) (s : S) (l1 l2 : list A) :
  foldM f s (l1 ++ l2) = let* s' := foldM f s l1 in foldM f s' l2.
Proof.
  revert s. induction l1 as [|x l1 IH]; intros s; simpl; [done|].
  destruct (f s x); simpl; [apply IH|done].
Qed.

Lemma insert_fmap_seq {A : Type} (f : nat → A) (n j : nat) (v : A) :
  (j < n)%nat →
  <[j := v]> (f <$> seq 0 n) = (λ i, if decide (i = j) then v else f i) <$> seq 0 n.
Proof.
  intros Hj. apply list_eq. intros i.
  rewrite list_lookup_insert, !list_lookup_fmap, length_fmap, length_seq.
  destruct (decide (i < n)%nat) as [Hi|Hi].
  - rewrite lookup_seq_lt by done. simpl.
    repeat case_decide; try done; try lia; naive_solver.
  - rewrite lookup_seq_ge by lia. simpl. case_decide; [lia|done].
Qed.

(** [last_such P k] is the greatest index below [k] at which [P] holds. *)
Lemma last_such_Some (P : nat → bool) (k i : nat) :
  last_such P k = Some i
  ↔ (i < k)%nat ∧ P i = true ∧ ∀ j, (i < j < k)%nat → P j = false.
Proof.
  induction k as [|k IH]; simpl.
  - split; [done|]. intros [? _]. lia.
  - destruct (P k) eqn:HP.
    + split.
      * intros [= <-]. split; [lia|]. split; [done|]. intros j ?. lia.
      * intros (Hi & HPi & Hmax). destruct (decide (i = k)) as [->|]; [done|].
        rewrite Hmax in HP by lia. done.
    + rewrite IH. split.
      * intros (Hi & HPi & Hmax). split; [lia|]. split; [done|].
        intros j Hj. destruct (decide (j = k)) as [->|]; [done|]. apply Hmax. lia.
      * intros (Hi & HPi & Hmax). destruct (decide (i = k)) as [->|]; [congruence|].
        split; [lia|]. split; [done|]. intros j Hj. apply Hmax. lia.
Qed.

Lemma last_such_None (P : nat → bool) (k : nat) :
  last_such P k = None ↔ ∀ j, (j < k)%nat → P j = false.
Proof.
  induction k as [|k IH]; simpl.
  - split; [|done]. intros _ j ?. lia.
  - destruct (P k) eqn:HP.
    + split; [done|]. intros Hall. rewrite Hall in HP by lia. done.
    + rewrite IH. split.
      * intros Hall j Hj. destruct (decide (j = k)) as [->|]; [done|]. apply Hall. lia.
      * intros Hall j Hj. apply Hall. lia.
Qed.

Section SmartAvg.
Context `{PyNum} {State : Type}.
Implicit Types h : @Hyp _ State.

Lemma window_loop (sw : gset Z) (toks : list Z) (k m : nat) (W : nat → num) :
  (k + 1 + m ≤ length toks)%nat →
  foldM (window_step sw toks (Z.of_nat k)) (W <$> seq 0 (length toks))
    (seqZ (Z.of_nat k + 1) (Z.of_nat m))
  = Ok (window_weights sw toks k (k + 1 + m) W <$> seq 0 (length toks)).
Proof.
  induction m as [|m IH]; intros Hm.
  - simpl. f_equal. apply list_fmap_ext. intros i j Hj. unfold window_weights.
    destruct (toks !! j); [|done].
    destruct (Nat.ltb_spec k j), (Nat.ltb_spec j (k + 1 + 0)); try lia;
      by rewrite ?andb_false_r.
  - rewrite seqZ_S, foldM_app, IH by lia. simpl.
    replace (Z.of_nat k + 1 + Z.of_nat m) with (Z.of_nat (k + 1 + m)) by lia.
    unfold window_step.
    destruct (lookup_lt_is_Some_2 toks (k + 1 + m)%nat) as [tj Htj]; [lia|].
    rewrite (py_index_Ok _ _ _ Htj). simpl.
    case_bool_decide as Hstop; simpl.
    + f_equal. apply list_fmap_ext. intros i j Hj. unfold window_weights.
      destruct (toks !! j) as [t|] eqn:Ht; [|done].
      destruct (decide (j = k + 1 + m)%nat) as [->|Hne].
      * simplify_eq. by rewrite bool_decide_eq_true_2 by done.
      * destruct (Nat.ltb_spec j (k + 1 + m)), (Nat.ltb_spec j (k + 1 + S m));
          try lia; done.
    + unfold py_div. rewrite bool_decide_eq_false_2 by lia. simpl.
      unfold np_setitem, py_len. rewrite length_fmap, length_seq.
      rewrite bool_decide_eq_true_2 by lia.
      rewrite Nat2Z.id, insert_fmap_seq by lia. simpl. f_equal.
      apply list_fmap_ext. intros i j Hj. unfold window_weights.
      case_decide as Hjk.
      * subst j. rewrite Htj. rewrite bool_decide_eq_false_2 by done. simpl.
        destruct (Nat.ltb_spec k (k + 1 + m)), (Nat.ltb_spec (k + 1 + m) (k + 1 + S m));
          try lia; try done.
      * destruct (toks !! j) as [t|] eqn:Ht; [|done].
        destruct (Nat.ltb_spec j (k + 1 + m)), (Nat.ltb_spec j (k + 1 + S m));
          try lia; done.
Qed.

Lemma weight_upto_0 (ss sw : gset Z) (toks : list Z) (n : nat) :
  np_zeros n = weight_upto ss sw toks 0 <$> seq 0 n.
Proof.
  unfold np_zeros. apply list_eq. intros i.
  rewrite list_lookup_fmap.
  destruct (decide (i < n)%nat) as [Hi|Hi].
  - rewrite lookup_replicate_2, lookup_seq_lt by done. simpl. f_equal.
    unfold weight_upto. destruct (toks !! i); [|done]. by case_bool_decide.
  - rewrite lookup_seq_ge by lia. by apply lookup_replicate_None; lia.
Qed.

(** What the window of a sentence start at [k] adds is the step of
    [weight_upto] from [k] to [S k]. *)
Lemma weight_upto_start (ss sw : gset Z) (toks : list Z) (k j : nat) (t : Z) :
  toks !! k = Some t → t ∈ ss → (j < length toks)%nat →
  window_weights sw toks k (Nat.min (length toks) (k + 5)) (weight_upto ss sw toks k) j
  = weight_upto ss sw toks (S k) j.
Proof.
  intros Hk Hss Hj. unfold window_weights, weight_upto. simpl last_such.
  destruct (toks !! j) as [tj|] eqn:Htj; [|done].
  unfold in_window at 2. rewrite Hk, (bool_decide_eq_true_2 _ Hss).
  case_bool_decide; [done|]. simpl.
  destruct (Nat.ltb_spec k j), (Nat.ltb_spec j (Nat.min (length toks) (k + 5))),
    (Nat.leb_spec j (k + 4)); try lia; done.
Qed.

Lemma weight_upto_other (ss sw : gset Z) (toks : list Z) (k j : nat) (t : Z) :
  toks !! k = Some t → t ∉ ss →
  weight_upto ss sw toks k j = weight_upto ss sw toks (S k) j.
Proof.
  intros Hk Hss. unfold weight_upto. simpl last_such.
  destruct (toks !! j) as [tj|]; [|done].
  unfold in_window at 2. by rewrite Hk, (bool_decide_eq_false_2 _ Hss).
Qed.

(** One turn of the outer loop, at position [k]. *)
Lemma smart_step_spec (ss sw pr : gset Z) (toks : list Z) (k : nat) (t : Z)
    (l1 l2 : list num) (x : num) :
  toks !! k = Some t → length l1 = k →
  smart_step ss sw pr toks
    (weight_upto ss sw toks k <$> seq 0 (length toks), l1 ++ x :: l2) (Z.of_nat k, t)
  = Ok (weight_upto ss sw toks (S k) <$> seq 0 (length toks),
        (l1 ++ [if bool_decide (t ∈ pr) then fsub x (of_Q (8 # 10)) else x]) ++ l2).
Proof.
  intros Hk Hl1. pose proof (lookup_lt_Some _ _ _ Hk) as Hlt.
  unfold smart_step.
  assert (foldM (window_step sw toks (Z.of_nat k))
            (weight_upto ss sw toks k <$> seq 0 (length toks))
            (py_range (Z.of_nat k + 1) (Z.min (py_len toks) (Z.of_nat k + 5)))
          = Ok (window_weights sw toks k (Nat.min (length toks) (k + 5))
                  (weight_upto ss sw toks k) <$> seq 0 (length toks))) as Hwin.
  { unfold py_range, py_len.
    replace (Z.min (Z.of_nat (length toks)) (Z.of_nat k + 5) - (Z.of_nat k + 1))
      with (Z.of_nat (Nat.min (length toks) (k + 5) - (k + 1))) by lia.
    rewrite window_loop by lia.
    by replace (k + 1 + (Nat.min (length toks) (k + 5) - (k + 1)))%nat
      with (Nat.min (length toks) (k + 5)) by lia. }
  assert ((if bool_decide (t ∈ ss)
           then foldM (window_step sw toks (Z.of_nat k))
                  (weight_upto ss sw toks k <$> seq 0 (length toks))
                  (py_range (Z.of_nat k + 1) (Z.min (py_len toks) (Z.of_nat k + 5)))
           else Ok (weight_upto ss sw toks k <$> seq 0 (length toks)))
          = Ok (weight_upto ss sw toks (S k) <$> seq 0 (length toks))) as ->.
  { case_bool_decide as Hss.
    - rewrite Hwin. f_equal. apply list_fmap_ext. intros i j Hj.
      apply lookup_seq in Hj as [-> Hj]. by eapply weight_upto_start.
    - f_equal. apply list_fmap_ext. intros i j Hj. by eapply weight_upto_other. }
  assert ((if bool_decide (t ∈ pr)
           then let* y := py_index (l1 ++ x :: l2) (Z.of_nat k) in
                np_setitem (l1 ++ x :: l2) (Z.of_nat k) (fsub y (of_Q (8 # 10)))
           else Ok (l1 ++ x :: l2))
          = Ok ((l1 ++ [if bool_decide (t ∈ pr) then fsub x (of_Q (8 # 10)) else x])
                  ++ l2)) as ->.
  { rewrite <-app_assoc. simpl app. case_bool_decide; [|done].
    rewrite (py_index_Ok _ _ x) by (by apply list_lookup_middle). simpl bind.
    unfold np_setitem, py_len. rewrite length_app. simpl length.
    rewrite bool_decide_eq_true_2 by lia.
    by rewrite Nat2Z.id, <-Hl1, <-(Nat.add_0_r (length l1)), insert_app_r. }
  done.
Qed.

Lemma foldM_cons {A S : Type} (f : S → A → result S) (s : S) (x : A) (l : list A) :
  foldM f s (x :: l) = let* s' := f s x in foldM f s' l.
Proof. done. Qed.

(** The outer loop from position [k] on: the weights are those of
    [weight_upto], and the log-probs past [k] get their penalties. *)
Lemma smart_loop (ss sw pr : gset Z) (toks : list Z) (rest : list Z) :
  ∀ (k : nat) (l1 l2 : list num),
    drop k toks = rest → (k + length rest = length toks)%nat →
    length l1 = k → length l2 = length rest →
    foldM (smart_step ss sw pr toks)
      (weight_upto ss sw toks k <$> seq 0 (length toks), l1 ++ l2)
      (zip (seqZ (Z.of_nat k) (Z.of_nat (length rest))) rest)
    = Ok (weight_upto ss sw toks (length toks) <$> seq 0 (length toks),
          l1 ++ working_log_probs pr rest l2).
Proof.
  induction rest as [|t rest IH]; intros k l1 l2 Hdrop Hlen Hl1 Hl2.
  - destruct l2; [|done]. simpl in *.
    by replace k with (length toks) by lia.
  - destruct l2 as [|x l2]; [done|].
    assert (toks !! k = Some t) as Hk.
    { rewrite <-(Nat.add_0_r k), <-lookup_drop, Hdrop. done. }
    rewrite seqZ_cons by (simpl; lia).
    change (zip (?a :: ?l) (t :: rest)) with ((a, t) :: zip l rest).
    rewrite foldM_cons, smart_step_spec by done.
    replace (Z.succ (Z.of_nat k)) with (Z.of_nat (S k)) by lia.
    replace (Z.pred (Z.of_nat (length (t :: rest)))) with (Z.of_nat (length rest))
      by (simpl; lia).
    simpl bind. rewrite IH.
    + by rewrite <-app_assoc.
    + by rewrite (drop_S _ _ _ Hk) in Hdrop; simplify_eq.
    + simpl in Hlen. lia.
    + rewrite length_app. simpl. lia.
    + by simplify_eq/=.
Qed.

(** The two loops, the normalization and the blend, put together. *)
Lemma smart_avg_log_prob_value h (ss sw pr : gset Z) :
  length (log_probs h) = length (tokens h) →
  _smart_avg_log_prob h ss sw pr = Ok (smart_avg ss sw pr (tokens h) (log_probs h)).
Proof.
  intros Hlen. unfold _smart_avg_log_prob, enumerate, py_len.
  rewrite (weight_upto_0 ss sw (tokens h)).
  rewrite (smart_loop _ _ _ (tokens h) (tokens h) 0 [] (log_probs h)) by done.
  simpl. unfold np_dot, np_idiv32.
  rewrite bool_decide_eq_true_2; [done|].
  unfold working_log_probs.
  rewrite !length_fmap, length_seq, length_zip_with. lia.
Qed.

(** C4.  For a hypothesis whose log-probs are as many as its tokens,
    [_smart_avg_log_prob] is 0.75 times the mean of the working log-probs
    (0.8 off at every pronoun) plus 0.25 times the dot product of the
    normalized weights with the working log-probs; the weight of a
    position [j] is [1 / (j - i + 5)] for the last sentence start [i] with
    [i + 1 <= j < min(len, i + 5)] when its token is no stopword and there
    is such a start, and zero otherwise.  The numbers are those of the
    program: the weights are held in single precision, so that each
    quotient [1 / (j - i + 5)], the sum of the weights and each weight
    divided by that sum are rounded to it, the mean and the sum of the
    weights add in the order of numpy, and the rest is double precision. *)
Theorem smart_avg_log_prob_spec h (start_sent_ids stopword_ids pronoun_ids : gset Z) :
  length (log_probs h) = length (tokens h) →
  _smart_avg_log_prob h start_sent_ids stopword_ids pronoun_ids
  = Ok (fadd (fmul (of_Q (75 # 100))
                (mean (working_log_probs pronoun_ids (tokens h) (log_probs h))))
             (fmul (of_Q (25 # 100))
                (dot_product
                   (normalized (sentence_start_weights start_sent_ids stopword_ids (tokens h)))
                   (working_log_probs pronoun_ids (tokens h) (log_probs h)))))
  ∧ ∀ (j : nat) (tj : Z),
      tokens h !! j = Some tj →
      sentence_start_weights start_sent_ids stopword_ids (tokens h) !! j
      = Some (if bool_decide (tj ∈ stopword_ids) then of_Z 0
              else match last_such (in_window start_sent_ids (tokens h) j) (length (tokens h)) with
                   | Some i => f32 (fdiv (of_Z 1) (of_Z (Z.of_nat j - Z.of_nat i + 5)))
                   | None => of_Z 0
                   end).
Proof.
  intros Hlen. split; [by apply smart_avg_log_prob_value|].
  intros j tj Hj. unfold sentence_start_weights.
  rewrite list_lookup_fmap, lookup_seq_lt by (by eapply lookup_lt_Some).
  simpl. unfold weight_upto. by rewrite Hj.
Qed.

End SmartAvg.

(** The example of the weights: sentence starts 2 and 8, stopword 6,
    pronoun 9.  The weights are the single precision numbers next to 1/6,
    1/8 and 1/9, and the score is -2.4968965449929232. *)
Lemma smart_avg_log_prob_spec_witness :
  let h := {| tokens := [2; 9; 6; 9; 8];
              log_probs := [0; -1; -2; -3; -4]%float : list (@num binary64);
              state := tt; attn_dists := []; p_gens := []; coverage := None |} in
  sentence_start_weights (H := binary64) {[2; 8]} {[6]} (tokens h)
    = [0; 0x1.555556p-3; 0; 0x1p-3; 0x1.c71c72p-4]%float
  ∧ _smart_avg_log_prob h {[2; 8]} {[6]} {[9]}
    = Ok (smart_avg {[2; 8]} {[6]} {[9]} (tokens h) (log_probs h))
  ∧ smart_avg (H := binary64) {[2; 8]} {[6]} {[9]} (tokens h) (log_probs h)
    = (-0x1.3f9a4e551eb84p+1)%float.
Proof.
  intros h. split; [by vm_compute|]. split.
  - by apply (smart_avg_log_prob_spec (H := binary64) h).
  - by vm_compute.
Defined.

(** The same hypothesis in exact arithmetic: the weights are 1/6, 1/8 and
    1/9, and the score is -7241/2900, which is -2.49689655...; the
    program's -2.49689654... above differs from it from the eighth
    decimal on. *)
Lemma smart_avg_exact_example :
  sentence_start_weights (H := rational) {[2; 8]} {[6]} [2; 9; 6; 9; 8]
    = [0; 1 # 6; 0; 1 # 8; 1 # 9]%Q
  ∧ Qeq (smart_avg (H := rational) {[2; 8]} {[6]} {[9]} [2; 9; 6; 9; 8]
           [0; -1; -2; -3; -4]%Q)
        (-7241 # 2900).
Proof. split; by vm_compute. Qed.

(** In exact arithmetic the normalized weights sum to one, whenever the
    weights do not sum to zero. *)
Lemma rational_sum_shift (w : list Q) (z x : Q) :
  Qeq (foldl Qplus (Qplus z x) w) (Qplus x (foldl Qplus z w)).
Proof.
  revert z x. induction w as [|y w IH]; intros z x; simpl.
  - apply Qplus_comm.
  - rewrite (IH (Qplus z x) y), (IH z x), (IH z y). ring.
Qed.

Lemma rational_sum_scaled (w : list Q) (s acc : Q) :
  Qeq (foldl Qplus acc ((λ x, Qdiv x s) <$> w))
      (Qplus acc (Qdiv (foldl Qplus (inject_Z 0) w) s)).
Proof.
  revert acc. induction w as [|x w IH]; intros acc; simpl.
  - unfold Qdiv. rewrite Qmult_0_l. by rewrite Qplus_0_r.
  - rewrite IH, rational_sum_shift. unfold Qdiv. ring.
Qed.

Lemma normalized_sums_to_one (w : list Q) :
  ¬ Qeq (np_sum (H := rational) w) (inject_Z 0) →
  Qeq (np_sum (H := rational) (normalized (H := rational) w)) (inject_Z 1).
Proof.
  intros Hsum. unfold np_sum, normalized in *. simpl in *.
  rewrite rational_sum_scaled, Qplus_0_l. by apply Qmult_inv_r.
Qed.

(** ** The pairwise sum

    The depth that [pairwise_sum] allows is enough: with any depth that
    is at least the length of the array the recursion ends on blocks of
    at most 128 items, and so [pairwise_sum] satisfies the equation of
    the source. *)

Section PairwiseUnfold.
Context {T : Type} (add : T → T → T) (zero : T).

Lemma pairwise_halves (n : nat) :
  (128 < n)%nat →
  (n / 2 - (n / 2) mod 8 < n)%nat ∧ (0 < n / 2 - (n / 2) mod 8)%nat.
Proof.
  intros Hn.
  pose proof (Nat.Div0.div_lt_upper_bound n 2 n).
  assert (64 ≤ n / 2)%nat by (apply Nat.div_le_lower_bound; lia).
  pose proof (Nat.mod_upper_bound (n / 2) 8). lia.
Qed.

Lemma pairwise_rec_depth (d1 d2 : nat) (a : list T) :
  (length a ≤ d1)%nat → (length a ≤ d2)%nat →
  pairwise_rec add zero d1 a = pairwise_rec add zero d2 a.
Proof.
  revert d2 a. induction d1 as [|d1 IH]; intros d2 a H1 H2.
  - destruct d2; cbn [pairwise_rec]; [done|].
    by replace (length a <=? 128)%nat with true by (symmetry; apply Nat.leb_le; lia).
  - destruct d2 as [|d2]; cbn [pairwise_rec].
    + by replace (length a <=? 128)%nat with true by (symmetry; apply Nat.leb_le; lia).
    + destruct (Nat.leb_spec (length a) 128) as [|Hbig]; [done|].
      destruct (pairwise_halves _ Hbig).
      cbv zeta. f_equal; apply IH; rewrite ?length_take, ?length_drop; lia.
Qed.

Lemma pairwise_sum_unfold (a : list T) :
  pairwise_sum add zero a
  = if (length a <=? 128)%nat then pairwise_block add zero a
    else
      let n2 := (length a / 2 - (length a / 2) mod 8)%nat in
      add (pairwise_sum add zero (take n2 a)) (pairwise_sum add zero (drop n2 a)).
Proof.
  unfold pairwise_sum at 1.
  destruct (Nat.leb_spec (length a) 128) as [Hsmall|Hbig].
  - destruct (length a) eqn:Hn; cbn [pairwise_rec]; [done|].
    rewrite Hn. by replace (S n <=? 128)%nat with true by (symmetry; apply Nat.leb_le; lia).
  - destruct (pairwise_halves _ Hbig).
    destruct (length a) as [|n] eqn:Hn; [lia|]. cbn [pairwise_rec]. rewrite Hn.
    replace (S n <=? 128)%nat with false by (symmetry; apply Nat.leb_gt; lia).
    cbv zeta. unfold pairwise_sum.
    f_equal; apply pairwise_rec_depth; rewrite ?length_take, ?length_drop; lia.
Qed.

End PairwiseUnfold.

(** The pairwise sum stays within what addition stays within. *)

Section PairwiseClosed.
Context {T : Type} (add : T → T → T) (zero : T) (P : T → Prop).
Context (Hzero : P zero) (Hadd : ∀ x y, P x → P y → P (add x y)).

Lemma foldl_closed (a : list T) (acc : T) : P acc → Forall P a → P (foldl add acc a).
Proof.
  intros Hacc Ha. revert acc Hacc.
  induction Ha as [|x a Hx _ IH]; intros acc Hacc; simpl; [done|].
  apply IH. by apply Hadd.
Qed.

Lemma zip_with_closed (r a : list T) : Forall P r → Forall P a → Forall P (zip_with add r a).
Proof.
  intros Hr. revert a. induction Hr as [|x r Hx _ IH]; intros a Ha; [by constructor|].
  destruct Ha as [|y a Hy Ha]; simpl; [by constructor|].
  constructor; [by apply Hadd|by apply IH].
Qed.

Lemma add_blocks_closed (blocks : nat) (r a : list T) :
  Forall P r → Forall P a → Forall P (add_blocks add r a blocks).
Proof.
  revert r a. induction blocks as [|blocks IH]; intros r a Hr Ha; simpl; [done|].
  apply IH; [|by apply Forall_drop].
  apply zip_with_closed; [done|by apply Forall_take].
Qed.

Lemma add_lanes_closed (r : list T) : Forall P r → P (add_lanes add zero r).
Proof.
  intros Hr. unfold add_lanes.
  repeat (destruct Hr as [|? ? ? Hr]; [done|]).
  destruct Hr; [|done]. auto 10.
Qed.

Lemma pairwise_block_closed (a : list T) : Forall P a → P (pairwise_block add zero a).
Proof.
  intros Ha. unfold pairwise_block. destruct (length a <? 8)%nat.
  - by apply foldl_closed.
  - apply foldl_closed; [|by apply Forall_drop].
    apply add_lanes_closed, add_blocks_closed; [by apply Forall_take|by apply Forall_drop].
Qed.

Lemma pairwise_rec_closed (depth : nat) (a : list T) :
  Forall P a → P (pairwise_rec add zero depth a).
Proof.
  revert a. induction depth as [|depth IH]; intros a Ha; simpl.
  - by apply pairwise_block_closed.
  - destruct (length a <=? 128)%nat; [by apply pairwise_block_closed|].
    apply Hadd; apply IH; [by apply Forall_take|by apply Forall_drop].
Qed.

Lemma pairwise_sum_closed (a : list T) : Forall P a → P (pairwise_sum add zero a).
Proof. apply pairwise_rec_closed. Qed.

End PairwiseClosed.

(** ** A zero weight vector: NaN, no exception *)

Lemma float_mul_nan_l (y : float) : PrimFloat.mul nan y = nan.
Proof.
  apply Prim2SF_inj. rewrite FloatAxioms.mul_spec.
  change (Prim2SF nan) with S754_nan. unfold SF64mul, SFmul. by destruct (Prim2SF y).
Qed.

Lemma float_mul_nan_r (x : float) : PrimFloat.mul x nan = nan.
Proof.
  apply Prim2SF_inj. rewrite FloatAxioms.mul_spec.
  change (Prim2SF nan) with S754_nan. unfold SF64mul, SFmul. by destruct (Prim2SF x).
Qed.

Lemma float_add_nan_l (y : float) : PrimFloat.add nan y = nan.
Proof.
  apply Prim2SF_inj. rewrite FloatAxioms.add_spec.
  change (Prim2SF nan) with S754_nan. unfold SF64add, SFadd. by destruct (Prim2SF y).
Qed.

Lemma float_add_nan_r (x : float) : PrimFloat.add x nan = nan.
Proof.
  apply Prim2SF_inj. rewrite FloatAxioms.add_spec.
  change (Prim2SF nan) with S754_nan. unfold SF64add, SFadd.
  by destruct (Prim2SF x) as [| [|] | |].
Qed.

Lemma float_sum_nan (l : list float) : foldl PrimFloat.add nan l = nan.
Proof. induction l as [|x l IH]; simpl; [done|]. by rewrite float_add_nan_l. Qed.

Lemma float_sum_zeros (n : nat) :
  foldl PrimFloat.add 0%float (replicate n 0%float) = 0%float.
Proof. induction n as [|n IH]; simpl; [done|]. exact IH. Qed.

Section ZeroWeights.
Context {State : Type}.
Implicit Types h : @Hyp binary64 State.

Lemma dot_nan (n : nat) (l : list float) :
  length l = S n → dot_product (H := binary64) (replicate (S n) nan) l = nan.
Proof.
  intros Hl. destruct l as [|x l]; [done|].
  unfold dot_product. simpl. rewrite float_mul_nan_l.
  change (PrimFloat.add (float_of_Z 0) nan) with nan. apply float_sum_nan.
Qed.

(** The sum of zeros in single precision is zero, in numpy's order too. *)
Lemma single_sum_zeros (n : nat) :
  add_reduce32 (PyNum := binary64) (replicate n 0%float) = 0%float.
Proof.
  simpl. unfold np_add_reduce.
  rewrite (pairwise_sum_closed single_add 0%float (λ x, x = 0%float)); [done..| |].
  - by intros x y -> ->.
  - by apply Forall_replicate.
Qed.

Lemma normalized_zeros (n : nat) :
  normalized (H := binary64) (np_zeros n) = replicate n nan.
Proof.
  unfold normalized, np_zeros.
  change (@of_Z binary64 0) with 0%float.
  rewrite single_sum_zeros, fmap_replicate. done.
Qed.

(** C2, as the code has it.  When no position receives a weight the sum
    of the weights is zero; numpy divides by it without raising, and
    [_smart_avg_log_prob] returns NaN to its caller. *)
Theorem smart_avg_zero_weights_nan h (start_sent_ids stopword_ids pronoun_ids : gset Z) :
  length (log_probs h) = length (tokens h) →
  sentence_start_weights (H := binary64) start_sent_ids stopword_ids (tokens h)
    = np_zeros (length (tokens h)) →
  _smart_avg_log_prob h start_sent_ids stopword_ids pronoun_ids = Ok nan.
Proof.
  intros Hlen Hzero. rewrite smart_avg_log_prob_value by done. f_equal.
  unfold smart_avg. rewrite Hzero, normalized_zeros.
  set (working := working_log_probs pronoun_ids (tokens h) (log_probs h)).
  assert (length working = length (tokens h)) as Hw.
  { unfold working, working_log_probs. rewrite length_zip_with. lia. }
  destruct (length (tokens h)) as [|n] eqn:Hn.
  - destruct working; [|done]. by vm_compute.
  - rewrite dot_nan by done. rewrite float_mul_nan_r. apply float_add_nan_r.
Qed.

End ZeroWeights.

(** The hypothesis "[START] the": sentence start 2, stopword 6. *)
Lemma smart_avg_zero_weights_nan_witness :
  let h := {| tokens := [2; 6]; log_probs := [0; -1]%float : list (@num binary64);
              state := tt; attn_dists := []; p_gens := []; coverage := None |} in
  _smart_avg_log_prob h {[2; 8]} {[6]} {[9]} = Ok nan.
Proof.
  intros h. apply (smart_avg_zero_weights_nan h); [done|by vm_compute].
Defined.

(** The same hypothesis refutes the claim as stated: the weights are all
    zero, and what comes back is a value, a NaN, not an exception. *)
Lemma smart_avg_zero_sum_returns_nan :
  let h := {| tokens := [2; 6]; log_probs := [0; -1]%float : list (@num binary64);
              state := tt; attn_dists := []; p_gens := []; coverage := None |} in
  sentence_start_weights (H := binary64) {[2; 8]} {[6]} (tokens h) = [0; 0]%float
  ∧ np_sum (H := binary64) [0; 0]%float = 0%float
  ∧ (∃ v : float, _smart_avg_log_prob h {[2; 8]} {[6]} {[9]} = Ok v ∧ is_nan v = true)
  ∧ ¬ (∃ e : exn, _smart_avg_log_prob h {[2; 8]} {[6]} {[9]} = Raise e).
Proof.
  intros h. split; [by vm_compute|]. split; [by vm_compute|]. split.
  - exists nan. split; by vm_compute.
  - intros [e He]. vm_compute in He. discriminate He.
Qed.

(** ** [sort_hyps] *)

Lemma mapM_r_Ok {A B : Type} (f : A → result B) (l : list A) (ys : list B) :
  mapM_r f l = Ok ys → Forall2 (λ x y, f x = Ok y) l ys.
Proof.
  revert ys. induction l as [|x l IH]; intros ys; simpl.
  - intros [= <-]. constructor.
  - intros (y & Hy & (ys' & Hys & [= <-])%bind_Ok)%bind_Ok.
    constructor; [done|]. by apply IH.
Qed.

Section InsertionSort.
Context `{PyNum} {A : Type}.
Implicit Types (l : list (num * A)) (k : num) (S : list num).


Lemma insert_desc_Permutation kx (x : A) l : insert_desc kx x l ≡ₚ (kx, x) :: l.
Proof.
  induction l as [|[ky y] l IH]; simpl; [done|].
  destruct (flt kx ky); [|done].
  by rewrite IH, Permutation_swap.
Qed.

Lemma sort_desc_Permutation l : sort_desc l ≡ₚ l.
Proof.
  induction l as [|[kx x] l IH]; simpl; [done|].
  by rewrite insert_desc_Permutation, IH.
Qed.





End InsertionSort.

Section SortHyps.
Context `{PyNum} {A : Type} (key : A → result num).

Lemma decorated_keys (hyps : list A) (keys : list num) :
  mapM_r key hyps = Ok keys →
  (zip keys hyps).*2 = hyps
  ∧ Forall (λ a, key a.2 = Ok a.1) (zip keys hyps)
  ∧ Forall (λ a, a.1 ∈ keys) (zip keys hyps).
Proof.
  intros HF%mapM_r_Ok. pose proof (Forall2_length _ _ _ HF) as Hlen.
  split; [|split].
  - apply snd_zip. lia.
  - clear Hlen. induction HF; simpl; constructor; done.
  - apply Forall_forall. intros a Ha.
    assert (a.1 ∈ (zip keys hyps).*1) as Hfst by (by apply list_elem_of_fmap_2).
    by rewrite fst_zip in Hfst by lia.
Qed.




End SortHyps.

Section SortHypsClaim.
Context `{PyNum} {State : Type} (data : Data) (FLAGS : Flags).


End SortHypsClaim.

(** The rationals are in a strict weak order, whatever the keys. *)
Lemma rational_strict_weak_order (S : list Q) : strict_weak_order_on (H := rational) S.
Proof.
  simpl. unfold Qlt_bool. split.
  - intros a b _ _ Hab. apply negb_true_iff, not_true_iff_false in Hab.
    apply negb_false_iff, Qle_bool_iff.
    destruct (Qlt_le_dec a b) as [Hlt|Hle]; [by apply Qlt_le_weak|].
    by apply Qle_bool_iff in Hle.
  - intros a b c _ _ _ Hab Hbc.
    apply negb_false_iff, Qle_bool_iff in Hab, Hbc.
    apply negb_false_iff, Qle_bool_iff. by eapply Qle_trans.
Qed.

(** So are the floats, when none of the keys is a NaN: [<] compares the
    signs, the exponents and the mantissas in this order. *)
Ltac compare_cases :=
  repeat match goal with
  | |- context [Pos.compare_cont Eq ?a ?b] =>
    change (Pos.compare_cont Eq a b) with (Pos.compare a b)
  | |- context [(?x ?= ?y)%Z] => destruct (Z.compare_spec x y)
  | |- context [(?x ?= ?y)%positive] => destruct (Pos.compare_spec x y)
  end.

Lemma SFltb_asym (a b : spec_float) : SFltb a b = true → SFltb b a = false.
Proof.
  unfold SFltb, SFcompare.
  destruct a as [[]|[]| |[] ma ea], b as [[]|[]| |[] mb eb]; simpl; try done;
    compare_cases; simpl; try done; try lia.
Qed.

Lemma SFltb_neg_trans (a b c : spec_float) :
  b ≠ S754_nan →
  SFltb a b = false → SFltb b c = false → SFltb a c = false.
Proof.
  unfold SFltb, SFcompare.
  destruct a as [[]|[]| |[] ma ea], b as [[]|[]| |[] mb eb], c as [[]|[]| |[] mc ec];
    simpl; try done;
    compare_cases; simpl; try done; try lia.
Qed.

Lemma is_nan_false (x : float) : is_nan x = false → Prim2SF x ≠ S754_nan.
Proof.
  unfold is_nan. rewrite FloatAxioms.eqb_spec. intros Hx Hnan. rewrite Hnan in Hx. done.
Qed.

Lemma binary64_strict_weak_order (S : list float) :
  Forall (λ k, is_nan k = false) S → strict_weak_order_on (H := binary64) S.
Proof.
  intros Hall. split.
  - intros a b _ _. simpl. rewrite !FloatAxioms.ltb_spec. apply SFltb_asym.
  - intros a b c _ Hb _. simpl. rewrite !FloatAxioms.ltb_spec. apply SFltb_neg_trans.
    apply is_nan_false. by apply (proj1 (Forall_forall _ _) Hall).
Qed.



(** ** [run_beam_search] *)

Lemma py_index_elem_of {A : Type} (l : list A) (i : Z) (x : A) :
  py_index l i = Ok x → x ∈ l.
Proof.
  unfold py_index. case_bool_decide; [|done].
  destruct (l !! _) eqn:Hl; intros [=]; subst.
  by eapply list_elem_of_lookup_2.
Qed.

Lemma mapM_r_Forall {A B : Type} (f : A → result B) (P : B → Prop) (l : list A)
    (ys : list B) :
  (∀ x y, f x = Ok y → P y) → mapM_r f l = Ok ys → Forall P ys.
Proof.
  intros Hf HF%mapM_r_Ok. induction HF; constructor; eauto.
Qed.

Lemma py_sorted_reverse_Permutation `{PyNum} {A : Type} (key : A → result num)
    (l ranked : list A) :
  py_sorted_reverse key l = Ok ranked → ranked ≡ₚ l.
Proof.
  intros (keys & Hkeys & [= <-])%bind_Ok.
  destruct (decorated_keys _ _ _ Hkeys) as [Hsnd _].
  by rewrite sort_desc_Permutation, Hsnd.
Qed.

Section BeamSearch.
Context `{PyNum} {State Enc : Type} (data : Data) (FLAGS : Flags).
Context (model : @Model _ State Enc) (vocab : Vocab) (batch : Batch).
Implicit Types (h c : @Hyp _ State) (hyps results : list (@Hyp _ State)).

Lemma latest_token_last h t : latest_token h = Ok t ↔ last (tokens h) = Some t.
Proof.
  unfold latest_token. rewrite py_index_last.
  destruct (last (tokens h)); split; intros [=]; by subst.
Qed.

Lemma expand_children hyps (out : @DecodeOut _ State) (i : Z) (cs : list (@Hyp _ State)) :
  expand FLAGS hyps out i = Ok cs → Forall (child_of hyps out) cs.
Proof.
  unfold expand.
  intros (h & Hh & (ns & _ & (ad & _ & (pg & _ & (cv & _ & Hmap)%bind_Ok)%bind_Ok)%bind_Ok)
    %bind_Ok)%bind_Ok.
  eapply mapM_r_Forall; [|exact Hmap]. simpl.
  intros j c (token & Htoken & (lp & _ & [= <-])%bind_Ok)%bind_Ok.
  unfold np_index2 in Htoken. apply bind_Ok in Htoken as (row & Hrow & Htoken).
  exists h, token, row. simpl.
  repeat split; by eauto using py_index_elem_of.
Qed.

Lemma collect_no_stop (steps : Z) (n : nat) (ranked hs rs hs' rs' : list (@Hyp _ State)) :
  Forall (λ c, length (tokens c) = n
               ∧ ∀ t, last (tokens c) = Some t → t ≠ word2id vocab (STOP_DECODING data))
    ranked →
  Forall (λ c, length (tokens c) = n) hs →
  collect data FLAGS vocab steps ranked hs rs = Ok (hs', rs') →
  rs' = rs ∧ Forall (λ c, length (tokens c) = n) hs'.
Proof.
  intros Hranked. revert hs. induction Hranked as [|c ranked [Hc Hstop] _ IH]; intros hs Hhs.
  - simpl. by intros [= <- <-].
  - simpl. intros (latest & Hlatest & Hrest)%bind_Ok.
    apply latest_token_last in Hlatest.
    rewrite (bool_decide_eq_false_2 (latest = _)) in Hrest by eauto.
    assert (Forall (λ c, length (tokens c) = n) (hs ++ [c])) as Hhs'.
    { apply Forall_app. split; [done|]. by constructor. }
    destruct (bool_decide (N_FREE_TOKENS data ≤ latest));
      destruct (_ || _); first [by simplify_eq | by (eapply IH; [|exact Hrest])].
Qed.

Lemma search_step_no_stop (enc : Enc) (stop : Z) (ss sw pr : gset Z) (steps : Z) (n : nat)
    hyps (hyps' results' : list (@Hyp _ State)) :
  never_stops data model vocab batch →
  Forall (λ c, length (tokens c) = n) hyps →
  search_step data FLAGS model vocab batch enc stop ss sw pr steps hyps [] = Ok (hyps', results') →
  results' = [] ∧ Forall (λ c, length (tokens c) = S n) hyps'.
Proof.
  intros Hnever Hhyps. unfold search_step.
  intros (lt & _ & (lt' & _ & (out & Hout & (children & Hch & (ranked & Hsort & Hcol)
    %bind_Ok)%bind_Ok)%bind_Ok)%bind_Ok)%bind_Ok.
  apply Hnever in Hout.
  assert (Forall (child_of hyps out) (concat children)) as Hall.
  { apply Forall_concat. eapply mapM_r_Forall; [|exact Hch].
    intros i cs. apply expand_children. }
  apply py_sorted_reverse_Permutation in Hsort.
  rewrite <-Hsort in Hall.
  eapply (collect_no_stop steps (S n)); [|constructor|exact Hcol].
  eapply Forall_impl; [exact Hall|].
  intros c (h & token & row & Hh & Hrow & Htoken & Hc). split.
  - rewrite Hc, length_app. simpl.
    rewrite Forall_forall in Hhyps. rewrite (Hhyps _ Hh). lia.
  - intros t. rewrite Hc, last_snoc. intros [= <-] ->.
    rewrite Forall_forall in Hout. by apply (Hout _ Hrow).
Qed.

Lemma search_loop_no_stop (enc : Enc) (stop : Z) (ss sw pr : gset Z) (remaining : nat) :
  never_stops data model vocab batch →
  ∀ (steps : Z) (n : nat) hyps (hyps' results' : list (@Hyp _ State)),
    0 < beam_size FLAGS ∨ hyps = [] →
    Forall (λ c, length (tokens c) = n) hyps →
    search_loop data FLAGS model vocab batch enc stop ss sw pr remaining steps hyps []
      = Ok (hyps', results') →
    results' = [] ∧ Forall (λ c, length (tokens c) = (n + remaining)%nat) hyps'.
Proof.
  intros Hnever. induction remaining as [|remaining IH];
    intros steps n hyps hyps' results' Hbeam Hhyps; simpl.
  - intros [= <- <-]. by rewrite Nat.add_0_r.
  - case_bool_decide as Hfull.
    + intros ([hyps1 results1] & Hstep & Hloop)%bind_Ok.
      destruct (search_step_no_stop _ _ _ _ _ _ _ _ _ _ Hnever Hhyps Hstep) as [-> Hhyps1].
      replace (n + S remaining)%nat with (S n + remaining)%nat by lia.
      eapply IH; [|exact Hhyps1|exact Hloop].
      left. unfold py_len in Hfull. simpl in Hfull. lia.
    + intros [= <- <-]. split; [done|].
      destruct Hbeam as [Hbeam| ->]; [|constructor].
      unfold py_len in Hfull. simpl in Hfull. lia.
Qed.

(** C8.  When the decoder never offers the stop token, no result has
    been collected when the loop ends, the live hypotheses are ranked in
    their place, and the hypothesis that [run_beam_search] returns has
    [max_dec_steps + 1] tokens. *)
Theorem no_stop_token_fallback (best : @Hyp _ State) :
  0 ≤ max_dec_steps FLAGS →
  never_stops data model vocab batch →
  run_beam_search data FLAGS model vocab batch = Ok best →
  ∃ hyps,
    beam_search_loop data FLAGS model vocab batch = Ok (hyps, [])
    ∧ final_results hyps [] = hyps
    ∧ best ∈ hyps
    ∧ py_len (tokens best) = max_dec_steps FLAGS + 1.
Proof.
  intros Hmax Hnever. unfold run_beam_search.
  intros ([hyps results] & Hloop & (ranked & Hsort & Hbest)%bind_Ok)%bind_Ok.
  pose proof Hloop as Hloop'. unfold beam_search_loop in Hloop'.
  apply bind_Ok in Hloop' as ([enc dec_in_state] & _ & Hloop').
  apply (search_loop_no_stop _ _ _ _ _ _ Hnever _ 1%nat) in Hloop' as [-> Hlen].
  - exists hyps. split; [done|]. split; [done|].
    apply py_index_elem_of in Hbest.
    apply py_sorted_reverse_Permutation in Hsort.
    rewrite Hsort in Hbest. unfold final_results in Hbest. simpl in Hbest.
    split; [done|].
    rewrite Forall_forall in Hlen. unfold py_len. rewrite (Hlen _ Hbest). lia.
  - destruct (decide (0 < beam_size FLAGS)) as [?|Hle]; [by left|right].
    by replace (Z.to_nat (beam_size FLAGS)) with 0%nat by lia.
  - apply Forall_replicate. done.
Qed.

End BeamSearch.

Lemma stub_never_stops (a b : Z) :
  a ≠ 3 → b ≠ 3 → never_stops stub_data (stub_model a b) stub_vocab stub_batch.
Proof.
  intros Ha Hb lt enc sts covs out [= <-]. simpl.
  apply Forall_fmap, Forall_forall. intros t _. simpl.
  change (word2id stub_vocab (STOP_DECODING stub_data)) with 3.
  intros [?|[?|[]%elem_of_nil]%elem_of_cons]%elem_of_cons; congruence.
Qed.

(** Beam size 1, two steps, smart scoring, a decoder that offers the
    tokens 12 and 13 for ever. *)
Lemma no_stop_token_fallback_witness :
  let flags := {| beam_size := 1; max_dec_steps := 2; min_dec_steps := 0;
                  smart_decode := true |} in
  let best := {| tokens := [2; 12; 12]; log_probs := [0; -1; -1]%float : list (@num binary64);
                 state := tt; attn_dists := [[0.5; 0.5]; [0.5; 0.5]]%float;
                 p_gens := [None; None]; coverage := None |} in
  run_beam_search stub_data flags (stub_model 12 13) stub_vocab stub_batch = Ok best
  ∧ ∃ hyps,
      beam_search_loop stub_data flags (stub_model 12 13) stub_vocab stub_batch = Ok (hyps, [])
      ∧ final_results hyps [] = hyps
      ∧ best ∈ hyps
      ∧ py_len (tokens best) = max_dec_steps flags + 1.
Proof.
  intros flags best.
  assert (run_beam_search stub_data flags (stub_model 12 13) stub_vocab stub_batch = Ok best)
    as Hrun by reflexivity.
  split; [done|].
  apply (no_stop_token_fallback stub_data flags (stub_model 12 13) stub_vocab stub_batch best).
  - simpl. lia.
  - by apply stub_never_stops.
  - exact Hrun.
Defined.

(** The same decoder offering only ids below [N_FREE_TOKENS]: every child
    is dropped, nothing is left to rank, and [hyps_sorted[0]] raises. *)
Lemma no_stop_token_and_no_survivor :
  let flags := {| beam_size := 1; max_dec_steps := 3; min_dec_steps := 0;
                  smart_decode := false |} in
  never_stops stub_data (stub_model 1 1) stub_vocab stub_batch
  ∧ run_beam_search stub_data flags (stub_model 1 1) stub_vocab stub_batch = Raise IndexError.
Proof.
  intros flags. split; [by apply stub_never_stops|reflexivity].
Qed.

Section ReturnValue.
Context `{PyNum} {State Enc : Type} (data : Data) (FLAGS : Flags).
Context (model : @Model _ State Enc) (vocab : Vocab) (batch : Batch).

(** What [run_beam_search] hands to its caller is the first of the ranked
    results, an instance of [Hypothesis] and nothing else. *)
Lemma run_beam_search_top_ranked (best : @Hyp _ State) :
  run_beam_search data FLAGS model vocab batch = Ok best →
  ∃ hyps results ranked,
    beam_search_loop data FLAGS model vocab batch = Ok (hyps, results)
    ∧ sort_hyps data FLAGS (final_results hyps results) (stop_id data vocab)
        (start_sent_id_set data vocab) (stopword_id_set vocab) (pronoun_id_set vocab)
      = Ok ranked
    ∧ ranked !! 0%nat = Some best
    ∧ unpack_pair (ObjHypothesis best) = Raise TypeError.
Proof.
  unfold run_beam_search.
  intros ([hyps results] & Hloop & (ranked & Hsort & Hbest)%bind_Ok)%bind_Ok.
  exists hyps, results, ranked. repeat split; try done.
  by apply (py_index_inv _ 0) in Hbest.
Qed.

End ReturnValue.

(** C1, at a search that ends with a finished hypothesis (beam size 1, one
    step, the decoder offering the stop token 3 first).  The call returns
    the top-ranked hypothesis by itself, without its score, and the
    caller's [best_hyp, best_score = ...] cannot take it apart. *)
Theorem run_beam_search_returns_no_score :
  let flags := {| beam_size := 1; max_dec_steps := 1; min_dec_steps := 0;
                  smart_decode := false |} in
  let best := {| tokens := [2; 3]; log_probs := [0; -1]%float : list (@num binary64);
                 state := tt; attn_dists := [[0.5; 0.5]]%float;
                 p_gens := [None]; coverage := None |} in
  run_beam_search stub_data flags (stub_model 3 12) stub_vocab stub_batch = Ok best
  ∧ avg_log_prob stub_data best 3 = Ok (-0.5)%float
  ∧ unpack_pair (ObjHypothesis best) = Raise TypeError.
Proof. intros flags best. repeat split; reflexivity. Qed.

(** ** [extend] on the heap *)

Section HeapExtend.
Context `{PyNum} {State : Type}.
Implicit Types (σ : gmap positive (@Store.object _ State)) (v : @Store.value _ State).

Lemma alloc_spec σ (o : @Store.object _ State) :
  ∃ l, Store.alloc σ o = (<[l := o]> σ, Store.VRef l) ∧ σ !! l = None.
Proof.
  exists (fresh (dom σ)). split; [done|]. apply not_elem_of_dom, is_fresh.
Qed.

Lemma array_at_weaken σ σ' v (a : list num) :
  σ ⊆ σ' → Store.array_at σ v = Some a → Store.array_at σ' v = Some a.
Proof.
  intros Hsub. destruct v as [| | | |l]; try done. simpl.
  destruct (σ !! l) as [o|] eqn:Hl; [|done].
  by rewrite (lookup_weaken _ _ _ _ Hl Hsub).
Qed.

Lemma opt_array_at_weaken σ σ' v (a : option (list num)) :
  σ ⊆ σ' → Store.opt_array_at σ v = Some a → Store.opt_array_at σ' v = Some a.
Proof.
  intros Hsub. destruct v as [| | | |l]; try done. simpl.
  destruct (σ !! l) as [o|] eqn:Hl; [|done].
  by rewrite (lookup_weaken _ _ _ _ Hl Hsub).
Qed.

Lemma list_at_Some {A : Type} σ (item : @Store.value _ State → option A) v (ys : list A) :
  Store.list_at σ item v = Some ys
  ↔ ∃ l xs, v = Store.VRef l ∧ σ !! l = Some (Store.OList xs) ∧ mapM item xs = Some ys.
Proof.
  split.
  - destruct v as [| | | |l]; try done. simpl.
    destruct (σ !! l) as [[xs| |]|] eqn:Hl; try done. by exists l, xs.
  - intros (l & xs & -> & Hl & Hxs). simpl. by rewrite Hl.
Qed.

Lemma list_at_weaken {A : Type} σ σ' (item item' : @Store.value _ State → option A) v
    (ys : list A) :
  σ ⊆ σ' → (∀ x y, item x = Some y → item' x = Some y) →
  Store.list_at σ item v = Some ys → Store.list_at σ' item' v = Some ys.
Proof.
  intros Hsub Hitem (l & xs & -> & Hl & Hxs)%list_at_Some.
  apply list_at_Some. exists l, xs. split; [done|]. split.
  - by eapply lookup_weaken.
  - apply mapM_Some. apply mapM_Some in Hxs. eapply Forall2_impl; eauto.
Qed.

Lemma list_at_snoc {A : Type} σ (item : @Store.value _ State → option A) (l : positive)
    (xs : list (@Store.value _ State)) (ys : list A) x (y : A) :
  σ !! l = Some (Store.OList (xs ++ [x])) → mapM item xs = Some ys → item x = Some y →
  Store.list_at σ item (Store.VRef l) = Some (ys ++ [y]).
Proof.
  intros Hl Hxs Hx. apply list_at_Some. exists l, (xs ++ [x]).
  split; [done|]. split; [done|].
  apply mapM_Some, Forall2_app; [by apply mapM_Some|]. by repeat constructor.
Qed.

Lemma hyp_at_Some σ v (h : @Hyp _ State) :
  Store.hyp_at σ v = Some h
  ↔ ∃ p tk lp st ad pg cv,
      v = Store.VRef p
      ∧ σ !! p = Some (Store.OHypothesis tk lp st ad pg cv)
      ∧ Store.list_at σ Store.as_int tk = Some (tokens h)
      ∧ Store.list_at σ Store.as_num lp = Some (log_probs h)
      ∧ Store.as_state st = Some (state h)
      ∧ Store.list_at σ (Store.array_at σ) ad = Some (attn_dists h)
      ∧ Store.list_at σ Store.as_opt_num pg = Some (p_gens h)
      ∧ Store.opt_array_at σ cv = Some (coverage h).
Proof.
  split.
  - destruct v as [| | | |p]; try done. simpl.
    destruct (σ !! p) as [[| |tk lp st ad pg cv]|] eqn:Hp; try done.
    intros Hh. exists p, tk, lp, st, ad, pg, cv.
    destruct (Store.list_at σ Store.as_int tk); [|done].
    destruct (Store.list_at σ Store.as_num lp); [|done].
    destruct (Store.as_state st); [|done].
    destruct (Store.list_at σ (Store.array_at σ) ad); [|done].
    destruct (Store.list_at σ Store.as_opt_num pg); [|done].
    destruct (Store.opt_array_at σ cv); [|done].
    simpl in Hh. by simplify_eq.
  - intros (p & tk & lp & st & ad & pg & cv & -> & Hp & Htk & Hlp & Hst & Had & Hpg & Hcv).
    simpl. rewrite Hp, Htk, Hlp, Hst, Had, Hpg, Hcv. simpl. by destruct h.
Qed.

Lemma hyp_at_weaken σ σ' v (h : @Hyp _ State) :
  σ ⊆ σ' → Store.hyp_at σ v = Some h → Store.hyp_at σ' v = Some h.
Proof.
  intros Hsub (p & tk & lp & st & ad & pg & cv & -> & Hp & Htk & Hlp & Hst & Had & Hpg & Hcv)
    %hyp_at_Some.
  apply hyp_at_Some. exists p, tk, lp, st, ad, pg, cv.
  repeat split; eauto using lookup_weaken, list_at_weaken, array_at_weaken,
    opt_array_at_weaken.
Qed.

(** [self.xs + [x]] allocates and leaves every object where it was. *)
Lemma appended_spec σ (p l : positive) tk lp st ad pg cv attribute
    (xs : list (@Store.value _ State)) x :
  σ !! p = Some (Store.OHypothesis tk lp st ad pg cv) →
  attribute (tk, lp, st, ad, pg, cv) = Store.VRef l →
  σ !! l = Some (Store.OList xs) →
  ∃ σ' l',
    Store.appended σ (Store.VRef p) attribute x = Ok (σ', Store.VRef l')
    ∧ σ ⊆ σ'
    ∧ σ' !! l' = Some (Store.OList (xs ++ [x])).
Proof.
  intros Hp Hattr Hl. unfold Store.appended, Store.getattr. rewrite Hp. cbn [bind].
  destruct (alloc_spec σ (Store.OList [x])) as (l1 & -> & Hl1).
  rewrite Hattr. unfold Store.list_add.
  rewrite lookup_insert_ne by congruence. rewrite Hl, lookup_insert_eq.
  destruct (alloc_spec (<[l1 := Store.OList [x]]> σ) (Store.OList (xs ++ [x])))
    as (l2 & -> & Hl2).
  exists (<[l2 := Store.OList (xs ++ [x])]> (<[l1 := Store.OList [x]]> σ)), l2.
  split; [done|]. split; [|by rewrite lookup_insert_eq].
  etrans; by apply insert_subseteq.
Qed.

(** C9.  For every hypothesis on the heap and every six values, [extend]
    returns a new instance: each of its four sequences is that of the
    parent with the one new value at the end, its state and coverage are
    the values supplied, and it reads as [extend] on values when the
    arguments read as tokens, numbers and arrays.  No object that was on
    the heap before the call is changed by it, so the parent reads the
    same afterwards. *)
Theorem extend_appends_and_preserves σ (self : @Store.value _ State) (h : @Hyp _ State)
    (token log_prob state attn_dist p_gen coverage : @Store.value _ State) :
  Store.hyp_at σ self = Some h →
  ∃ σ' child ts ls ads pgs,
    Store.extend σ self token log_prob state attn_dist p_gen coverage = Ok (σ', child)
    ∧ σ ⊆ σ'
    ∧ Store.hyp_at σ' self = Some h
    ∧ Store.items_at σ self Store.tokens_of = Some ts
    ∧ Store.items_at σ' child Store.tokens_of = Some (ts ++ [token])
    ∧ Store.items_at σ self Store.log_probs_of = Some ls
    ∧ Store.items_at σ' child Store.log_probs_of = Some (ls ++ [log_prob])
    ∧ Store.items_at σ self Store.attn_dists_of = Some ads
    ∧ Store.items_at σ' child Store.attn_dists_of = Some (ads ++ [attn_dist])
    ∧ Store.items_at σ self Store.p_gens_of = Some pgs
    ∧ Store.items_at σ' child Store.p_gens_of = Some (pgs ++ [p_gen])
    ∧ Store.getattr σ' child Store.state_of = Ok state
    ∧ Store.getattr σ' child Store.coverage_of = Ok coverage
    ∧ ∀ tk lp st a pg cov,
        token = Store.VInt tk → log_prob = Store.VNum lp → state = Store.VState st →
        Store.array_at σ attn_dist = Some a → Store.as_opt_num p_gen = Some pg →
        Store.opt_array_at σ coverage = Some cov →
        Store.hyp_at σ' child = Some (extend h tk lp st a pg cov).
Proof.
  intros Hh. pose proof Hh as Hh0.
  apply hyp_at_Some in Hh
    as (p & tk & lp & st0 & ad & pg0 & cv & -> & Hp & Htk & Hlp & Hst & Had & Hpgs & Hcv).
  apply list_at_Some in Htk as (l1 & xs1 & -> & Hl1 & Hxs1).
  apply list_at_Some in Hlp as (l2 & xs2 & -> & Hl2 & Hxs2).
  apply list_at_Some in Had as (l3 & xs3 & -> & Hl3 & Hxs3).
  apply list_at_Some in Hpgs as (l4 & xs4 & -> & Hl4 & Hxs4).
  unfold Store.extend.
  destruct (appended_spec σ p l1 _ _ _ _ _ _ Store.tokens_of xs1
              token Hp eq_refl Hl1) as (σ1 & l1' & -> & Hsub1 & Hl1').
  simpl bind.
  destruct (appended_spec σ1 p l2 _ _ _ _ _ _ Store.log_probs_of xs2
              log_prob (lookup_weaken _ _ _ _ Hp Hsub1) eq_refl
              (lookup_weaken _ _ _ _ Hl2 Hsub1)) as (σ2 & l2' & -> & Hsub2 & Hl2').
  simpl bind.
  assert (σ ⊆ σ2) as Hs2 by (by etrans).
  destruct (appended_spec σ2 p l3 _ _ _ _ _ _ Store.attn_dists_of xs3
              attn_dist (lookup_weaken _ _ _ _ Hp Hs2) eq_refl
              (lookup_weaken _ _ _ _ Hl3 Hs2)) as (σ3 & l3' & -> & Hsub3 & Hl3').
  simpl bind.
  assert (σ ⊆ σ3) as Hs3 by (by etrans).
  destruct (appended_spec σ3 p l4 _ _ _ _ _ _ Store.p_gens_of xs4
              p_gen (lookup_weaken _ _ _ _ Hp Hs3) eq_refl
              (lookup_weaken _ _ _ _ Hl4 Hs3)) as (σ4 & l4' & -> & Hsub4 & Hl4').
  simpl bind.
  assert (σ ⊆ σ4) as Hs4 by (by etrans).
  destruct (alloc_spec σ4 (Store.OHypothesis (Store.VRef l1') (Store.VRef l2')
              state (Store.VRef l3') (Store.VRef l4') coverage))
    as (c & -> & Hc).
  set (σ5 := <[c := _]> σ4).
  assert (σ4 ⊆ σ5) as Hsub5 by (by apply insert_subseteq).
  assert (σ ⊆ σ5) as Hs5 by (by etrans).
  assert (σ3 ⊆ σ5) as Hs35 by (by etrans).
  assert (σ2 ⊆ σ5) as Hs25 by (by etrans).
  assert (σ1 ⊆ σ5) as Hs15 by (by etrans).
  assert (σ5 !! c = Some (Store.OHypothesis (Store.VRef l1') (Store.VRef l2')
                            state (Store.VRef l3') (Store.VRef l4') coverage)) as Hc5
    by (by apply lookup_insert_eq).
  pose proof (lookup_weaken _ _ _ _ Hl1' Hs15) as Hl15.
  pose proof (lookup_weaken _ _ _ _ Hl2' Hs25) as Hl25.
  pose proof (lookup_weaken _ _ _ _ Hl3' Hs35) as Hl35.
  pose proof (lookup_weaken _ _ _ _ Hl4' Hsub5) as Hl45.
  assert (∀ tk lp st a pg cov,
            token = Store.VInt tk → log_prob = Store.VNum lp → state = Store.VState st →
            Store.array_at σ attn_dist = Some a → Store.as_opt_num p_gen = Some pg →
            Store.opt_array_at σ coverage = Some cov →
            Store.hyp_at σ5 (Store.VRef c) = Some (extend h tk lp st a pg cov)) as Hread.
  { intros tk lp st a pg cov Etk Elp Est Ha Hpg Hcov.
    rewrite Etk in Hl15. rewrite Elp in Hl25. rewrite Est in Hc5.
    apply hyp_at_Some. do 7 eexists. split; [done|]. split; [exact Hc5|]. simpl.
    repeat split.
    - eapply list_at_snoc; [exact Hl15|exact Hxs1|done].
    - eapply list_at_snoc; [exact Hl25|exact Hxs2|done].
    - eapply list_at_snoc; [exact Hl35| |exact (array_at_weaken _ _ _ _ Hs5 Ha)].
      apply mapM_Some. apply mapM_Some in Hxs3.
      eapply Forall2_impl; [exact Hxs3|]. intros x y. by apply array_at_weaken.
    - eapply list_at_snoc; [exact Hl45|exact Hxs4|done].
    - exact (opt_array_at_weaken _ _ _ _ Hs5 Hcov). }
  exists σ5, (Store.VRef c), xs1, xs2, xs3, xs4. split; [done|]. split; [done|].
  split; [exact (hyp_at_weaken _ _ _ _ Hs5 Hh0)|].
  unfold Store.items_at, Store.getattr. rewrite Hc5, Hp. simpl.
  rewrite Hl15, Hl25, Hl35, Hl45, Hl1, Hl2, Hl3, Hl4. simpl.
  repeat (split; [done|]). exact Hread.
Qed.

End HeapExtend.

(** The first extension of the search: token 12 with log-probability -1,
    the attention distribution at 7 and no coverage. *)
Lemma extend_appends_and_preserves_witness :
  let parent := {| tokens := [2]; log_probs := [0%float] : list (@num binary64); state := tt;
                   attn_dists := []; p_gens := []; coverage := Some [0; 0]%float |} in
  let token := Store.VInt (H := binary64) (State := unit) 12 in
  let log_prob := Store.VNum (H := binary64) (State := unit) (-1)%float in
  ∃ σ' child,
    Store.extend stub_heap (Store.VRef 6) token log_prob
      (Store.VState tt) (Store.VRef 7) Store.VNone Store.VNone = Ok (σ', child)
    ∧ stub_heap ⊆ σ'
    ∧ Store.hyp_at σ' (Store.VRef 6) = Some parent
    ∧ Store.items_at σ' child Store.tokens_of = Some [Store.VInt 2; token]
    ∧ Store.items_at σ' child Store.log_probs_of
      = Some [Store.VNum (H := binary64) 0%float; log_prob]
    ∧ Store.items_at σ' child Store.attn_dists_of = Some [Store.VRef 7]
    ∧ Store.items_at σ' child Store.p_gens_of = Some [Store.VNone]
    ∧ Store.getattr σ' child Store.coverage_of = Ok Store.VNone
    ∧ Store.hyp_at σ' child
      = Some {| tokens := [2; 12]; log_probs := [0; -1]%float : list (@num binary64);
                state := tt; attn_dists := [[0.5; 0.5]%float]; p_gens := [None];
                coverage := None |}.
Proof.
  intros parent token log_prob.
  destruct (extend_appends_and_preserves (H := binary64) stub_heap (Store.VRef 6) parent
              token log_prob (Store.VState tt) (Store.VRef 7) Store.VNone Store.VNone)
    as (σ' & child & ts & ls & ads & pgs & Hext & Hsub & Hparent & Hts & Htk & Hls & Hlp
        & Hads & Had & Hpgs & Hpg & _ & Hcov & Hread);
    [reflexivity|].
  injection (Hts : Some [Store.VInt 2] = Some ts) as <-.
  injection (Hls : Some [Store.VNum (H := binary64) 0%float] = Some ls) as <-.
  injection (Hads : Some [] = Some ads) as <-.
  injection (Hpgs : Some [] = Some pgs) as <-.
  exists σ', child. repeat (split; [done|]).
  by apply (Hread 12 (-1)%float tt [0.5; 0.5]%float None None).
Defined.

(** ** A search that goes on returns a hypothesis *)

Lemma mapM_r_total {A B : Type} (f : A → result B) (Q : B → Prop) (l : list A) :
  Forall (λ x, ∃ y, f x = Ok y ∧ Q y) l →
  ∃ ys, mapM_r f l = Ok ys ∧ length ys = length l ∧ Forall Q ys.
Proof.
  induction 1 as [|x l (y & Hy & HQ) _ (ys & Hys & Hlen & HQs)]; simpl.
  - by exists [].
  - exists (y :: ys). rewrite Hy, Hys. simpl. by repeat constructor; try lia.
Qed.

Lemma length_concat_uniform {A : Type} (ls : list (list A)) (m : nat) :
  Forall (λ l, length l = m) ls → length (concat ls) = (length ls * m)%nat.
Proof.
  induction 1 as [|l ls Hl _ IH]; simpl; [done|]. rewrite length_app. lia.
Qed.

Section Returns.
Context `{PyNum} {State Enc : Type} (data : Data) (FLAGS : Flags).
Context (model : @Model _ State Enc) (vocab : Vocab) (batch : Batch).
Implicit Types (h c : @Hyp _ State) (hyps results : list (@Hyp _ State)).

Lemma avg_log_prob_total h (stop_token_id : Z) :
  tokens h ≠ [] → ∃ k, avg_log_prob data h stop_token_id = Ok k.
Proof.
  intros Hne. unfold avg_log_prob, _has_unknown_token, latest_token.
  rewrite py_index_last.
  destruct (last (tokens h)) as [t|] eqn:Hlast; [|by apply last_None in Hlast].
  assert (py_len (tokens h) ≠ 0) as Hlen.
  { unfold py_len. destruct (tokens h); [done|simpl; lia]. }
  unfold py_div.
  destruct (existsb _ _); simpl; [by eexists|].
  destruct (_ && _); simpl; [by eexists|].
  rewrite bool_decide_eq_false_2 by done. by eexists.
Qed.

Lemma sort_hyps_total hyps (stop_token_id : Z) (ss sw pr : gset Z) :
  smart_decode FLAGS = false →
  Forall (λ h, tokens h ≠ []) hyps →
  ∃ ranked, sort_hyps data FLAGS hyps stop_token_id ss sw pr = Ok ranked ∧ ranked ≡ₚ hyps.
Proof.
  intros Hplain Hall. unfold sort_hyps, py_sorted_reverse, score_func. rewrite Hplain.
  destruct (mapM_r_total (λ h, avg_log_prob data h stop_token_id) (λ _, True) hyps)
    as (keys & Hkeys & Hlen & _).
  { eapply Forall_impl; [exact Hall|]. intros h Hh.
    destruct (avg_log_prob_total h stop_token_id Hh) as [k Hk]. by exists k. }
  rewrite Hkeys. simpl. eexists. split; [done|].
  rewrite sort_desc_Permutation. by rewrite snd_zip by lia.
Qed.

Lemma continuing_alive c : continuing data vocab c → tokens c ≠ [].
Proof. intros (t & Hlast & _) Hnil. by rewrite Hnil in Hlast. Qed.

Lemma expand_total hyps (out : @DecodeOut _ State) (i : nat) :
  (i < length hyps)%nat →
  length (topk_ids out) = length hyps →
  length (topk_log_probs out) = length hyps →
  length (new_states out) = length hyps →
  length (out_attn_dists out) = length hyps →
  length (out_p_gens out) = length hyps →
  length (new_coverage out) = length hyps →
  Forall (λ row, py_len row = beam_size FLAGS * 2
                 ∧ Forall (λ t, N_FREE_TOKENS data ≤ t
                                ∧ t ≠ word2id vocab (STOP_DECODING data)) row)
    (topk_ids out) →
  Forall (λ row, py_len row = beam_size FLAGS * 2) (topk_log_probs out) →
  ∃ cs, expand FLAGS hyps out (Z.of_nat i) = Ok cs
        ∧ length cs = Z.to_nat (beam_size FLAGS * 2)
        ∧ Forall (continuing data vocab) cs.
Proof.
  intros Hi H1 H2 H3 H4 H5 H6 Hids Hlps. unfold expand.
  destruct (lookup_lt_is_Some_2 hyps i) as [h Hh]; [done|].
  destruct (lookup_lt_is_Some_2 (topk_ids out) i) as [row Hrow]; [lia|].
  destruct (lookup_lt_is_Some_2 (topk_log_probs out) i) as [lrow Hlrow]; [lia|].
  destruct (lookup_lt_is_Some_2 (new_states out) i) as [ns Hns]; [lia|].
  destruct (lookup_lt_is_Some_2 (out_attn_dists out) i) as [ad Had]; [lia|].
  destruct (lookup_lt_is_Some_2 (out_p_gens out) i) as [pg Hpg]; [lia|].
  destruct (lookup_lt_is_Some_2 (new_coverage out) i) as [cv Hcv]; [lia|].
  rewrite (py_index_Ok _ _ _ Hh), (py_index_Ok _ _ _ Hns), (py_index_Ok _ _ _ Had),
    (py_index_Ok _ _ _ Hpg), (py_index_Ok _ _ _ Hcv). simpl.
  pose proof (Forall_lookup_1 _ _ _ _ Hids Hrow) as [Hrowlen Hrowall].
  pose proof (Forall_lookup_1 _ _ _ _ Hlps Hlrow) as Hlrowlen.
  match goal with
  | |- ∃ cs, mapM_r ?f ?l = _ ∧ _ =>
    destruct (mapM_r_total f (continuing data vocab) l) as (cs & Hcs & Hlen & Hall)
  end.
  - apply Forall_forall. intros j Hj. unfold py_range in Hj.
    apply elem_of_seqZ in Hj. unfold np_index2.
    rewrite (py_index_Ok _ _ _ Hrow), (py_index_Ok _ _ _ Hlrow). simpl.
    unfold py_len in *.
    destruct (lookup_lt_is_Some_2 row (Z.to_nat j)) as [t Ht]; [lia|].
    destruct (lookup_lt_is_Some_2 lrow (Z.to_nat j)) as [lp Hlp]; [lia|].
    replace j with (Z.of_nat (Z.to_nat j)) by lia.
    rewrite (py_index_Ok _ _ _ Ht), (py_index_Ok _ _ _ Hlp). simpl.
    eexists. split; [done|]. exists t. simpl. rewrite last_snoc.
    split; [done|]. by apply (Forall_lookup_1 _ _ _ _ Hrowall Ht).
  - exists cs. split; [done|]. split; [|done].
    rewrite Hlen. unfold py_range. rewrite length_seqZ. f_equal. lia.
Qed.

Lemma collect_total (steps : Z) (ranked hs : list (@Hyp _ State)) :
  1 ≤ beam_size FLAGS →
  Forall (continuing data vocab) ranked →
  Forall (λ h, tokens h ≠ []) hs →
  (length hs < Z.to_nat (beam_size FLAGS))%nat →
  (Z.to_nat (beam_size FLAGS) ≤ length hs + length ranked)%nat →
  ∃ hs', collect data FLAGS vocab steps ranked hs [] = Ok (hs', [])
         ∧ length hs' = Z.to_nat (beam_size FLAGS)
         ∧ Forall (λ h, tokens h ≠ []) hs'.
Proof.
  intros Hbeam Hranked. revert hs.
  induction Hranked as [|c ranked Hc _ IH]; intros hs Hhs Hlt Hle; simpl in *; [lia|].
  pose proof (continuing_alive c Hc) as Halive.
  destruct Hc as (t & Hlast & Hfree & Hstop).
  rewrite (proj2 (latest_token_last c t) Hlast). simpl.
  rewrite (bool_decide_eq_false_2 (t = _)) by done.
  rewrite (bool_decide_eq_true_2 (N_FREE_TOKENS data ≤ t)) by done.
  rewrite (bool_decide_eq_false_2 (py_len [] = _)) by (unfold py_len; simpl; lia).
  rewrite orb_false_r.
  assert (Forall (λ h, tokens h ≠ []) (hs ++ [c])) as Hhs'.
  { apply Forall_app. split; [done|]. by constructor. }
  case_bool_decide as Hfull.
  - exists (hs ++ [c]). split; [done|]. split; [|done].
    unfold py_len in Hfull. lia.
  - unfold py_len in Hfull. rewrite length_app in Hfull. simpl in Hfull.
    apply IH; [done| |]; rewrite length_app; simpl; lia.
Qed.

Lemma search_step_total (enc : Enc) (ss sw pr : gset Z) (steps : Z) hyps :
  1 ≤ beam_size FLAGS →
  smart_decode FLAGS = false →
  article_id_to_word_ids batch ≠ [] →
  decodes_on data model vocab batch FLAGS →
  (1 ≤ length hyps)%nat →
  Forall (λ h, tokens h ≠ []) hyps →
  ∃ hyps',
    search_step data FLAGS model vocab batch enc (stop_id data vocab) ss sw pr steps hyps []
      = Ok (hyps', [])
    ∧ length hyps' = Z.to_nat (beam_size FLAGS)
    ∧ Forall (λ h, tokens h ≠ []) hyps'.
Proof.
  intros Hbeam Hplain Hdict Hdec Hlen Halive. unfold search_step.
  destruct (mapM_r_total latest_token (λ _, True) hyps) as (lt & -> & Hlt & _).
  { eapply Forall_impl; [exact Halive|]. intros h Hh. unfold latest_token.
    rewrite py_index_last. destruct (last (tokens h)) eqn:Hl; [by eexists|].
    by apply last_None in Hl. }
  simpl.
  match goal with
  | |- ∃ _, bind (mapM_r ?f lt) _ = _ ∧ _ =>
    destruct (mapM_r_total f (λ _, True) lt) as (lt' & -> & Hlt' & _)
  end.
  { apply Forall_true. intros t.
    destruct (article_id_to_word_ids batch) as [|d ds] eqn:Hd; [done|].
    eexists. split; [|done]. by rewrite (py_index_Ok _ 0 d). }
  simpl.
  destruct (Hdec lt' enc (state <$> hyps) (coverage <$> hyps))
    as (out & -> & H1 & H2 & H3 & H4 & H5 & H6 & Hids & Hlps).
  simpl.
  set (num_orig_hyps := if bool_decide (steps = 0) then 1 else py_len hyps).
  assert (1 ≤ num_orig_hyps ≤ py_len hyps) as Hnum.
  { unfold num_orig_hyps, py_len. case_bool_decide; lia. }
  match goal with
  | |- ∃ _, bind (mapM_r ?f ?l) _ = _ ∧ _ =>
    destruct (mapM_r_total f
                (λ cs, length cs = Z.to_nat (beam_size FLAGS * 2)
                       ∧ Forall (continuing data vocab) cs) l)
      as (children & -> & Hchlen & Hchildren)
  end.
  { apply Forall_forall. intros i Hi. unfold py_range in Hi.
    apply elem_of_seqZ in Hi. unfold py_len in Hnum.
    replace i with (Z.of_nat (Z.to_nat i)) by lia.
    destruct (expand_total hyps out (Z.to_nat i)) as (cs & Hcs & ? & ?);
      try done; try lia.
    by exists cs. }
  simpl.
  assert (Forall (continuing data vocab) (concat children)) as Hcont.
  { apply Forall_concat. eapply Forall_impl; [exact Hchildren|]. by intros cs [_ ?]. }
  assert (length (concat children)
          = (length children * Z.to_nat (beam_size FLAGS * 2))%nat) as Hclen.
  { apply length_concat_uniform. eapply Forall_impl; [exact Hchildren|]. by intros cs [? _]. }
  unfold py_range in Hchlen. rewrite length_seqZ in Hchlen.
  destruct (sort_hyps_total (concat children) (stop_id data vocab) ss sw pr Hplain)
    as (ranked & -> & Hperm).
  { eapply Forall_impl; [exact Hcont|]. apply continuing_alive. }
  simpl.
  apply collect_total; try done.
  - by rewrite Hperm.
  - simpl. lia.
  - simpl. rewrite Hperm, Hclen, Hchlen. nia.
Qed.

Lemma search_loop_total (enc : Enc) (ss sw pr : gset Z) (remaining : nat) :
  1 ≤ beam_size FLAGS →
  smart_decode FLAGS = false →
  article_id_to_word_ids batch ≠ [] →
  decodes_on data model vocab batch FLAGS →
  ∀ (steps : Z) hyps,
    (1 ≤ length hyps)%nat →
    Forall (λ h, tokens h ≠ []) hyps →
    ∃ hyps',
      search_loop data FLAGS model vocab batch enc (stop_id data vocab) ss sw pr
        remaining steps hyps [] = Ok (hyps', [])
      ∧ (1 ≤ length hyps')%nat
      ∧ Forall (λ h, tokens h ≠ []) hyps'.
Proof.
  intros Hbeam Hplain Hdict Hdec.
  induction remaining as [|remaining IH]; intros steps hyps Hlen Halive; simpl.
  - by exists hyps.
  - rewrite bool_decide_eq_true_2 by (unfold py_len; simpl; lia).
    destruct (search_step_total enc ss sw pr steps hyps) as (hyps1 & -> & Hlen1 & Halive1);
      try done.
    simpl. apply IH; [lia|done].
Qed.

(** In plain scoring, with a beam of at least one hypothesis and a decoder
    that always offers continuing tokens, [run_beam_search] returns a
    hypothesis. *)
Lemma run_beam_search_returns :
  1 ≤ beam_size FLAGS →
  smart_decode FLAGS = false →
  article_id_to_word_ids batch ≠ [] →
  (∃ enc dec_in_state, run_encoder model batch = Ok (enc, dec_in_state)) →
  decodes_on data model vocab batch FLAGS →
  ∃ best, run_beam_search data FLAGS model vocab batch = Ok best.
Proof.
  intros Hbeam Hplain Hdict (enc & st & Henc) Hdec.
  unfold run_beam_search, beam_search_loop. rewrite Henc. simpl.
  destruct (search_loop_total enc (start_sent_id_set data vocab) (stopword_id_set vocab)
              (pronoun_id_set vocab) (Z.to_nat (max_dec_steps FLAGS)) Hbeam Hplain Hdict Hdec
              0 (replicate (Z.to_nat (beam_size FLAGS)) (initial_hyp data vocab batch st)))
    as (hyps & -> & Hlen & Halive).
  { rewrite length_replicate. lia. }
  { by apply Forall_replicate. }
  simpl. unfold final_results. simpl.
  destruct (sort_hyps_total hyps (stop_id data vocab) (start_sent_id_set data vocab)
              (stopword_id_set vocab) (pronoun_id_set vocab) Hplain Halive)
    as (ranked & -> & Hperm).
  simpl.
  destruct ranked as [|best ranked].
  - apply Permutation_length in Hperm. simpl in Hperm. lia.
  - by exists best.
Qed.

End Returns.

(** * Further properties *)

(** ** The search and its hypotheses *)

Section Invariants.
Context `{PyNum} {State Enc : Type} (data : Data) (FLAGS : Flags).
Context (model : @Model _ State Enc) (vocab : Vocab) (batch : Batch).
Implicit Types (h c : @Hyp _ State) (hyps results : list (@Hyp _ State)).

Lemma extend_well_formed h token log_prob (st : State) attn_dist p_gen cov :
  well_formed data vocab h →
  well_formed data vocab (extend h token log_prob st attn_dist p_gen cov).
Proof.
  intros (Hhead & Hlp & Had & Hpg). unfold well_formed. simpl.
  rewrite !length_app. simpl. repeat split; try lia.
  destruct (tokens h); [done|]. done.
Qed.

Lemma expand_extends hyps (out : @DecodeOut _ State) (i : Z) (cs : list (@Hyp _ State)) :
  expand FLAGS hyps out i = Ok cs →
  Forall (λ c, ∃ h token log_prob st attn_dist p_gen cov,
            h ∈ hyps ∧ c = extend h token log_prob st attn_dist p_gen cov) cs.
Proof.
  unfold expand.
  intros (h & Hh & (ns & _ & (ad & _ & (pg & _ & (cv & _ & Hmap)%bind_Ok)%bind_Ok)%bind_Ok)
    %bind_Ok)%bind_Ok.
  eapply mapM_r_Forall; [|exact Hmap]. simpl.
  intros j c (token & _ & (lp & _ & [= <-])%bind_Ok)%bind_Ok.
  exists h, token, lp, ns, ad, pg, cv. split; [|done]. by eapply py_index_elem_of.
Qed.

Lemma collect_invariant (steps : Z) (ranked hs rs hs' rs' : list (@Hyp _ State)) :
  collect data FLAGS vocab steps ranked hs rs = Ok (hs', rs') →
  (∀ h, h ∈ hs' → h ∈ hs ∨ (h ∈ ranked ∧ continuing data vocab h))
  ∧ (∀ h, h ∈ rs' →
       h ∈ rs ∨ (h ∈ ranked ∧ last (tokens h) = Some (word2id vocab (STOP_DECODING data))
                 ∧ min_dec_steps FLAGS ≤ steps))
  ∧ (py_len hs < beam_size FLAGS → py_len hs' ≤ beam_size FLAGS)
  ∧ (py_len rs < 4 * beam_size FLAGS → py_len rs' ≤ 4 * beam_size FLAGS).
Proof.
  revert hs rs. induction ranked as [|c ranked IH]; intros hs rs; simpl.
  - intros [= <- <-]. repeat split; auto; lia.
  - intros (latest & Hlatest & Hrest)%bind_Ok.
    apply latest_token_last in Hlatest.
    set (next := if bool_decide (latest = word2id vocab (STOP_DECODING data))
                 then if bool_decide (min_dec_steps FLAGS ≤ steps) then (hs, rs ++ [c])
                      else (hs, rs)
                 else if bool_decide (N_FREE_TOKENS data ≤ latest) then (hs ++ [c], rs)
                      else (hs, rs)) in *.
    assert ((∀ h, h ∈ next.1 → h ∈ hs ∨ (h ∈ c :: ranked ∧ continuing data vocab h))
            ∧ (∀ h, h ∈ next.2 →
                 h ∈ rs ∨ (h ∈ c :: ranked
                           ∧ last (tokens h) = Some (word2id vocab (STOP_DECODING data))
                           ∧ min_dec_steps FLAGS ≤ steps))
            ∧ py_len next.1 ≤ py_len hs + 1 ∧ py_len next.2 ≤ py_len rs + 1) as Hnext.
    { unfold next, py_len. repeat case_bool_decide; simpl; rewrite ?length_app; simpl;
        (split; [|split; [|lia]]); intros h; rewrite ?elem_of_app, ?list_elem_of_singleton;
        try (by left).
      - intros [?| ->]; [by left|right]. subst latest. repeat split; [by left|done..].
      - intros [?| ->]; [by left|right]. split; [by left|].
        by exists latest. }
    revert Hrest. destruct next as [hs1 rs1]. simpl in Hnext.
    destruct Hnext as (Hh1 & Hr1 & Hlh & Hlr).
    destruct (_ || _) eqn:Hbreak.
    + intros [= <- <-]. repeat split; auto; try lia.
      all: apply orb_true_iff in Hbreak; unfold py_len in *; lia.
    + apply orb_false_iff in Hbreak as [Hb1 Hb2].
      apply bool_decide_eq_false in Hb1, Hb2.
      intros (Hh & Hr & Hbh & Hbr)%IH. repeat split.
      * intros h [Hin|[Hin Hc]]%Hh; [|right; split; [by right|done]].
        destruct (Hh1 _ Hin) as [?|?]; [by left|by right].
      * intros h [Hin|(Hin & Hc)]%Hr; [|right; split; [by right|done]].
        destruct (Hr1 _ Hin) as [?|?]; [by left|by right].
      * intros Hlt. apply Hbh. lia.
      * intros Hlt. apply Hbr. lia.
Qed.


Lemma search_step_invariant (enc : Enc) (stop : Z) (ss sw pr : gset Z) (n : nat)
    hyps results (hyps' results' : list (@Hyp _ State)) :
  Forall (live_after data vocab n) hyps →
  Forall (finished_by data FLAGS vocab n) results →
  py_len results < 4 * beam_size FLAGS →
  search_step data FLAGS model vocab batch enc stop ss sw pr (Z.of_nat n) hyps results
    = Ok (hyps', results') →
  Forall (live_after data vocab (S n)) hyps'
  ∧ Forall (finished_by data FLAGS vocab (S n)) results'
  ∧ py_len hyps' ≤ beam_size FLAGS
  ∧ py_len results' ≤ 4 * beam_size FLAGS.
Proof.
  intros Hhyps Hres Hroom. unfold search_step.
  intros (lt & _ & (lt' & _ & (out & _ & (children & Hch & (ranked & Hsort & Hcol)
    %bind_Ok)%bind_Ok)%bind_Ok)%bind_Ok)%bind_Ok.
  assert (Forall (λ c, well_formed data vocab c ∧ length (tokens c) = S (S n))
            (concat children)) as Hall.
  { apply Forall_concat. eapply mapM_r_Forall; [|exact Hch].
    intros i cs Hcs%expand_extends. eapply Forall_impl; [exact Hcs|]. simpl.
    intros c (h & token & lp & st & ad & pg & cv & Hh & ->).
    rewrite Forall_forall in Hhyps. destruct (Hhyps _ Hh) as (Hwf & Hlen & _).
    split; [by apply extend_well_formed|]. simpl. rewrite length_app, Hlen. simpl. lia. }
  apply py_sorted_reverse_Permutation in Hsort. rewrite <-Hsort in Hall.
  rewrite Forall_forall in Hall.
  apply collect_invariant in Hcol as (Hh & Hr & Hbh & Hbr).
  assert (0 ≤ py_len results) as Hnn by (unfold py_len; lia).
  repeat split.
  - apply Forall_forall. intros h [[]%elem_of_nil|[Hin Hc]]%Hh.
    destruct (Hall _ Hin) as [Hwf Hlen]. split; [done|]. split; [done|]. by intros _.
  - apply Forall_forall. intros h [Hin|(Hin & Hlast & Hmin)]%Hr.
    + rewrite Forall_forall in Hres. destruct (Hres _ Hin) as (Hwf & Hfin & Hlen).
      split; [done|]. split; [done|]. lia.
    + destruct (Hall _ Hin) as [Hwf Hlen]. split; [done|]. split; [|lia].
      split; [done|]. unfold py_len. lia.
  - apply Hbh. unfold py_len. simpl. lia.
  - by apply Hbr.
Qed.

Lemma search_loop_invariant (enc : Enc) (stop : Z) (ss sw pr : gset Z) (remaining : nat) :
  ∀ (n : nat) hyps results (hyps' results' : list (@Hyp _ State)),
    Forall (live_after data vocab n) hyps →
    Forall (finished_by data FLAGS vocab n) results →
    py_len hyps ≤ Z.max 0 (beam_size FLAGS) →
    py_len results ≤ Z.max 0 (4 * beam_size FLAGS) →
    search_loop data FLAGS model vocab batch enc stop ss sw pr remaining (Z.of_nat n)
      hyps results = Ok (hyps', results') →
    ∃ n' : nat,
      (n ≤ n' ≤ n + remaining)%nat
      ∧ Forall (live_after data vocab n') hyps'
      ∧ Forall (finished_by data FLAGS vocab n') results'
      ∧ py_len hyps' ≤ Z.max 0 (beam_size FLAGS)
      ∧ py_len results' ≤ Z.max 0 (4 * beam_size FLAGS).
Proof.
  induction remaining as [|remaining IH]; intros n hyps results hyps' results' Hh Hr Hbh Hbr;
    simpl.
  - intros [= <- <-]. exists n. repeat split; try done; lia.
  - case_bool_decide as Hroom.
    + intros ([hyps1 results1] & Hstep & Hloop)%bind_Ok.
      destruct (search_step_invariant _ _ _ _ _ _ _ _ _ _ Hh Hr Hroom Hstep)
        as (Hh1 & Hr1 & Hbh1 & Hbr1).
      replace (Z.of_nat n + 1) with (Z.of_nat (S n)) in Hloop by lia.
      apply IH in Hloop as (n' & Hn' & ?); try done; try lia.
      exists n'. split; [lia|done].
    + intros [= <- <-]. exists n. repeat split; try done; lia.
Qed.

(** The loop of [run_beam_search], from the hypotheses it starts with. *)
Lemma beam_search_loop_invariant hyps results :
  beam_search_loop data FLAGS model vocab batch = Ok (hyps, results) →
  ∃ n : nat,
    (n ≤ Z.to_nat (max_dec_steps FLAGS))%nat
    ∧ Forall (live_after data vocab n) hyps
    ∧ Forall (finished_by data FLAGS vocab n) results
    ∧ py_len hyps ≤ Z.max 0 (beam_size FLAGS)
    ∧ py_len results ≤ Z.max 0 (4 * beam_size FLAGS).
Proof.
  unfold beam_search_loop. intros ([enc st] & _ & Hloop)%bind_Ok.
  apply (search_loop_invariant _ _ _ _ _ _ 0%nat) in Hloop as (n & Hn & ?).
  - exists n. split; [lia|done].
  - apply Forall_replicate. by repeat split.
  - constructor.
  - unfold py_len. rewrite length_replicate. lia.
  - unfold py_len. simpl. lia.
Qed.

(** X1.  The hypothesis that [run_beam_search] returns begins with the
    start token, has one log-probability per token and one attention
    distribution and one generation probability per token after the
    first, and has at least one and at most [max(0, max_dec_steps) + 1]
    tokens. *)
Theorem run_beam_search_well_formed (best : @Hyp _ State) :
  run_beam_search data FLAGS model vocab batch = Ok best →
  head (tokens best) = Some (word2id vocab (START_DECODING data))
  ∧ length (log_probs best) = length (tokens best)
  ∧ S (length (attn_dists best)) = length (tokens best)
  ∧ S (length (p_gens best)) = length (tokens best)
  ∧ 1 ≤ py_len (tokens best) ≤ Z.max 0 (max_dec_steps FLAGS) + 1.
Proof.
  unfold run_beam_search.
  intros ([hyps results] & Hloop & (ranked & Hsort & Hbest)%bind_Ok)%bind_Ok.
  apply beam_search_loop_invariant in Hloop as (n & Hn & Hh & Hr & _).
  apply py_index_elem_of in Hbest. apply py_sorted_reverse_Permutation in Hsort.
  rewrite Hsort in Hbest. unfold final_results in Hbest.
  rewrite Forall_forall in Hh, Hr.
  assert (well_formed data vocab best ∧ (1 ≤ length (tokens best) ≤ S n)%nat) as [Hwf Hlen].
  { case_bool_decide.
    - destruct (Hh _ Hbest) as (? & ? & _). split; [done|lia].
    - destruct (Hr _ Hbest) as (Hwf & _ & ?). split; [done|].
      destruct Hwf as (_ & _ & ? & _). lia. }
  destruct Hwf as (? & ? & ? & ?). unfold py_len. repeat split; try done; lia.
Qed.

(** X2.  When some hypothesis has been collected as a result, the one
    that [run_beam_search] returns is among the results: it ends with the
    stop token and has at least [min_dec_steps + 2] tokens.  When none has
    been, it is one of the live hypotheses: its latest token is in the
    free vocabulary and is not the stop token, or no step was taken and
    it is the start token alone. *)
Theorem run_beam_search_prefers_finished (best : @Hyp _ State) :
  run_beam_search data FLAGS model vocab batch = Ok best →
  ∃ hyps results,
    beam_search_loop data FLAGS model vocab batch = Ok (hyps, results)
    ∧ ((results ≠ [] ∧ best ∈ results
        ∧ last (tokens best) = Some (word2id vocab (STOP_DECODING data))
        ∧ min_dec_steps FLAGS + 2 ≤ py_len (tokens best))
       ∨ (results = [] ∧ best ∈ hyps
          ∧ (continuing data vocab best
             ∨ tokens best = [word2id vocab (START_DECODING data)]))).
Proof.
  unfold run_beam_search.
  intros ([hyps results] & Hloop & (ranked & Hsort & Hbest)%bind_Ok)%bind_Ok.
  exists hyps, results. split; [done|].
  apply beam_search_loop_invariant in Hloop as (n & Hn & Hh & Hr & _).
  apply py_index_elem_of in Hbest. apply py_sorted_reverse_Permutation in Hsort.
  rewrite Hsort in Hbest. unfold final_results in Hbest.
  rewrite Forall_forall in Hh, Hr.
  case_bool_decide as Hempty.
  - right. assert (results = []) as ->.
    { unfold py_len in Hempty. destruct results; [done|simpl in Hempty; lia]. }
    repeat split; try done.
    destruct (Hh _ Hbest) as ((Hhead & _) & Hlen & Hcont).
    destruct n as [|n]; [right|left; by apply Hcont].
    destruct (tokens best) as [|t [|? ?]]; simplify_eq/=. done.
  - left. destruct (Hr _ Hbest) as (_ & [Hlast Hmin] & _).
    repeat split; try done. by intros ->.
Qed.

(** X3.  When the loop of [run_beam_search] ends there are at most
    [beam_size] live hypotheses and at most [4 * beam_size] results, the
    live hypotheses have the same number of tokens, and every result ends
    with the stop token and has at least [min_dec_steps + 2] tokens. *)
Theorem beam_search_loop_bounds hyps results :
  beam_search_loop data FLAGS model vocab batch = Ok (hyps, results) →
  py_len hyps ≤ Z.max 0 (beam_size FLAGS)
  ∧ py_len results ≤ Z.max 0 (4 * beam_size FLAGS)
  ∧ (∀ h h', h ∈ hyps → h' ∈ hyps → length (tokens h) = length (tokens h'))
  ∧ Forall (λ h, last (tokens h) = Some (word2id vocab (STOP_DECODING data))
                 ∧ min_dec_steps FLAGS + 2 ≤ py_len (tokens h)) results.
Proof.
  intros (n & _ & Hh & Hr & ? & ?)%beam_search_loop_invariant.
  repeat split; try done.
  - rewrite Forall_forall in Hh. intros h h' (_ & -> & _)%Hh (_ & -> & _)%Hh. done.
  - eapply Forall_impl; [exact Hr|]. by intros h (_ & ? & _).
Qed.

(** X4.  With a beam size that is not positive there is no hypothesis to
    start from and the loop is not entered: once the encoder has run,
    [hyps_sorted[0]] raises [IndexError]; a failure of the encoder comes
    out as it is. *)
Theorem run_beam_search_empty_beam :
  beam_size FLAGS ≤ 0 →
  run_beam_search data FLAGS model vocab batch
  = match run_encoder model batch with
    | Ok _ => Raise IndexError
    | Raise e => Raise e
    end.
Proof.
  intros Hbeam. unfold run_beam_search, beam_search_loop.
  destruct (run_encoder model batch) as [[enc st]|e]; [|done]. simpl.
  replace (Z.to_nat (beam_size FLAGS)) with 0%nat by lia. simpl.
  assert (search_loop data FLAGS model vocab batch enc (stop_id data vocab)
            (start_sent_id_set data vocab) (stopword_id_set vocab) (pronoun_id_set vocab)
            (Z.to_nat (max_dec_steps FLAGS)) 0 [] [] = Ok ([], [])) as ->.
  { destruct (Z.to_nat (max_dec_steps FLAGS)); simpl; [done|].
    rewrite bool_decide_eq_false_2; [done|]. unfold py_len. simpl. lia. }
  done.
Qed.

(** X5.  A failure of the decoder at its first call comes out of
    [run_beam_search] as it is: nothing is caught and nothing is retried. *)
Theorem run_beam_search_decoder_failure (e : exn) (enc : Enc) (dec_in_state : State) :
  1 ≤ beam_size FLAGS →
  1 ≤ max_dec_steps FLAGS →
  article_id_to_word_ids batch ≠ [] →
  run_encoder model batch = Ok (enc, dec_in_state) →
  (∀ latest_tokens states prev_coverage,
     decode_onestep model batch latest_tokens enc states prev_coverage = Raise e) →
  run_beam_search data FLAGS model vocab batch = Raise e.
Proof.
  intros Hbeam Hmax Hdict Henc Hdec. unfold run_beam_search, beam_search_loop.
  rewrite Henc. simpl.
  destruct (Z.to_nat (max_dec_steps FLAGS)) as [|remaining] eqn:Hrem; [lia|]. simpl.
  rewrite bool_decide_eq_true_2 by (unfold py_len; simpl; lia).
  unfold search_step.
  destruct (mapM_r_total latest_token (λ _, True)
              (replicate (Z.to_nat (beam_size FLAGS)) (initial_hyp data vocab batch dec_in_state)))
    as (lt & -> & _).
  { apply Forall_replicate. by eexists. }
  simpl.
  match goal with
  | |- bind (bind (bind (mapM_r ?f lt) _) _) _ = _ =>
    destruct (mapM_r_total f (λ _, True) lt) as (lt' & -> & _)
  end.
  { apply Forall_true. intros t.
    destruct (article_id_to_word_ids batch) as [|d ds] eqn:Hd; [done|].
    eexists. split; [|done]. by rewrite (py_index_Ok _ 0 d). }
  simpl. by rewrite Hdec.
Qed.

Lemma decodes_on_never_stops :
  decodes_on data model vocab batch FLAGS → never_stops data model vocab batch.
Proof.
  intros Hdec lt enc sts covs out Hout.
  destruct (Hdec lt enc sts covs) as (out' & Hout' & _ & _ & _ & _ & _ & _ & Hids & _).
  assert (out' = out) as -> by congruence.
  eapply Forall_impl; [exact Hids|]. simpl.
  intros row [_ Hrow] Hin. rewrite Forall_forall in Hrow. by destruct (Hrow _ Hin).
Qed.

(** X6.  In plain scoring, with a beam of at least one hypothesis, a
    batch that has its dictionary of in-article ids and a decoder that
    answers every call with [2 * beam_size] continuing candidates per
    hypothesis, [run_beam_search] returns a hypothesis, and it has
    [max_dec_steps + 1] tokens. *)
Theorem run_beam_search_total :
  1 ≤ beam_size FLAGS →
  0 ≤ max_dec_steps FLAGS →
  smart_decode FLAGS = false →
  article_id_to_word_ids batch ≠ [] →
  (∃ enc dec_in_state, run_encoder model batch = Ok (enc, dec_in_state)) →
  decodes_on data model vocab batch FLAGS →
  ∃ best,
    run_beam_search data FLAGS model vocab batch = Ok best
    ∧ py_len (tokens best) = max_dec_steps FLAGS + 1.
Proof.
  intros Hbeam Hmax Hplain Hdict Henc Hdec.
  destruct (run_beam_search_returns data FLAGS model vocab batch Hbeam Hplain Hdict Henc Hdec)
    as [best Hbest].
  exists best. split; [done|].
  unfold run_beam_search in Hbest.
  apply bind_Ok in Hbest as ([hyps results] & Hloop & (ranked & Hsort & Hbest)%bind_Ok).
  unfold beam_search_loop in Hloop.
  apply bind_Ok in Hloop as ([enc dec_in_state] & _ & Hloop).
  apply (search_loop_no_stop _ _ _ _ _ _ _ _ _ _ _
           (decodes_on_never_stops Hdec) _ 1%nat) in Hloop as [-> Hlen].
  - apply py_index_elem_of in Hbest. apply py_sorted_reverse_Permutation in Hsort.
    rewrite Hsort in Hbest. unfold final_results in Hbest. simpl in Hbest.
    rewrite Forall_forall in Hlen. unfold py_len. rewrite (Hlen _ Hbest). lia.
  - left. lia.
  - by apply Forall_replicate.
Qed.

Lemma expand_extends_at hyps (out : @DecodeOut _ State) (i : Z) (cs : list (@Hyp _ State)) :
  expand FLAGS hyps out i = Ok cs →
  ∃ h, py_index hyps i = Ok h
       ∧ Forall (λ c, ∃ token log_prob st attn_dist p_gen cov,
                   c = extend h token log_prob st attn_dist p_gen cov) cs.
Proof.
  unfold expand.
  intros (h & Hh & (ns & _ & (ad & _ & (pg & _ & (cv & _ & Hmap)%bind_Ok)%bind_Ok)%bind_Ok)
    %bind_Ok)%bind_Ok.
  exists h. split; [done|].
  eapply mapM_r_Forall; [|exact Hmap]. simpl.
  intros j c (token & _ & (lp & _ & [= <-])%bind_Ok)%bind_Ok.
  by exists token, lp, ns, ad, pg, cv.
Qed.

(** X7.  At step 0 only [hyps[0]] is expanded: every hypothesis that the
    first turn of the loop keeps, live or newly finished, extends the
    first of the hypotheses it is given by one token. *)
Theorem first_step_expands_first_hypothesis (enc : Enc) (stop : Z) (ss sw pr : gset Z)
    h0 (rest results hyps' results' : list (@Hyp _ State)) :
  search_step data FLAGS model vocab batch enc stop ss sw pr 0 (h0 :: rest) results
    = Ok (hyps', results') →
  ∀ c, c ∈ hyps' ∨ (c ∈ results' ∧ c ∉ results) →
    ∃ token log_prob st attn_dist p_gen cov,
      c = extend h0 token log_prob st attn_dist p_gen cov.
Proof.
  unfold search_step.
  intros (lt & _ & (lt' & _ & (out & _ & (children & Hch & (ranked & Hsort & Hcol)
    %bind_Ok)%bind_Ok)%bind_Ok)%bind_Ok)%bind_Ok.
  rewrite bool_decide_eq_true_2 in Hch by done.
  change (py_range 0 1) with [0] in Hch. simpl in Hch.
  apply bind_Ok in Hch as (cs & Hcs & [= <-]).
  apply expand_extends_at in Hcs as (h & Hh & Hall).
  assert (h = h0) as -> by (by cbv -[float_to_single] in Hh; simplify_eq).
  simpl in Hsort. rewrite app_nil_r in Hsort.
  apply py_sorted_reverse_Permutation in Hsort. rewrite <-Hsort in Hall.
  rewrite Forall_forall in Hall.
  apply collect_invariant in Hcol as (Hh' & Hr' & _).
  intros c [Hc|[Hc Hnew]].
  - apply Hh' in Hc as [[]%elem_of_nil|[Hc _]]. by apply Hall.
  - apply Hr' in Hc as [?|[Hc _]]; [done|]. by apply Hall.
Qed.

End Invariants.

(** Beam size 1, three steps, one step at least before a stop counts, the
    decoder offering the stop token 3 first: the search returns the
    hypothesis that stopped at the second step. *)
Lemma run_beam_search_well_formed_witness :
  let flags := {| beam_size := 1; max_dec_steps := 3; min_dec_steps := 1;
                  smart_decode := false |} in
  let best := {| tokens := [2; 12; 3]; log_probs := [0; -2; -1]%float : list (@num binary64);
                 state := tt; attn_dists := [[0.5; 0.5]; [0.5; 0.5]]%float;
                 p_gens := [None; None]; coverage := None |} in
  run_beam_search stub_data flags (stub_model 3 12) stub_vocab stub_batch = Ok best
  ∧ head (tokens best) = Some (word2id stub_vocab (START_DECODING stub_data))
  ∧ length (log_probs best) = length (tokens best)
  ∧ S (length (attn_dists best)) = length (tokens best)
  ∧ S (length (p_gens best)) = length (tokens best)
  ∧ 1 ≤ py_len (tokens best) ≤ Z.max 0 (max_dec_steps flags) + 1.
Proof.
  intros flags best.
  assert (run_beam_search stub_data flags (stub_model 3 12) stub_vocab stub_batch = Ok best)
    as Hrun by reflexivity.
  split; [done|].
  exact (run_beam_search_well_formed stub_data flags (stub_model 3 12) stub_vocab stub_batch
           best Hrun).
Defined.

(** The same search: the result of the second step is returned. *)
Lemma run_beam_search_prefers_finished_witness :
  let flags := {| beam_size := 1; max_dec_steps := 3; min_dec_steps := 1;
                  smart_decode := false |} in
  let best := {| tokens := [2; 12; 3]; log_probs := [0; -2; -1]%float : list (@num binary64);
                 state := tt; attn_dists := [[0.5; 0.5]; [0.5; 0.5]]%float;
                 p_gens := [None; None]; coverage := None |} in
  run_beam_search stub_data flags (stub_model 3 12) stub_vocab stub_batch = Ok best
  ∧ ∃ hyps results,
      beam_search_loop stub_data flags (stub_model 3 12) stub_vocab stub_batch
      = Ok (hyps, results)
      ∧ ((results ≠ [] ∧ best ∈ results
          ∧ last (tokens best) = Some (word2id stub_vocab (STOP_DECODING stub_data))
          ∧ min_dec_steps flags + 2 ≤ py_len (tokens best))
         ∨ (results = [] ∧ best ∈ hyps
            ∧ (continuing stub_data stub_vocab best
               ∨ tokens best = [word2id stub_vocab (START_DECODING stub_data)]))).
Proof.
  intros flags best.
  assert (run_beam_search stub_data flags (stub_model 3 12) stub_vocab stub_batch = Ok best)
    as Hrun by reflexivity.
  split; [done|].
  exact (run_beam_search_prefers_finished stub_data flags (stub_model 3 12) stub_vocab
           stub_batch best Hrun).
Defined.

(** Beam size 1 and one step: one live hypothesis and one result. *)
Lemma beam_search_loop_bounds_witness :
  let flags := {| beam_size := 1; max_dec_steps := 1; min_dec_steps := 0;
                  smart_decode := false |} in
  let mk := λ (t : Z) (lp : float),
    {| tokens := [2; t]; log_probs := [0%float; lp] : list (@num binary64); state := tt;
       attn_dists := [[0.5; 0.5]]%float; p_gens := [None]; coverage := None |} in
  let hyps := [mk 12 (-2)%float] in
  let results := [mk 3 (-1)%float] in
  beam_search_loop stub_data flags (stub_model 3 12) stub_vocab stub_batch = Ok (hyps, results)
  ∧ py_len hyps ≤ Z.max 0 (beam_size flags)
  ∧ py_len results ≤ Z.max 0 (4 * beam_size flags)
  ∧ (∀ h h', h ∈ hyps → h' ∈ hyps → length (tokens h) = length (tokens h'))
  ∧ Forall (λ h, last (tokens h) = Some (word2id stub_vocab (STOP_DECODING stub_data))
                 ∧ min_dec_steps flags + 2 ≤ py_len (tokens h)) results.
Proof.
  intros flags mk hyps results.
  assert (beam_search_loop stub_data flags (stub_model 3 12) stub_vocab stub_batch
          = Ok (hyps, results)) as Hloop by reflexivity.
  split; [done|].
  exact (beam_search_loop_bounds stub_data flags (stub_model 3 12) stub_vocab stub_batch
           hyps results Hloop).
Defined.

(** A beam of size 0. *)
Lemma run_beam_search_empty_beam_witness :
  let flags := {| beam_size := 0; max_dec_steps := 3; min_dec_steps := 0;
                  smart_decode := false |} in
  run_beam_search stub_data flags (stub_model 12 13) stub_vocab stub_batch = Raise IndexError.
Proof.
  intros flags.
  apply (run_beam_search_empty_beam stub_data flags (stub_model 12 13) stub_vocab stub_batch).
  simpl. lia.
Defined.

(** A decoder that raises [TypeError]. *)
Lemma run_beam_search_decoder_failure_witness :
  let flags := {| beam_size := 2; max_dec_steps := 3; min_dec_steps := 0;
                  smart_decode := true |} in
  run_beam_search stub_data flags (failing_model TypeError) stub_vocab stub_batch
  = Raise TypeError.
Proof.
  intros flags.
  apply (run_beam_search_decoder_failure stub_data flags (failing_model TypeError) stub_vocab
           stub_batch TypeError tt tt); simpl; try done; lia.
Defined.

(** The test decoder goes on when both its tokens are in the free
    vocabulary and the beam has size 1. *)
Lemma stub_decodes_on (a b : Z) (flags : Flags) :
  beam_size flags = 1 → 5 ≤ a → 5 ≤ b →
  decodes_on stub_data (stub_model a b) stub_vocab stub_batch flags.
Proof.
  intros Hbeam Ha Hb lt enc sts covs. eexists. split; [done|]. simpl.
  rewrite !length_fmap. repeat split; try done.
  - apply Forall_fmap, Forall_forall. intros t _. simpl. split; [unfold py_len; simpl; lia|].
    change (word2id stub_vocab (STOP_DECODING stub_data)) with 3.
    repeat constructor; simpl; lia.
  - apply Forall_fmap, Forall_forall. intros t _. simpl. unfold py_len. simpl. lia.
Qed.

(** Two steps with the tokens 12 and 13. *)
Lemma run_beam_search_total_witness :
  let flags := {| beam_size := 1; max_dec_steps := 2; min_dec_steps := 0;
                  smart_decode := false |} in
  ∃ best,
    run_beam_search stub_data flags (stub_model 12 13) stub_vocab stub_batch = Ok best
    ∧ py_len (tokens best) = max_dec_steps flags + 1.
Proof.
  intros flags.
  apply (run_beam_search_total stub_data flags (stub_model 12 13) stub_vocab stub_batch).
  - simpl. lia.
  - simpl. lia.
  - done.
  - done.
  - by exists tt, tt.
  - apply stub_decodes_on; [done|lia|lia].
Defined.

(** Two hypotheses to start from, of which the second is not expanded. *)
Lemma first_step_expands_first_hypothesis_witness :
  let flags := {| beam_size := 1; max_dec_steps := 3; min_dec_steps := 0;
                  smart_decode := false |} in
  let h0 := {| tokens := [2]; log_probs := [0%float] : list (@num binary64); state := tt;
               attn_dists := []; p_gens := []; coverage := None |} in
  let h1 := {| tokens := [2; 9]; log_probs := [0; -3]%float : list (@num binary64); state := tt;
               attn_dists := [[1; 0]]%float; p_gens := [None]; coverage := None |} in
  let hyps' := [extend h0 12 (-2)%float tt [0.5; 0.5]%float None None] in
  let results' := [extend h0 3 (-1)%float tt [0.5; 0.5]%float None None] in
  search_step stub_data flags (stub_model 3 12) stub_vocab stub_batch tt 3 ∅ ∅ ∅ 0 [h0; h1] []
    = Ok (hyps', results')
  ∧ ∀ c, c ∈ hyps' ∨ (c ∈ results' ∧ c ∉ []) →
      ∃ token log_prob st attn_dist p_gen cov,
        c = extend h0 token log_prob st attn_dist p_gen cov.
Proof.
  intros flags h0 h1 hyps' results'.
  assert (search_step stub_data flags (stub_model 3 12) stub_vocab stub_batch tt 3 ∅ ∅ ∅ 0
            [h0; h1] [] = Ok (hyps', results')) as Hstep by reflexivity.
  split; [done|].
  exact (first_step_expands_first_hypothesis stub_data flags (stub_model 3 12) stub_vocab
           stub_batch tt 3 ∅ ∅ ∅ h0 [h1] [] hyps' results' Hstep).
Defined.

(** ** Scores *)

Section MoreScoring.
Context `{PyNum} {State : Type} (data : Data).
Implicit Types h : @Hyp _ State.

(** X8.  A hypothesis of at least two tokens that counts as having an
    unknown token still does after any [extend]: its latest token becomes
    an interior token of the child. *)
Theorem unknown_token_permanent h (stop_token_id token : Z) (log_prob : num) (st : State)
    (attn_dist : list num) (p_gen : option num) (cov : option (list num)) :
  (2 ≤ length (tokens h))%nat →
  _has_unknown_token data h stop_token_id = Ok true →
  _has_unknown_token data (extend h token log_prob st attn_dist p_gen cov) stop_token_id
  = Ok true.
Proof.
  intros Hlen Hu. apply has_unknown_token_true. simpl.
  left.
  unfold _has_unknown_token in Hu.
  destruct (existsb _ _) eqn:Hex.
  - apply interior_unknown in Hex as (i & t & Hi & Hlt & Hl & Ht).
    exists i, t. rewrite length_app. simpl. repeat split; try done; try lia.
    by apply lookup_app_l_Some.
  - apply bind_Ok in Hu as (latest & Hlatest & Hu).
    unfold latest_token in Hlatest. rewrite py_index_last in Hlatest.
    destruct (last (tokens h)) as [t|] eqn:Hlast; [|done]. simplify_eq.
    destruct (bool_decide (latest < N_FREE_TOKENS data)) eqn:Hfree; [|by destruct (negb _)].
    apply bool_decide_eq_true in Hfree.
    exists (length (tokens h) - 1)%nat, latest. rewrite length_app. simpl.
    repeat split; try done; try lia.
    apply lookup_app_l_Some. rewrite last_lookup in Hlast.
    by replace (length (tokens h) - 1)%nat with (pred (length (tokens h))) by lia.
Qed.

Lemma window_step_length (sw : gset Z) (toks : list Z) (i j : Z) (w w' : list num) :
  window_step sw toks i w j = Ok w' → length w' = length w.
Proof.
  unfold window_step. intros (tj & _ & Hw)%bind_Ok.
  case_bool_decide; [by simplify_eq|].
  apply bind_Ok in Hw as (x & _ & Hset). unfold np_setitem in Hset.
  case_bool_decide; [|done]. simplify_eq. by rewrite length_insert.
Qed.

Lemma foldM_preserves {A S : Type} (f : S → A → result S) (P : S → Prop) (l : list A) :
  (∀ s x s', P s → f s x = Ok s' → P s') →
  ∀ s s', P s → foldM f s l = Ok s' → P s'.
Proof.
  intros Hf. induction l as [|x l IH]; intros s s' Hs; simpl.
  - by intros [= <-].
  - intros (s1 & Hs1 & Hrest)%bind_Ok. eapply IH; [|exact Hrest]. by eapply Hf.
Qed.

Lemma smart_step_length (ss sw pr : gset Z) (toks : list Z) (n m : nat)
    (st st' : list num * list num) (it : Z * Z) :
  length st.1 = n ∧ length st.2 = m →
  smart_step ss sw pr toks st it = Ok st' →
  length st'.1 = n ∧ length st'.2 = m.
Proof.
  destruct st as [w lp], it as [i token]. simpl. intros [Hw Hlp].
  intros (w' & Hw' & (lp' & Hlp' & [= <-])%bind_Ok)%bind_Ok. simpl. split.
  - clear Hlp'. destruct (bool_decide (token ∈ ss)); [|by simplify_eq].
    revert Hw'. apply (foldM_preserves _ (λ w, length w = n)); [|done].
    intros s x s' Hs Hstep. apply window_step_length in Hstep. congruence.
  - clear Hw'. destruct (bool_decide (token ∈ pr)); [|by simplify_eq].
    apply bind_Ok in Hlp' as (x & _ & Hset). unfold np_setitem in Hset.
    case_bool_decide; [|done]. simplify_eq. by rewrite length_insert.
Qed.

(** X9.  [_smart_avg_log_prob] returns a value exactly when the
    hypothesis has as many log-probabilities as tokens; with any other
    number of them the call raises. *)
Theorem smart_avg_log_prob_returns_iff h (start_sent_ids stopword_ids pronoun_ids : gset Z) :
  (∃ v, _smart_avg_log_prob h start_sent_ids stopword_ids pronoun_ids = Ok v)
  ↔ length (log_probs h) = length (tokens h).
Proof.
  split; [|intros Hlen; eexists; by apply smart_avg_log_prob_value].
  intros [v Hv]. unfold _smart_avg_log_prob in Hv.
  apply bind_Ok in Hv as ([w lp] & Hloop & (d & Hdot & _)%bind_Ok).
  apply (foldM_preserves _ (λ st, length st.1 = length (tokens h)
                                  ∧ length st.2 = length (log_probs h))) in Hloop.
  - simpl in Hloop. destruct Hloop as [Hw Hlp].
    unfold np_dot in Hdot. case_bool_decide as Hlen; [|done].
    unfold np_idiv32 in Hlen. rewrite length_fmap in Hlen. congruence.
  - intros s x s'. apply smart_step_length.
  - simpl. unfold np_zeros. by rewrite length_replicate.
Qed.

(** X10.  [score] of a hypothesis with at least one token: the sentinel
    -10^6 when it has an unknown token, whatever its other sequences are;
    otherwise, when it has as many log-probabilities as tokens, the
    exception of [cov_loss] if that raises, and else the smart average
    (in the arithmetic of the program, with its weights in single
    precision) minus 10^6 for a repeated 3-gram (minus 0 without one)
    minus the coverage loss. *)
Theorem score_spec h (stop_token_id : Z) (start_sent_ids stopword_ids pronoun_ids : gset Z) :
  tokens h ≠ [] →
  (unknown_token data (tokens h) stop_token_id →
   score data h stop_token_id start_sent_ids stopword_ids pronoun_ids = Ok (of_Z (- 10 ^ 6)))
  ∧ (¬ unknown_token data (tokens h) stop_token_id →
     length (log_probs h) = length (tokens h) →
     (∀ e, cov_loss h = Raise e →
        score data h stop_token_id start_sent_ids stopword_ids pronoun_ids = Raise e)
     ∧ (∀ cov, cov_loss h = Ok cov →
          (repeated_3_gram (tokens h) →
           score data h stop_token_id start_sent_ids stopword_ids pronoun_ids
           = Ok (fsub (fsub (smart_avg start_sent_ids stopword_ids pronoun_ids
                               (tokens h) (log_probs h))
                            (of_Z (10 ^ 6)))
                      cov))
          ∧ (¬ repeated_3_gram (tokens h) →
             score data h stop_token_id start_sent_ids stopword_ids pronoun_ids
             = Ok (fsub (fsub (smart_avg start_sent_ids stopword_ids pronoun_ids
                                 (tokens h) (log_probs h))
                              (of_Z 0))
                        cov)))).
Proof.
  intros Hne. split.
  - intros Hu. unfold score. by rewrite has_unknown_token_true.
  - intros Hu Hlen. unfold score.
    rewrite has_unknown_token_false, smart_avg_log_prob_value by done. simpl.
    split.
    + by intros e ->.
    + intros cov ->. simpl.
      destruct (repeated_n_gram_loss_cases h) as [[-> ?]|[-> ?]]; by split.
Qed.

Lemma np_minimum_uniform (a b : list num) :
  length a = length b → np_minimum a b = Ok (zip_with fmin a b).
Proof. intros Hlen. unfold np_minimum. by rewrite bool_decide_eq_true_2. Qed.

Lemma np_iadd_uniform (c a : list num) :
  length a = length c → np_iadd c a = Ok (zip_with fadd c a).
Proof. intros Hlen. unfold np_iadd. by rewrite bool_decide_eq_true_2. Qed.


Lemma cov_loop_uniform (n : nat) (attn : list (list num)) :
  Forall (λ a, length a = n) attn →
  ∀ (cov : list num) (losses : list num),
    length cov = n →
    ∃ cov', foldM cov_step (cov, losses) attn = Ok (cov', losses ++ coverage_losses cov attn).
Proof.
  induction 1 as [|a attn Ha _ IH]; intros cov losses Hcov; simpl.
  - exists cov. by rewrite app_nil_r.
  - rewrite np_minimum_uniform, np_iadd_uniform by congruence. simpl.
    destruct (IH (zip_with fadd cov a) (losses ++ [np_sum (zip_with fmin a cov)]))
      as [cov' ->].
    { rewrite length_zip_with. lia. }
    exists cov'. by rewrite <-app_assoc.
Qed.

Lemma coverage_losses_length (cov : list num) (attn : list (list num)) :
  length (coverage_losses cov attn) = length attn.
Proof. revert cov. induction attn as [|a attn IH]; intros cov; simpl; [done|]. by rewrite IH. Qed.

(** The loop of [cov_loss] on attention distributions of one length. *)
Lemma cov_loss_value h (n : nat) :
  attn_dists h ≠ [] →
  Forall (λ a, length a = n) (attn_dists h) →
  cov_loss h
  = Ok (fdiv (py_sum (coverage_losses (np_zeros n) (attn_dists h)))
             (of_Z (py_len (attn_dists h)))).
Proof.
  intros Hne Hall. unfold cov_loss.
  destruct (attn_dists h) as [|a0 attn] eqn:Hattn; [done|].
  change (py_index (a0 :: attn) 0) with (Ok a0). cbn [bind].
  pose proof (Forall_inv Hall) as Ha0. simpl in Ha0. rewrite Ha0.
  destruct (cov_loop_uniform n (a0 :: attn) Hall (np_zeros n) []) as [cov' ->].
  { unfold np_zeros. by rewrite length_replicate. }
  cbn [bind]. unfold py_div, py_len.
  rewrite app_nil_l, coverage_losses_length.
  rewrite bool_decide_eq_false_2; [done|]. simpl. lia.
Qed.

(** X11.  On a hypothesis with at least one attention distribution, all of
    the same length, [cov_loss] raises nothing: it returns the sum of the
    losses of the steps divided by the number of steps, the loss of a step
    being the sum, as numpy adds it, of the elementwise minima of its
    attention and the attention summed over the steps before. *)
Theorem cov_loss_uniform h (n : nat) :
  attn_dists h ≠ [] →
  Forall (λ a, length a = n) (attn_dists h) →
  cov_loss h
  = Ok (fdiv (py_sum (coverage_losses (np_zeros n) (attn_dists h)))
             (of_Z (py_len (attn_dists h)))).
Proof. apply cov_loss_value. Qed.

End MoreScoring.

Section ExactCoverage.
Context {State : Type}.
Local Open Scope Q_scope.

Lemma rational_sum_le (l1 l2 : list Q) :
  Forall2 Qle l1 l2 → ∀ acc1 acc2, acc1 <= acc2 → foldl Qplus acc1 l1 <= foldl Qplus acc2 l2.
Proof.
  induction 1 as [|x y l1 l2 Hxy _ IH]; intros acc1 acc2 Hacc; simpl; [done|].
  apply IH. by apply Qplus_le_compat.
Qed.

Lemma rational_sum_nonneg (l : list Q) (acc : Q) :
  Forall (λ x, 0 <= x) l → 0 <= acc → 0 <= foldl Qplus acc l.
Proof.
  intros Hall. revert acc. induction Hall as [|x l Hx _ IH]; intros acc Hacc; simpl; [done|].
  apply IH. rewrite <-(Qplus_0_r 0). by apply Qplus_le_compat.
Qed.

Lemma rational_sum_at_most (l : list Q) (acc : Q) :
  Forall (λ x, x <= 1) l → foldl Qplus acc l <= acc + inject_Z (Z.of_nat (length l)).
Proof.
  intros Hall. revert acc. induction Hall as [|x l Hx _ IH]; intros acc; simpl length.
  - simpl. rewrite Qplus_0_r. apply Qle_refl.
  - simpl foldl. eapply Qle_trans; [apply IH|].
    rewrite Nat2Z.inj_succ, <-Z.add_1_r, inject_Z_plus.
    rewrite <-Qplus_assoc. apply Qplus_le_compat; [apply Qle_refl|].
    rewrite Qplus_comm. apply Qplus_le_compat; [apply Qle_refl|done].
Qed.

Lemma rational_min_spec (a b : Q) :
  @fmin rational a b <= a ∧ (0 <= a → 0 <= b → 0 <= @fmin rational a b).
Proof.
  simpl. destruct (Qle_bool a b) eqn:Hab.
  - split; [apply Qle_refl|done].
  - split; [|done].
    destruct (Qlt_le_dec b a) as [Hlt|Hle]; [by apply Qlt_le_weak|].
    apply Qle_bool_iff in Hle. congruence.
Qed.

Lemma rational_min_nonneg (a cov : list Q) :
  Forall (λ x, 0 <= x) a → Forall (λ x, 0 <= x) cov →
  Forall (λ x, 0 <= x) (zip_with (@fmin rational) a cov).
Proof.
  intros Ha. revert cov. induction Ha as [|x a Hx _ IH]; intros cov Hcov; [constructor|].
  destruct Hcov as [|c cov Hc Hcov]; simpl; constructor.
  - by apply rational_min_spec.
  - by apply IH.
Qed.

Lemma rational_min_below (a cov : list Q) :
  length cov = length a → Forall2 Qle (zip_with (@fmin rational) a cov) a.
Proof.
  revert cov. induction a as [|x a IH]; intros [|c cov] Hlen; simplify_eq/=; constructor.
  - apply rational_min_spec.
  - by apply IH.
Qed.

Lemma rational_add_nonneg (cov a : list Q) :
  Forall (λ x, 0 <= x) cov → Forall (λ x, 0 <= x) a →
  Forall (λ x, 0 <= x) (zip_with Qplus cov a).
Proof.
  intros Hcov. revert a. induction Hcov as [|c cov Hc _ IH]; intros a Ha; [constructor|].
  destruct Ha as [|x a Hx Ha]; simpl; constructor.
  - rewrite <-(Qplus_0_r 0). by apply Qplus_le_compat.
  - by apply IH.
Qed.

Lemma coverage_losses_bounds (n : nat) (attn : list (list Q)) :
  Forall (λ a, length a = n ∧ Forall (λ x, 0 <= x) a ∧ @np_sum rational a <= 1) attn →
  ∀ cov : list Q,
    length cov = n → Forall (λ x, 0 <= x) cov →
    Forall (λ x, 0 <= x ∧ x <= 1) (@coverage_losses rational cov attn).
Proof.
  induction 1 as [|a attn (Hlen & Hpos & Hsum) _ IH]; intros cov Hcov Hcpos; simpl;
    [constructor|].
  constructor.
  - split.
    + apply rational_sum_nonneg; [|done]. by apply rational_min_nonneg.
    + eapply Qle_trans; [|exact Hsum]. apply rational_sum_le; [|apply Qle_refl].
      apply rational_min_below. congruence.
  - apply IH.
    + rewrite length_zip_with. lia.
    + by apply rational_add_nonneg.
Qed.

(** X12.  In exact arithmetic, when the attention distributions have the
    same length, no negative entry and a sum of at most one each,
    [cov_loss] lies between 0 and 1. *)
Theorem cov_loss_between_0_and_1 (h : @Hyp rational State) (n : nat) :
  attn_dists h ≠ [] →
  Forall (λ a, length a = n ∧ Forall (λ x, 0 <= x) a ∧ @np_sum rational a <= 1)
    (attn_dists h) →
  ∃ c, cov_loss h = Ok c ∧ 0 <= c ∧ c <= 1.
Proof.
  intros Hne Hall. eexists. split.
  - apply (cov_loss_value h n Hne). eapply Forall_impl; [exact Hall|]. by intros a [? _].
  - pose proof (coverage_losses_bounds n (attn_dists h) Hall (@np_zeros rational n)) as Hb.
    unfold np_zeros in Hb. rewrite length_replicate in Hb. specialize (Hb eq_refl).
    assert (Forall (λ x : Q, 0 <= x) (replicate n (inject_Z 0))) as Hz.
    { apply Forall_replicate. apply Qle_refl. }
    specialize (Hb Hz).
    set (losses := @coverage_losses rational (replicate n (inject_Z 0)) (attn_dists h)) in *.
    assert (0 < inject_Z (py_len (attn_dists h))) as Hpos.
    { change 0 with (inject_Z 0). rewrite <-Zlt_Qlt. unfold py_len.
      destruct (attn_dists h); [done|simpl; lia]. }
    assert (length losses = length (attn_dists h)) as Hlen
      by apply (@coverage_losses_length rational).
    simpl. unfold np_zeros. simpl. fold losses. split.
    + apply Qle_shift_div_l; [done|]. rewrite Qmult_0_l.
      apply rational_sum_nonneg; [|apply Qle_refl].
      eapply Forall_impl; [exact Hb|]. by intros x [? _].
    + apply Qle_shift_div_r; [done|]. rewrite Qmult_1_l.
      eapply Qle_trans; [apply rational_sum_at_most|].
      * eapply Forall_impl; [exact Hb|]. by intros x [_ ?].
      * unfold py_len. change (@num rational) with Q in *.
        rewrite Hlen. change (@of_Z rational 0) with (inject_Z 0).
        rewrite Qplus_0_l. apply Qle_refl.
Qed.

End ExactCoverage.

Lemma mapM_r_first_error {A B : Type} (f : A → result B) (l1 l2 : list A) (x : A) (e : exn) :
  Forall (λ y, ∃ b, f y = Ok b) l1 → f x = Raise e → mapM_r f (l1 ++ x :: l2) = Raise e.
Proof.
  induction 1 as [|y l1 [b Hb] _ IH]; intros Hx; simpl.
  - by rewrite Hx.
  - by rewrite Hb, IH.
Qed.

Section TopAttentionErrors.
Context `{PyNum} {State : Type}.
Implicit Types h : @Hyp _ State.

Lemma py_max_elem_of (l : list num) (m : num) : py_max l = Ok m → m ∈ l.
Proof.
  destruct l as [|x l]; [done|]. simpl. intros [= <-].
  assert (∀ acc, foldl (λ m y, if flt m y then y else m) acc l ∈ acc :: l) as Hgen.
  { induction l as [|y l IH]; intros acc; simpl; [by left|].
    specialize (IH (if flt acc y then y else acc)).
    apply elem_of_cons in IH as [->|IH].
    - destruct (flt acc y); [right; by left|by left].
    - right. by right. }
  apply Hgen.
Qed.

(** X13.  [avg_top_attn] raises [ZeroDivisionError] on a hypothesis
    without attention distributions and the [ValueError] of [max] when
    one of them is empty; otherwise it returns a value, the sum of one
    entry of each distribution divided by their number. *)
Theorem avg_top_attn_cases h :
  (attn_dists h = [] → avg_top_attn h = Raise ZeroDivisionError)
  ∧ ([] ∈ attn_dists h → avg_top_attn h = Raise ValueError)
  ∧ (attn_dists h ≠ [] → [] ∉ attn_dists h →
     ∃ tops, Forall2 (λ a m, m ∈ a) (attn_dists h) tops
             ∧ avg_top_attn h = Ok (fdiv (py_sum tops) (of_Z (py_len (attn_dists h))))).
Proof.
  unfold avg_top_attn. split; [|split].
  - by intros ->.
  - intros Hin. assert (mapM_r py_max (attn_dists h) = Raise ValueError) as ->; [|done].
    induction (attn_dists h) as [|a l IH]; [by apply elem_of_nil in Hin|].
    destruct a as [|x a]; [done|]. simpl.
    apply elem_of_cons in Hin as [?|Hin]; [done|]. by rewrite IH.
  - intros Hne Hin.
    destruct (mapM_r_total py_max (λ _, True) (attn_dists h)) as (tops & Htops & Hlen & _).
    { apply Forall_forall. intros a Ha. destruct a as [|x a]; [done|]. by eexists. }
    exists tops. rewrite Htops. simpl. split.
    + apply mapM_r_Ok in Htops. eapply Forall2_impl; [exact Htops|].
      intros a m. apply py_max_elem_of.
    + unfold py_div, py_len. rewrite bool_decide_eq_false_2; [done|].
      destruct (attn_dists h); [done|simpl; lia].
Qed.

End TopAttentionErrors.

(** An unknown id at the second position, and an extension by the id 8. *)
Lemma unknown_token_permanent_witness :
  let h := {| tokens := [2; 1; 7]; log_probs := [0; -1; -1]%float : list (@num binary64);
              state := tt; attn_dists := []; p_gens := []; coverage := None |} in
  _has_unknown_token stub_data h 3 = Ok true
  ∧ _has_unknown_token stub_data (extend h 8 (-1)%float tt [] None None) 3 = Ok true.
Proof.
  intros h.
  assert (_has_unknown_token stub_data h 3 = Ok true) as Hu by (by vm_compute).
  split; [done|].
  apply (unknown_token_permanent (H := binary64) stub_data h 3 8 (-1)%float tt [] None None);
    [simpl; lia|exact Hu].
Defined.

(** A hypothesis scored with the sets that [run_beam_search] builds from
    the vocabulary: sentence starts 2 and 4, stopwords 1 and 5, pronouns 1
    and 6.  The weights are those of the window of the start token, the
    pronoun 6 costs 0.8, and the score is -2.4001141568024953. *)
Lemma score_spec_witness :
  let ss := start_sent_id_set stub_data stub_vocab in
  let sw := stopword_id_set stub_vocab in
  let pr := pronoun_id_set stub_vocab in
  let h := {| tokens := [2; 7; 6; 8];
              log_probs := [0; -1; -2; -3]%float : list (@num binary64);
              state := tt;
              attn_dists := [[0.75; 0.25]; [0.5; 0.5]; [0.25; 0.75]]%float;
              p_gens := [None; None; None]; coverage := None |} in
  ¬ unknown_token stub_data (tokens h) 3
  ∧ ¬ repeated_3_gram (tokens h)
  ∧ cov_loss h = Ok (0x1.2aaaaaaaaaaabp-1)%float
  ∧ score stub_data h 3 ss sw pr
    = Ok (fsub (fsub (smart_avg (H := binary64) ss sw pr (tokens h) (log_probs h)) (of_Z 0))
               (0x1.2aaaaaaaaaaabp-1)%float)
  ∧ smart_avg (H := binary64) ss sw pr (tokens h) (log_probs h)
    = (-0x1.d1188c4ccccccp+0)%float
  ∧ score stub_data h 3 ss sw pr = Ok (-0x1.3336f0d111111p+1)%float.
Proof.
  intros ss sw pr h.
  assert (¬ unknown_token stub_data (tokens h) 3) as Hu.
  { intros [(i & t & Hi & Hlen & Hl & Ht)|(t & Hl & Ht & Hs)]; simpl in *.
    - destruct i as [|[|[|i]]]; simpl in *; try lia; simplify_eq; lia.
    - simplify_eq; try lia. }
  assert (¬ repeated_3_gram (tokens h)) as Hrep.
  { intros (i & j & Hij & Hj & Heq). simpl in Hj.
    destruct i as [|i]; [|lia]. destruct j as [|[|j]]; [lia| |lia]. done. }
  assert (cov_loss h = Ok (0x1.2aaaaaaaaaaabp-1)%float) as Hcov by (by vm_compute).
  split; [done|]. split; [done|]. split; [done|].
  pose proof (score_spec (H := binary64) stub_data h 3 ss sw pr) as Hspec.
  destruct Hspec as [_ Hspec]; [done|].
  destruct (Hspec Hu eq_refl) as [_ Hok].
  destruct (Hok _ Hcov) as [_ Hplain].
  split; [by apply Hplain|]. split; by vm_compute.
Defined.

(** Two equal attention distributions over ten positions, 0.1 each: the
    first step loses nothing, the second the whole of its attention, which
    numpy adds up to 1, and the loss is 0.5. *)
Lemma cov_loss_uniform_witness :
  let h := {| tokens := [2; 7; 8]; log_probs := [0; -1; -2]%float : list (@num binary64);
              state := tt;
              attn_dists := [replicate 10 (1 / 10)%float; replicate 10 (1 / 10)%float];
              p_gens := [None; None]; coverage := None |} in
  cov_loss h
  = Ok (fdiv (py_sum (coverage_losses (np_zeros 10) (attn_dists h)))
             (of_Z (py_len (attn_dists h))))
  ∧ coverage_losses (H := binary64) (np_zeros 10) (attn_dists h) = [0; 1]%float
  ∧ cov_loss h = Ok 0.5%float.
Proof.
  intros h. split; [|split; by vm_compute].
  apply (cov_loss_uniform (H := binary64) h 10); [done|].
  by repeat constructor.
Defined.

(** Two attention distributions that overlap. *)
Lemma cov_loss_between_0_and_1_witness :
  let h := {| tokens := [2; 7; 8]; log_probs := [0; -1; -2]%Q : list (@num rational);
              state := tt; attn_dists := [[1 # 2; 1 # 2]; [1 # 4; 3 # 4]]%Q;
              p_gens := [None; None]; coverage := None |} in
  ∃ c, cov_loss h = Ok c ∧ (0 <= c)%Q ∧ (c <= 1)%Q.
Proof.
  intros h.
  apply (cov_loss_between_0_and_1 h 2); [done|].
  repeat constructor; by vm_compute.
Defined.

(** ** More of [sort_hyps] *)

Section SortMore.
Context `{PyNum} {State : Type} (data : Data) (FLAGS : Flags).
Implicit Types (h : @Hyp _ State) (hyps : list (@Hyp _ State)).

Lemma sort_desc_descending {A : Type} (l : list (num * A)) :
  (∀ (i : nat) a b, l !! i = Some a → l !! S i = Some b → flt a.1 b.1 = false) →
  sort_desc l = l.
Proof.
  induction l as [|[kx x] l IH]; intros Hadj; simpl; [done|].
  fold (sort_desc l). rewrite IH.
  - destruct l as [|[ky y] l]; simpl; [done|].
    pose proof (Hadj 0%nat (kx, x) (ky, y) eq_refl eq_refl) as Hlt. simpl in Hlt.
    by rewrite Hlt.
  - intros i a b Ha Hb. by apply (Hadj (S i)).
Qed.

(** X14.  When no score is below the score that follows it in the list,
    [sort_hyps] returns the list as it is. *)
Theorem sort_hyps_descending_unchanged hyps (keys : list num) (stop_token_id : Z)
    (start_sent_ids stopword_ids pronoun_ids : gset Z) :
  mapM_r (score_func data FLAGS stop_token_id start_sent_ids stopword_ids pronoun_ids) hyps
    = Ok keys →
  (∀ (i : nat) k k', keys !! i = Some k → keys !! S i = Some k' → flt k k' = false) →
  sort_hyps data FLAGS hyps stop_token_id start_sent_ids stopword_ids pronoun_ids = Ok hyps.
Proof.
  intros Hkeys Hadj. unfold sort_hyps, py_sorted_reverse. rewrite Hkeys. simpl.
  pose proof (Forall2_length _ _ _ (mapM_r_Ok _ _ _ Hkeys)) as Hlen.
  rewrite sort_desc_descending.
  - by rewrite snd_zip by lia.
  - intros i [k x] [k' x'] [Hk _]%lookup_zip_Some [Hk' _]%lookup_zip_Some. simpl in *.
    by eapply Hadj.
Qed.

(** X15.  When the score of a hypothesis raises and the scores of the
    hypotheses before it in the list do not, [sort_hyps] raises that
    exception. *)
Theorem sort_hyps_raises_first_error (hyps1 hyps2 : list (@Hyp _ State)) h (e : exn)
    (stop_token_id : Z) (start_sent_ids stopword_ids pronoun_ids : gset Z) :
  Forall (λ h', ∃ k, score_func data FLAGS stop_token_id start_sent_ids stopword_ids
                       pronoun_ids h' = Ok k) hyps1 →
  score_func data FLAGS stop_token_id start_sent_ids stopword_ids pronoun_ids h = Raise e →
  sort_hyps data FLAGS (hyps1 ++ h :: hyps2) stop_token_id start_sent_ids stopword_ids
    pronoun_ids = Raise e.
Proof.
  intros Hok He. unfold sort_hyps, py_sorted_reverse.
  by rewrite (mapM_r_first_error _ hyps1 hyps2 h e).
Qed.

(** X16.  Whatever the scores are, a list that [sort_hyps] returns is a
    rearrangement of its input; and [sort_hyps] returns a list exactly
    when the score of every hypothesis is computed without an exception. *)
Theorem sort_hyps_rearranges hyps (stop_token_id : Z)
    (start_sent_ids stopword_ids pronoun_ids : gset Z) :
  (∀ ranked,
     sort_hyps data FLAGS hyps stop_token_id start_sent_ids stopword_ids pronoun_ids = Ok ranked →
     ranked ≡ₚ hyps)
  ∧ ((∃ ranked,
        sort_hyps data FLAGS hyps stop_token_id start_sent_ids stopword_ids pronoun_ids
        = Ok ranked)
     ↔ Forall (λ h, ∃ k, score_func data FLAGS stop_token_id start_sent_ids stopword_ids
                           pronoun_ids h = Ok k) hyps).
Proof.
  split; [intros ranked; apply py_sorted_reverse_Permutation|].
  unfold sort_hyps, py_sorted_reverse. split.
  - intros [ranked (keys & Hkeys%mapM_r_Ok & _)%bind_Ok].
    induction Hkeys; constructor; eauto.
  - intros Hall.
    destruct (mapM_r_total
                (score_func data FLAGS stop_token_id start_sent_ids stopword_ids pronoun_ids)
                (λ _, True) hyps) as (keys & -> & _).
    { eapply Forall_impl; [exact Hall|]. intros h [k Hk]. by exists k. }
    by eexists.
Qed.

End SortMore.

(** Three hypotheses in descending order of their plain scores, the last
    two of which tie. *)
Lemma sort_hyps_descending_unchanged_witness :
  let flags := {| beam_size := 2; max_dec_steps := 3; min_dec_steps := 1;
                  smart_decode := false |} in
  let mk := λ (t : Z) (lp : float),
    {| tokens := [2; t]; log_probs := [0%float; lp] : list (@num binary64); state := tt;
       attn_dists := []; p_gens := []; coverage := None |} in
  let hyps := [mk 8 (-0.5)%float; mk 7 (-1)%float; mk 9 (-1)%float] in
  sort_hyps stub_data flags hyps 3 ∅ ∅ ∅ = Ok hyps.
Proof.
  intros flags mk hyps.
  apply (sort_hyps_descending_unchanged (H := binary64) stub_data flags hyps
           [-0.25; -0.5; -0.5]%float 3 ∅ ∅ ∅); [by vm_compute|].
  intros [|[|[|i]]] k k' Hk Hk'; simpl in *; simplify_eq; by vm_compute.
Defined.

(** Under the smart score, a hypothesis without attention distributions
    between two that have one. *)
Lemma sort_hyps_raises_first_error_witness :
  let flags := {| beam_size := 2; max_dec_steps := 3; min_dec_steps := 1;
                  smart_decode := true |} in
  let good := {| tokens := [2; 7]; log_probs := [0; -1]%float : list (@num binary64);
                 state := tt; attn_dists := [[0.5; 0.5]]%float; p_gens := [None];
                 coverage := None |} in
  let bare := {| tokens := [2; 7]; log_probs := [0; -1]%float : list (@num binary64);
                 state := tt; attn_dists := []; p_gens := []; coverage := None |} in
  sort_hyps stub_data flags ([good] ++ bare :: [good]) 3 ∅ ∅ ∅ = Raise IndexError.
Proof.
  intros flags good bare.
  apply (sort_hyps_raises_first_error (H := binary64) stub_data flags [good] [good] bare
           IndexError 3 ∅ ∅ ∅); [|by vm_compute].
  constructor; [|constructor]. eexists. by vm_compute.
Defined.

(** ** Sentences *)

Lemma py_slice_prefix {A : Type} (l : list A) (k : nat) :
  py_slice l 0 (Z.of_nat k) = take k l.
Proof.
  unfold py_slice, slice_bound, py_len. repeat case_bool_decide; try lia.
  replace (Z.to_nat (Z.min (Z.of_nat (length l)) 0)) with 0%nat by lia.
  rewrite drop_0.
  destruct (decide (k ≤ length l)%nat).
  - f_equal. lia.
  - rewrite !take_ge by lia. done.
Qed.

Lemma py_slice_suffix {A : Type} (l : list A) (k : nat) :
  py_slice l (Z.of_nat k) (py_len l) = drop k l.
Proof.
  unfold py_slice, slice_bound, py_len. repeat case_bool_decide; try lia.
  destruct (decide (k ≤ length l)%nat).
  - replace (Z.to_nat (Z.min (Z.of_nat (length l)) (Z.of_nat k))) with k by lia.
    apply take_ge. rewrite length_drop. lia.
  - rewrite !drop_ge by lia. by rewrite take_nil.
Qed.

Lemma list_index_Ok {A : Type} `{EqDecision A} (l : list A) (x : A) (i : Z) :
  list_index l x = Ok i ↔
  ∃ k : nat, i = Z.of_nat k ∧ l !! k = Some x ∧ ∀ j y, (j < k)%nat → l !! j = Some y → y ≠ x.
Proof.
  unfold list_index. destruct (list_find _ l) as [[k y]|] eqn:Hfind.
  - apply list_find_Some in Hfind as (Hk & -> & Hbefore). split.
    + intros [= <-]. exists k. repeat split; try done.
      intros j z Hj Hz. by eapply Hbefore.
    + intros (k' & -> & Hk' & Hbefore'). f_equal.
      destruct (Nat.lt_trichotomy k k') as [Hlt|[->|Hlt]]; [|done|].
      * by destruct (Hbefore' _ _ Hlt Hk).
      * by destruct (Hbefore _ _ Hk' Hlt).
  - split; [done|]. intros (k & _ & Hk & _).
    apply list_find_None in Hfind. rewrite Forall_forall in Hfind.
    destruct (Hfind x); [by eapply list_elem_of_lookup_2|done].
Qed.

Lemma list_index_Raise {A : Type} `{EqDecision A} (l : list A) (x : A) (e : exn) :
  list_index l x = Raise e ↔ e = ValueError ∧ x ∉ l.
Proof.
  unfold list_index. destruct (list_find _ l) as [[k y]|] eqn:Hfind.
  - apply list_find_Some in Hfind as (Hk & -> & _). split; [done|].
    intros [_ Hnot]. destruct Hnot. by eapply list_elem_of_lookup_2.
  - apply list_find_None in Hfind. rewrite Forall_forall in Hfind. split.
    + intros [= <-]. split; [done|]. intros Hin. by apply (Hfind _ Hin).
    + by intros [-> _].
Qed.

Lemma sentences_of_period (tokens : list string) (k : nat) :
  tokens !! k = Some "."%string →
  (∀ j y, (j < k)%nat → tokens !! j = Some y → y ≠ "."%string) →
  sentences_of tokens = take (S k) tokens :: sentences_of (drop (S k) tokens).
Proof.
  revert k. induction tokens as [|t tokens IH]; intros k Hk Hbefore; [done|].
  destruct k as [|k]; simpl in *.
  - simplify_eq. by rewrite bool_decide_eq_true_2, drop_0.
  - rewrite bool_decide_eq_false_2 by (by apply (Hbefore 0%nat); [lia|]).
    rewrite (IH k); [done|done|].
    intros j y Hj Hy. apply (Hbefore (S j)); [lia|done].
Qed.

Lemma sentences_of_no_period (tokens : list string) :
  tokens ≠ [] → "."%string ∉ tokens → sentences_of tokens = [tokens].
Proof.
  induction tokens as [|t tokens IH]; intros Hne Hnot; [done|]. simpl.
  apply not_elem_of_cons in Hnot as [Ht Hnot].
  rewrite bool_decide_eq_false_2 by done.
  destruct tokens as [|t' tokens]; [done|]. by rewrite IH.
Qed.

Lemma break_loop_sentences (tokens sents : list string) :
  break_loop tokens sents = sents ++ (str_join " " <$> sentences_of tokens).
Proof.
  remember (length tokens) as n eqn:Hn. revert tokens sents Hn.
  induction (lt_wf n) as [n _ IH]. intros tokens sents ->.
  destruct tokens as [|t ts]; [by rewrite break_loop_equation_1, app_nil_r|].
  rewrite break_loop_equation_2. cbv zeta.
  destruct (list_index (t :: ts) "."%string) as [i|e] eqn:Hidx.
  - apply list_index_Ok in Hidx as (k & -> & Hk & Hbefore).
    replace (Z.of_nat k + 1) with (Z.of_nat (S k)) by lia.
    rewrite py_slice_prefix, py_slice_suffix.
    rewrite (IH (length (drop (S k) (t :: ts)))); [| |done].
    + rewrite (sentences_of_period (t :: ts) k) by done.
      by rewrite <-app_assoc.
    + rewrite length_drop. simpl. lia.
  - apply list_index_Raise in Hidx as [_ Hnot].
    replace (py_len (t :: ts) + 1) with (Z.of_nat (S (length (t :: ts))))
      by (unfold py_len; lia).
    rewrite py_slice_prefix, py_slice_suffix.
    rewrite take_ge by lia. rewrite drop_ge by lia.
    rewrite break_loop_equation_1.
    by rewrite sentences_of_no_period.
Qed.

Lemma sentences_of_concat (tokens : list string) : concat (sentences_of tokens) = tokens.
Proof.
  induction tokens as [|t tokens IH]; simpl; [done|].
  case_bool_decide; simpl; [by rewrite IH|].
  destruct (sentences_of tokens) as [|s ss]; simpl in *; by rewrite <-IH.
Qed.

Lemma sentences_of_shape (tokens : list string) :
  Forall (λ s, s ≠ [] ∧ ∀ (j : nat), s !! j = Some "."%string → S j = length s)
    (sentences_of tokens).
Proof.
  induction tokens as [|t tokens IH]; simpl; [constructor|].
  case_bool_decide.
  - constructor; [|done]. split; [done|]. by intros [|[|j]].
  - destruct (sentences_of tokens) as [|s ss].
    + constructor; [|done]. split; [done|]. intros [|[|j]]; simpl; try done; congruence.
    + apply Forall_cons in IH as [[Hne Hs] Hss]. constructor; [|done].
      split; [done|]. intros [|j]; simpl; [congruence|]. intros Hj. f_equal. by apply Hs.
Qed.

Lemma sentences_of_ends (tokens : list string) (i : nat) (s : list string) :
  sentences_of tokens !! i = Some s → (S i < length (sentences_of tokens))%nat →
  last s = Some "."%string.
Proof.
  revert i s. induction tokens as [|t tokens IH]; intros i s; simpl; [done|].
  case_bool_decide.
  - destruct i as [|i]; simpl; [by intros [= <-]; subst|].
    intros Hs Hlt. apply (IH i); [done|lia].
  - destruct (sentences_of tokens) as [|s' ss] eqn:Hss.
    + destruct i; simpl; [lia|done].
    + destruct i as [|i]; simpl.
      * intros [= <-] Hlt. rewrite last_cons.
        rewrite (IH 0%nat s'); [done|done|simpl; lia].
      * intros Hs Hlt. apply (IH (S i)); [done|simpl; lia].
Qed.

(** X17.  [break_into_sentences] returns the sentences of its tokens,
    each joined by blanks: the sentences, one after the other, are the
    tokens; no sentence is empty; a ["."] token is the last token of its
    sentence; and every sentence but the last ends with one. *)
Theorem break_into_sentences_structure (tokens : list string) :
  ∃ sents : list (list string),
    break_into_sentences tokens = str_join " " <$> sents
    ∧ concat sents = tokens
    ∧ Forall (λ s, s ≠ []) sents
    ∧ (∀ s (j : nat), s ∈ sents → s !! j = Some "."%string → S j = length s)
    ∧ (∀ (i : nat) s, sents !! i = Some s → (S i < length sents)%nat → last s = Some "."%string).
Proof.
  exists (sentences_of tokens). unfold break_into_sentences.
  rewrite break_loop_sentences, app_nil_l.
  pose proof (sentences_of_shape tokens) as Hshape. rewrite Forall_forall in Hshape.
  repeat split.
  - apply sentences_of_concat.
  - apply Forall_forall. intros s Hs. by apply Hshape.
  - intros s j Hs. by apply Hshape.
  - apply sentences_of_ends.
Qed.

Lemma string_app_assoc (a b c : string) : (a +:+ b) +:+ c = a +:+ (b +:+ c).
Proof.
  induction a as [|x a IH]; [done|].
  change (String x ((a +:+ b) +:+ c) = String x (a +:+ (b +:+ c))). by rewrite IH.
Qed.

Lemma string_app_nil_r (a : string) : a +:+ EmptyString = a.
Proof.
  induction a as [|x a IH]; [done|].
  change (String x (a +:+ EmptyString) = String x a). by rewrite IH.
Qed.

Lemma str_join_cons (sep x : string) (l : list string) :
  l ≠ [] → str_join sep (x :: l) = x +:+ sep +:+ str_join sep l.
Proof. by destruct l. Qed.

Lemma str_join_app (sep : string) (l1 l2 : list string) :
  l1 ≠ [] → l2 ≠ [] →
  str_join sep (l1 ++ l2) = str_join sep l1 +:+ sep +:+ str_join sep l2.
Proof.
  intros Hl1 Hl2. induction l1 as [|x l1 IH]; [done|].
  destruct l1 as [|y l1].
  - change ([x] ++ l2) with (x :: l2). by rewrite str_join_cons.
  - rewrite <-app_comm_cons, !str_join_cons by done.
    rewrite IH by done. by rewrite !string_app_assoc.
Qed.

Lemma str_join_concat (sep : string) (sents : list (list string)) :
  Forall (λ s, s ≠ []) sents →
  str_join sep (str_join sep <$> sents) = str_join sep (concat sents).
Proof.
  induction 1 as [|s sents Hs Hall IH]; [done|].
  destruct sents as [|s' sents].
  - simpl. by rewrite app_nil_r.
  - rewrite fmap_cons, str_join_cons by done. rewrite IH.
    change (concat (s :: s' :: sents)) with (s ++ concat (s' :: sents)).
    rewrite str_join_app; [done|done|].
    apply Forall_cons in Hall as [Hs' _]. simpl. by destruct s'.
Qed.

Lemma break_into_sentences_round_trip_aux (tokens : list string) :
  str_join " " (break_into_sentences tokens) = str_join " " tokens.
Proof.
  unfold break_into_sentences. rewrite break_loop_sentences, app_nil_l.
  rewrite str_join_concat, sentences_of_concat; [done|].
  eapply Forall_impl; [apply sentences_of_shape|]. by intros s [? _].
Qed.

(** X18.  The sentences of [break_into_sentences], joined by blanks,
    are the tokens joined by blanks. *)
Theorem break_into_sentences_round_trip (tokens : list string) :
  str_join " " (break_into_sentences tokens) = str_join " " tokens.
Proof. apply break_into_sentences_round_trip_aux. Qed.

Lemma sentences_of_length (tokens : list string) :
  length (sentences_of tokens)
  = (length (filter (λ t, t = "."%string) tokens)
     + match last tokens with
       | Some t => if bool_decide (t = "."%string) then 0 else 1
       | None => 0
       end)%nat.
Proof.
  induction tokens as [|t tokens IH]; [done|].
  rewrite filter_cons, last_cons. simpl sentences_of.
  case_bool_decide as Ht.
  - rewrite decide_True by done. simpl. rewrite IH.
    destruct (last tokens); [done|]. rewrite bool_decide_eq_true_2 by done. lia.
  - rewrite decide_False by done.
    destruct (sentences_of tokens) as [|s ss] eqn:Hs; simpl in *.
    + destruct tokens as [|t' tokens]; [simpl; by rewrite bool_decide_eq_false_2|].
      simpl in Hs. by repeat case_match.
    + rewrite IH. destruct (last tokens) eqn:Hlast; [done|].
      apply last_None in Hlast. by subst.
Qed.

(** X19.  [break_into_sentences] returns one sentence for every ["."]
    token, and one more when the last token is not one. *)
Theorem break_into_sentences_count (tokens : list string) :
  length (break_into_sentences tokens)
  = (length (filter (λ t, t = "."%string) tokens)
     + match last tokens with
       | Some t => if bool_decide (t = "."%string) then 0 else 1
       | None => 0
       end)%nat.
Proof.
  unfold break_into_sentences.
  by rewrite break_loop_sentences, app_nil_l, length_fmap, sentences_of_length.
Qed.

(** X20.  The removal of [STOP] in [decode] keeps the longest prefix of
    the words without [STOP]: what it drops is nothing, or begins with
    [STOP]; no exception comes out. *)
Theorem remove_stop_longest_prefix (data : Data) (decoded_words : list string) :
  ∃ kept rest,
    remove_stop data decoded_words = Ok kept
    ∧ decoded_words = kept ++ rest
    ∧ (STOP_DECODING data ∉ kept)
    ∧ (rest = [] ∨ head rest = Some (STOP_DECODING data)).
Proof.
  unfold remove_stop.
  destruct (list_index decoded_words (STOP_DECODING data)) as [i|e] eqn:Hidx.
  - apply list_index_Ok in Hidx as (k & -> & Hk & Hbefore). simpl.
    rewrite py_slice_prefix.
    exists (take k decoded_words), (drop k decoded_words). repeat split.
    + by rewrite take_drop.
    + intros (j & Hj)%list_elem_of_lookup. apply lookup_take_Some in Hj as [Hj Hlt].
      by apply (Hbefore j _ Hlt Hj).
    + right. by rewrite head_lookup, lookup_drop, Nat.add_0_r.
  - apply list_index_Raise in Hidx as [-> Hnot]. simpl.
    exists decoded_words, []. rewrite app_nil_r. repeat split; try done. by left.
Qed.

(** ** The files for ROUGE *)

Lemma write_loop (n : Z) (sents : list string) :
  ∀ (k : nat) (f : string),
    Z.of_nat k + py_len sents = n →
    foldl (λ f '(idx, sent),
             if bool_decide (idx = n - 1) then f +:+ sent else f +:+ (sent +:+ newline))
      f (zip (seqZ (Z.of_nat k) (py_len sents)) sents)
    = f +:+ str_join newline sents.
Proof.
  unfold py_len. induction sents as [|x sents IH]; intros k f Hn.
  - simpl. by rewrite string_app_nil_r.
  - rewrite seqZ_cons by (simpl; lia). simpl zip. simpl foldl.
    replace (Z.succ (Z.of_nat k)) with (Z.of_nat (S k)) by lia.
    replace (Z.pred (Z.of_nat (S (length sents)))) with (Z.of_nat (length sents)) by lia.
    rewrite IH by (simpl in Hn; lia).
    destruct sents as [|y sents].
    + rewrite bool_decide_eq_true_2 by (simpl in Hn; lia). simpl.
      by rewrite string_app_nil_r.
    + rewrite bool_decide_eq_false_2 by (simpl in Hn; lia).
      rewrite (str_join_cons _ x) by done. by rewrite !string_app_assoc.
Qed.

Lemma write_sentences_join (sents : list string) :
  write_sentences sents = str_join newline sents.
Proof.
  unfold write_sentences, enumerate.
  exact (write_loop (py_len sents) sents 0%nat EmptyString eq_refl).
Qed.

(** X21.  The loop that writes the sentences to a file writes them
    joined by newlines, with no newline after the last. *)
Theorem write_sentences_lines (sents : list string) :
  write_sentences sents = str_join newline sents.
Proof. apply write_sentences_join. Qed.

Lemma str_split_nonempty (s : string) (sep : Ascii.ascii) : str_split s sep ≠ [].
Proof. destruct s as [|c s]; simpl; [done|]. by repeat case_match. Qed.

Lemma str_split_join (s : string) (sep : Ascii.ascii) :
  str_join (String sep EmptyString) (str_split s sep) = s.
Proof.
  induction s as [|c s IH]; [done|]. simpl str_split.
  destruct (Ascii.eqb_spec c sep) as [->|Hne].
  - rewrite str_join_cons by apply str_split_nonempty. by rewrite IH.
  - destruct (str_split s sep) as [|piece pieces] eqn:Hs.
    + by destruct (str_split_nonempty s sep).
    + destruct pieces as [|p pieces]; simpl in *; by rewrite <-IH.
Qed.

(** X22.  [write_for_rouge] writes, to each of its two files, sentences
    joined by newlines; those of the reference file, joined by blanks, are
    the abstract, and those of the decoded file are the sentences of the
    decoded words as [break_into_sentences] returns them, without any
    character replaced. *)
Theorem write_for_rouge_texts (abstract : string) (decoded_words : list string) :
  ∃ reference_sents decoded_sents,
    write_for_rouge abstract decoded_words
    = (str_join newline reference_sents, str_join newline decoded_sents)
    ∧ str_join " " reference_sents = abstract
    ∧ str_join " " decoded_sents = str_join " " decoded_words
    ∧ decoded_sents = break_into_sentences decoded_words.
Proof.
  exists (break_into_sentences (str_split abstract " "%char)),
    (break_into_sentences decoded_words).
  unfold write_for_rouge.
  assert (∀ l : list string, make_html_safe <$> l = l) as Hsafe.
  { intros l. induction l as [|x l IH]; [done|]. by rewrite fmap_cons, IH. }
  rewrite !Hsafe, !write_sentences_join. repeat split.
  - rewrite break_into_sentences_round_trip_aux. apply (str_split_join abstract " "%char).
  - apply break_into_sentences_round_trip_aux.
Qed.

(** ** [get_decode_dir_name] *)

Lemma string_app_cons (c : Ascii.ascii) (a b : string) : String c a +:+ b = String c (a +:+ b).
Proof. done. Qed.

Lemma prefix_spec (a s : string) : String.prefix a s = true ↔ ∃ post, s = a +:+ post.
Proof.
  revert s. induction a as [|c a IH]; intros s.
  - split; [|by destruct s]. intros _. by exists s.
  - destruct s as [|c' s]; simpl.
    + split; [done|]. by intros [post [=]].
    + destruct (Ascii.ascii_dec c c') as [->|Hne].
      * rewrite IH. split; intros [post Hpost]; exists post.
        -- by rewrite string_app_cons, <-Hpost.
        -- rewrite string_app_cons in Hpost. by simplify_eq.
      * split; [done|]. intros [post Hpost]. rewrite string_app_cons in Hpost.
        by simplify_eq.
Qed.

Lemma str_contains_spec (sub s : string) : str_contains sub s = true ↔ occurs_in sub s.
Proof.
  unfold occurs_in. induction s as [|c s IH]; cbn [str_contains].
  - destruct (String.prefix sub EmptyString) eqn:Hpre.
    + split; [|done]. intros _. apply prefix_spec in Hpre as [post Hpost].
      by exists EmptyString, post.
    + split; [done|]. intros (pre & post & Heq).
      destruct pre; [|done]. rewrite <-Hpre. apply prefix_spec. by exists post.
  - destruct (String.prefix sub (String c s)) eqn:Hpre.
    + split; [|done]. intros _. apply prefix_spec in Hpre as [post Hpost].
      by exists EmptyString, post.
    + rewrite IH. split.
      * intros (pre & post & ->). by exists (String c pre), post.
      * intros (pre & post & Heq). destruct pre as [|c' pre].
        -- assert (String.prefix sub (String c s) = true) as Htrue
             by (apply prefix_spec; by exists post).
           congruence.
        -- rewrite string_app_cons in Heq. simplify_eq. by exists pre, post.
Qed.

(** X23.  [get_decode_dir_name] raises [ValueError], and nothing else,
    exactly when none of "train", "val" and "test" occurs in the data
    path; otherwise the name is "decode_", the data set, "_" and the rest,
    where the data set is the first of "train", "val" and "test", in this
    order, that occurs in the data path. *)
Theorem get_decode_dir_name_dataset (FLAGS : Flags) (PFLAGS : PathFlags)
    (ckpt_name : option string) :
  (∀ e, get_decode_dir_name FLAGS PFLAGS ckpt_name = Raise e ↔
        e = ValueError
        ∧ ¬ occurs_in "train" (data_path PFLAGS)
        ∧ ¬ occurs_in "val" (data_path PFLAGS)
        ∧ ¬ occurs_in "test" (data_path PFLAGS))
  ∧ (∀ name, get_decode_dir_name FLAGS PFLAGS ckpt_name = Ok name →
       ∃ dataset rest,
         name = "decode_" +:+ dataset +:+ "_" +:+ rest
         ∧ occurs_in dataset (data_path PFLAGS)
         ∧ (dataset = "train"%string
            ∨ (dataset = "val"%string ∧ ¬ occurs_in "train" (data_path PFLAGS))
            ∨ (dataset = "test"%string ∧ ¬ occurs_in "train" (data_path PFLAGS)
               ∧ ¬ occurs_in "val" (data_path PFLAGS)))).
Proof.
  unfold get_decode_dir_name.
  destruct (str_contains "train" (data_path PFLAGS)) eqn:Htrain;
    [|destruct (str_contains "val" (data_path PFLAGS)) eqn:Hval;
      [|destruct (str_contains "test" (data_path PFLAGS)) eqn:Htest]].
  all: rewrite <-?not_true_iff_false in *; rewrite ?str_contains_spec in *; simpl.
  - split; [intros e; split; [done|by intros (_ & ? & _)]|].
    intros name [= <-]. exists "train"%string. destruct ckpt_name; eexists;
      (split; [rewrite ?string_app_assoc; reflexivity|]); (split; [done|]); by left.
  - split; [intros e; split; [done|by intros (_ & _ & ? & _)]|].
    intros name [= <-]. exists "val"%string. destruct ckpt_name; eexists;
      (split; [rewrite ?string_app_assoc; reflexivity|]); (split; [done|]); right; by left.
  - split; [intros e; split; [done|by intros (_ & _ & _ & ?)]|].
    intros name [= <-]. exists "test"%string. destruct ckpt_name; eexists;
      (split; [rewrite ?string_app_assoc; reflexivity|]); (split; [done|]); right; by right.
  - split; [|done]. intros e. split; [by intros [= <-]|by intros [-> _]].
Qed.

Lemma pretty_N_go_numeric (x : N) (s : string) :
  numeric s = true → numeric (pretty_N_go x s) = true.
Proof.
  revert s. induction (N.lt_wf_0 x) as [x _ IH]; intros s Hs.
  assert (x = 0 ∨ 0 < x)%N as [->|Hpos] by lia; [by rewrite pretty_N_go_0|].
  rewrite pretty_N_go_step by done. apply IH; [by apply N.div_lt|].
  simpl. rewrite Hs, andb_true_r. unfold pretty_N_char. by repeat case_match.
Qed.

Lemma format_i_numeric (n : Z) : numeric (format_i n) = true.
Proof.
  unfold format_i, pretty, pretty_Z.
  assert (∀ x : N, numeric (pretty x) = true) as HN.
  { intros x. unfold pretty, pretty_N. case_decide; [done|]. by apply pretty_N_go_numeric. }
  destruct n as [|p|p]; [done|apply (HN (N.pos p))|].
  rewrite string_app_cons. simpl. apply (HN (N.pos p)).
Qed.

(** A number is read back from where it ends: at the first character
    that is no digit and no sign. *)
Lemma numeric_split (d1 d2 r1 r2 : string) (c : Ascii.ascii) :
  numeric d1 = true → numeric d2 = true → numeric_char c = false →
  d1 +:+ String c r1 = d2 +:+ String c r2 → d1 = d2 ∧ r1 = r2.
Proof.
  intros Hd1 Hd2 Hc. revert d2 Hd2.
  induction d1 as [|x d1 IH]; intros [|y d2] Hd2; rewrite ?string_app_cons; simpl in *.
  - by intros [= ->].
  - intros [= <- _]. apply andb_true_iff in Hd2 as [? _]. congruence.
  - intros [= -> _]. apply andb_true_iff in Hd1 as [? _]. congruence.
  - intros [= -> Heq]. apply andb_true_iff in Hd1 as [_ Hd1], Hd2 as [_ Hd2].
    destruct (IH Hd1 d2 Hd2 Heq) as [-> ->]. done.
Qed.

(** X24.  Two calls of [get_decode_dir_name] that return the same name
    were made with the same [max_enc_steps], [beam_size], [min_dec_steps]
    and [max_dec_steps] and the same checkpoint name. *)
Theorem get_decode_dir_name_injective (FLAGS FLAGS' : Flags) (PFLAGS PFLAGS' : PathFlags)
    (ckpt_name ckpt_name' : option string) (name : string) :
  get_decode_dir_name FLAGS PFLAGS ckpt_name = Ok name →
  get_decode_dir_name FLAGS' PFLAGS' ckpt_name' = Ok name →
  max_enc_steps PFLAGS = max_enc_steps PFLAGS'
  ∧ beam_size FLAGS = beam_size FLAGS'
  ∧ min_dec_steps FLAGS = min_dec_steps FLAGS'
  ∧ max_dec_steps FLAGS = max_dec_steps FLAGS'
  ∧ ckpt_name = ckpt_name'.
Proof.
  unfold get_decode_dir_name.
  intros (ds & Hds & [= <-])%bind_Ok (ds' & Hds' & [= Heq])%bind_Ok.
  assert (ds = "train" ∨ ds = "val" ∨ ds = "test")%string as Hcase.
  { repeat case_match; simplify_eq; auto. }
  assert (ds' = "train" ∨ ds' = "val" ∨ ds' = "test")%string as Hcase'.
  { repeat case_match; simplify_eq; auto. }
  clear Hds Hds'.
  assert (∀ a : string, EmptyString +:+ a = a) as Hnil by done.
  destruct ckpt_name as [c|], ckpt_name' as [c'|];
    destruct Hcase as [->|[->| ->]], Hcase' as [->|[->| ->]];
    rewrite ?string_app_assoc in Heq;
    repeat (rewrite ?string_app_cons, ?Hnil in Heq);
    simplify_eq.
  all: apply numeric_split in Heq as [Henc Heq]; [|apply format_i_numeric..|done].
  all: simplify_eq.
  all: apply numeric_split in Heq as [Hbeam Heq]; [|apply format_i_numeric..|done].
  all: simplify_eq.
  all: apply numeric_split in Heq as [Hmin Heq]; [|apply format_i_numeric..|done].
  all: simplify_eq.
  all: apply numeric_split in Heq as [Hmax Heq]; [|apply format_i_numeric..|done].
  all: simplify_eq.
  all: unfold format_i in *; simplify_eq; repeat split; congruence.
Qed.

(** Two data paths of the validation set by name, [interval] being one. *)
Lemma get_decode_dir_name_injective_witness :
  let flags := {| beam_size := 4; max_dec_steps := 100; min_dec_steps := 35;
                  smart_decode := true |} in
  let flags' := {| beam_size := 4; max_dec_steps := 100; min_dec_steps := 35;
                   smart_decode := false |} in
  let pflags := {| data_path := "/data/chunked/val_*"; max_enc_steps := 400 |} in
  let pflags' := {| data_path := "/data/interval/x.bin"; max_enc_steps := 400 |} in
  let name := "decode_val_400maxenc_4beam_35mindec_100maxdec_ckpt-238410"%string in
  get_decode_dir_name flags pflags (Some "ckpt-238410"%string) = Ok name
  ∧ get_decode_dir_name flags' pflags' (Some "ckpt-238410"%string) = Ok name
  ∧ max_enc_steps pflags = max_enc_steps pflags'
  ∧ beam_size flags = beam_size flags'
  ∧ min_dec_steps flags = min_dec_steps flags'
  ∧ max_dec_steps flags = max_dec_steps flags'
  ∧ Some "ckpt-238410"%string = Some "ckpt-238410"%string.
Proof.
  intros flags flags' pflags pflags' name.
  assert (get_decode_dir_name flags pflags (Some "ckpt-238410"%string) = Ok name) as H1
    by (by vm_compute).
  assert (get_decode_dir_name flags' pflags' (Some "ckpt-238410"%string) = Ok name) as H2
    by (by vm_compute).
  split; [done|]. split; [done|].
  exact (get_decode_dir_name_injective flags flags' pflags pflags' _ _ name H1 H2).
Defined.
